(** * x402-market-analysis: the trading-signal engine

    A shallow embedding of the technical-analysis service
    ([generateTradingSignals] and its helpers) and the properties its
    specification states about it.

    Number model.  A JavaScript [number] is modelled by an exact rational
    ([Q]): rounding, overflow, signed zeros, infinities and NaN are outside
    the model.  Two conventions follow from that choice and are kept visible:
    - a read [a[i]] is [Arr.get] ([None] for [undefined]) where the source
      tests the result, and [Arr.read] or [nth] (value [0] outside the
      array) where it computes with it; every such read of the engine is in
      range on a series that passed the length check;
    - a division whose divisor is zero is Rocq's total [/] (value [0]) where
      the source yields an infinity or NaN; the theorems exclude those inputs
      by hypothesis (non-zero, positive prices); the divisors of the RSI
      are shown non-zero.

    Effects.  The clock reading and the fetched series are arguments of
    [generateTradingSignals]; the functions are first written on immutable
    lists and then, in [Store], over a store of mutable arrays, and the two
    are shown to agree ([generateTradingSignals_run]). *)

From Stdlib Require Import String Ascii DecimalString.
From Stdlib Require Import Reals Qreals.
From Stdlib Require Lra.
From Stdlib Require Import List ZArith QArith Qround Qabs Qminmax Qpower Lia Lqa.
From Stdlib Require Import Bool Permutation Sorted.
Import ListNotations.

Open Scope Z_scope.
Open Scope Q_scope.

(** ** Numbers *)

Definition Qlt_bool (x y : Q) : bool := negb (Qle_bool y x).

(** [Math.floor], [Math.round] (halves go up), [Math.abs], [Math.min],
    [Math.max], [Math.pow(x, 2)]. *)
Definition Math_floor (x : Q) : Z := Qfloor x.
Definition Math_round (x : Q) : Z := Qfloor (x + (1 # 2)).
Definition Math_abs (x : Q) : Q := Qabs x.
Definition Math_min (x y : Q) : Q := if Qlt_bool y x then y else x.
Definition Math_max (x y : Q) : Q := if Qlt_bool x y then y else x.
Definition Math_pow2 (x : Q) : Q := x * x.

(** ** Arrays

    The array methods the service uses, on immutable lists: each of them
    returns a new array in the source too ([sort] apart, see [Store]). *)

Module Arr.

(** A relative index of [slice]: negative counts from the end, and the
    result is clamped to [0 .. len]. *)
Definition rel (len idx : Z) : Z :=
  if (idx <? 0)%Z then Z.max (len + idx) 0 else Z.min idx len.

(** [a.slice(start)] and [a.slice(start, end)]. *)
Definition slice {A} (a : list A) (start : Z) (stop : option Z) : list A :=
  let len := Z.of_nat (length a) in
  let k := rel len start in
  let fin := match stop with Some e => rel len e | None => len end in
  firstn (Z.to_nat (fin - k)) (skipn (Z.to_nat k) a).

Fixpoint map_from {A B} (f : A -> nat -> B) (i : nat) (a : list A) : list B :=
  match a with
  | [] => []
  | x :: rest => f x i :: map_from f (S i) rest
  end.

(** [a.map((x, i, arr) => ...)]. *)
Definition mapi {A B} (f : A -> nat -> list A -> B) (a : list A) : list B :=
  map_from (fun x i => f x i a) 0 a.

(** [a.reduce(f, init)]. *)
Definition reduce {A B} (f : B -> A -> B) (init : B) (a : list A) : B :=
  fold_left f a init.

(** [a.reduce((x, y) => x + y, 0)]. *)
Definition sum (a : list Q) : Q := reduce Qplus 0 a.

Definition len {A} (a : list A) : Q := inject_Z (Z.of_nat (length a)).

(** [a[i]]: [None] is [undefined]. *)
Definition get {A} (a : list A) (i : Z) : option A :=
  if (i <? 0)%Z then None else nth_error a (Z.to_nat i).

(** [a[i]] where the index is in range (see the header for the reads
    that are not). *)
Definition read (a : list Q) (i : Z) : Q :=
  match get a i with Some x => x | None => 0 end.

(** Stable insertion of [x] into a list ordered by [cmp]: [x] goes after
    every element it does not precede ([cmp x y < 0] is "x before y"). *)
Fixpoint insert (cmp : Q -> Q -> Q) (x : Q) (a : list Q) : list Q :=
  match a with
  | [] => [x]
  | y :: rest => if Qlt_bool (cmp x y) 0 then x :: y :: rest
                 else y :: insert cmp x rest
  end.

(** [a.sort(cmp)] as a function of the contents: a stable sort, as
    ECMAScript requires. *)
Definition sort (cmp : Q -> Q -> Q) (a : list Q) : list Q :=
  fold_left (fun acc x => insert cmp x acc) a [].

End Arr.

(** ** Data model *)

Inductive SignalStrength := strong_buy | buy | neutral | sell | strong_sell.
Inductive Trend := bullish | bearish | sideways.
Inductive Volatility := low | medium | high.

Record TechnicalIndicator := {
  name : string;
  value : Q;
  signal : SignalStrength;
  interpretation : string
}.

Record TradingSignal := {
  symbol : string;
  currentPrice : Q;
  overallSignal : SignalStrength;
  confidence : Q;
  indicators : list TechnicalIndicator;
  supportLevel : Q;
  resistanceLevel : Q;
  trend : Trend;
  volatility : Volatility;
  summary : string;
  generatedAt : string
}.

Record PriceData := {
  timestamp : Z;
  price : Q;
  volume : Q
}.

Record MACD := {
  macd : Q;
  macd_signal : Q;
  histogram : Q
}.

(** ** Technical analysis functions *)

(** The [changes] array of [calculateRSI]: deltas of the last [period + 1]
    prices, the first (placeholder) entry dropped. *)
Definition rsiChanges (prices : list Q) (period : Z) : list Q :=
  Arr.slice
    (Arr.mapi (fun p i arr => if (i =? 0)%nat then 0 else p - nth (i - 1) arr 0)
              (Arr.slice prices (- period - 1) None))
    1 None.

Definition rsiGains (prices : list Q) (period : Z) : list Q :=
  filter (fun c => Qlt_bool 0 c) (rsiChanges prices period).

Definition rsiLosses (prices : list Q) (period : Z) : list Q :=
  map Math_abs (filter (fun c => Qlt_bool c 0) (rsiChanges prices period)).

Definition avgGain (prices : list Q) (period : Z) : Q :=
  let gains := rsiGains prices period in
  if (0 <? length gains)%nat then Arr.sum gains / inject_Z period else 0.

Definition avgLoss (prices : list Q) (period : Z) : Q :=
  let losses := rsiLosses prices period in
  if (0 <? length losses)%nat then Arr.sum losses / inject_Z period else 0.

Definition calculateRSI (prices : list Q) (period : Z) : Q :=
  if (Z.of_nat (length prices) <? period + 1)%Z then 50
  else
    if Qeq_bool (avgLoss prices period) 0 then 100
    else
      let rs := avgGain prices period / avgLoss prices period in
      100 - (100 / (1 + rs)).

Definition calculateSMA (prices : list Q) (period : Z) : Q :=
  let slice := Arr.slice prices (- period) None in
  Arr.sum slice / Arr.len slice.

(** The [for] loop of [calculateEMA]: [n] more iterations from index [i]. *)
Fixpoint emaLoop (prices : list Q) (k : Q) (n i : nat) (ema : Q) : Q :=
  match n with
  | O => ema
  | S n' => emaLoop prices k n' (S i) (nth i prices 0 * k + ema * (1 - k))
  end.

Definition calculateEMA (prices : list Q) (period : Z) : Q :=
  let k := 2 / inject_Z (period + 1) in
  let ema := Arr.read prices 0 in
  emaLoop prices k (length prices - 1) 1 ema.

Definition calculateMACD (prices : list Q) : MACD :=
  let ema12 := calculateEMA prices 12 in
  let ema26 := calculateEMA prices 26 in
  let macd := ema12 - ema26 in
  let signal := calculateEMA (Arr.slice prices 0 (Some (-9)%Z) ++ [macd]) 9 in
  {| macd := macd; macd_signal := signal; histogram := macd - signal |}.

Definition calculateVolumeTrend (volumes : list Q) : Q :=
  if (length volumes <? 10)%nat then 0
  else
    let recent := Arr.sum (Arr.slice volumes (-5) None) / 5 in
    let previous := Arr.sum (Arr.slice volumes (-10) (Some (-5)%Z)) / 5 in
    if Qlt_bool 0 previous then (recent - previous) / previous else 0.

Definition calculateVariance (values : list Q) : Q :=
  let mean := Arr.sum values / Arr.len values in
  Arr.reduce (fun sum v => sum + Math_pow2 (v - mean)) 0 values / Arr.len values.

Record Levels := { support : Q; resistance : Q }.

(** The comparator [(a, b) => a - b]. *)
Definition ascending : Q -> Q -> Q := fun a b => a - b.

Definition calculateSupportResistance (prices : list Q) : Levels :=
  let sorted := Arr.sort ascending prices in
  let low := Arr.read sorted (Math_floor (Arr.len sorted * 0.1)) in
  let high := Arr.read sorted (Math_floor (Arr.len sorted * 0.9)) in
  {| support := low; resistance := high |}.

(** [Math.sqrt(variance) * 100 < bound], decided on the squares: the root of
    a rational need not be rational.  [sqrt_scaled_lt_correct] relates it to
    the real square root. *)
Definition sqrt_scaled_lt (variance bound : Q) : bool :=
  Qlt_bool (variance * (100 * 100)) (bound * bound).

Definition calculateVolatility (prices : list Q) : Volatility :=
  let returns :=
    Arr.mapi (fun p i _ => (p - nth i prices 0) / nth i prices 0)
             (Arr.slice prices 1 None) in
  let variance := calculateVariance returns in
  if sqrt_scaled_lt variance 2 then low
  else if sqrt_scaled_lt variance 5 then medium
  else high.

(** [prices[prices.length - 8] || prices[0]]: the fallback is taken when the
    left operand is [undefined] (index out of range) or [0]. *)
Definition weekAgoPrice (prices : list Q) : Q :=
  match Arr.get prices (Z.of_nat (length prices) - 8) with
  | Some p => if Qeq_bool p 0 then Arr.read prices 0 else p
  | None => Arr.read prices 0
  end.

Definition determineTrend (prices : list Q) (sma20 sma50 : Q) : Trend :=
  let current := Arr.read prices (Z.of_nat (length prices) - 1) in
  let weekAgo := weekAgoPrice prices in
  let priceChange := (current - weekAgo) / weekAgo in
  if Qlt_bool sma20 current && Qlt_bool sma50 sma20 && Qlt_bool 0.02 priceChange
  then bullish
  else if Qlt_bool current sma20 && Qlt_bool sma20 sma50
          && Qlt_bool priceChange (-0.02)
  then bearish
  else sideways.

(** ** Signal conversion functions *)

Definition rsiToSignal (rsi : Q) : SignalStrength :=
  if Qlt_bool rsi 20 then strong_buy
  else if Qlt_bool rsi 30 then buy
  else if Qlt_bool 80 rsi then strong_sell
  else if Qlt_bool 70 rsi then sell
  else neutral.

Definition rsiInterpretation (rsi : Q) : string :=
  if Qlt_bool rsi 20 then "Extremely oversold - potential reversal"
  else if Qlt_bool rsi 30 then "Oversold territory"
  else if Qlt_bool 80 rsi then "Extremely overbought - potential reversal"
  else if Qlt_bool 70 rsi then "Overbought territory"
  else "Neutral momentum".

Definition macdToSignal (m : MACD) : SignalStrength :=
  if Qlt_bool 0 (histogram m) && Qlt_bool (macd_signal m) (macd m) then
    if Qlt_bool 0.01 (histogram m) then strong_buy else buy
  else if Qlt_bool (histogram m) 0 && Qlt_bool (macd m) (macd_signal m) then
    if Qlt_bool (histogram m) (-0.01) then strong_sell else sell
  else neutral.

Definition signalToScore (s : SignalStrength) : Q :=
  match s with
  | strong_buy => 2
  | buy => 1
  | neutral => 0
  | sell => -1
  | strong_sell => -2
  end.

Definition scoreToSignal (score : Q) : SignalStrength :=
  if Qle_bool 1.5 score then strong_buy
  else if Qle_bool 0.5 score then buy
  else if Qle_bool score (-1.5) then strong_sell
  else if Qle_bool score (-0.5) then sell
  else neutral.

Definition signalText (s : SignalStrength) : string :=
  match s with
  | strong_buy => "Strong Buy"
  | buy => "Buy"
  | neutral => "Hold/Neutral"
  | sell => "Sell"
  | strong_sell => "Strong Sell"
  end.

(** The string a [trend] value is in the source. *)
Definition trendText (t : Trend) : string :=
  match t with
  | bullish => "bullish"
  | bearish => "bearish"
  | sideways => "sideways"
  end.

Definition isBullish (i : TechnicalIndicator) : bool :=
  match signal i with buy | strong_buy => true | _ => false end.

Definition isBearish (i : TechnicalIndicator) : bool :=
  match signal i with sell | strong_sell => true | _ => false end.

(** ** The engine *)

Record Error := { message : string }.

Inductive result (A : Type) :=
| Return (a : A)
| Throw (e : Error).
Arguments Return {A} a.
Arguments Throw {A} e.

Definition InsufficientHistory : Error :=
  {| message := "Insufficient price history for technical analysis" |}.

Section Engine.

(** What the runtime provides: [String.prototype.toUpperCase] and the
    conversion of a number to a string in a template literal. *)
Variable toUpperCase : string -> string.
Variable numberToString : Q -> string.

Definition generateSummary (symbol : string) (signal : SignalStrength)
    (confidence : Q) (trend : string)
    (indicators : list TechnicalIndicator) : string :=
  let bullishIndicators := Arr.len (filter isBullish indicators) in
  let bearishIndicators := Arr.len (filter isBearish indicators) in
  (toUpperCase symbol ++ ": " ++ signalText signal ++ " ("
     ++ numberToString confidence ++ "% confidence). "
     ++ "The " ++ trend ++ " trend is supported by "
     ++ numberToString bullishIndicators ++ " bullish and "
     ++ numberToString bearishIndicators ++ " bearish indicators out of "
     ++ numberToString (Arr.len indicators) ++ " analyzed.")%string.

(** [generateTradingSignals symbol], run when the clock reads [now]
    ([new Date().toISOString()]) and [fetchPriceHistory symbol] has
    resolved to [priceHistory].  (When the fetch fails instead its error
    propagates before any of this code runs.)  The read of the last point
    is in range once the length check has passed. *)
Definition generateTradingSignals (now : string) (symbol : string)
    (priceHistory : list PriceData) : result TradingSignal :=
  if (length priceHistory <? 14)%nat then Throw InsufficientHistory
  else
    let currentPrice :=
      match Arr.get priceHistory (Z.of_nat (length priceHistory) - 1) with
      | Some p => price p
      | None => 0
      end in
    let prices := map price priceHistory in
    let volumes := map volume priceHistory in
    let indicators : list TechnicalIndicator := [] in
    let rsi := calculateRSI prices 14 in
    let indicators := indicators ++ [
      {| name := "RSI (14)";
         value := rsi;
         signal := rsiToSignal rsi;
         interpretation := rsiInterpretation rsi |} ] in
    let sma20 := calculateSMA prices 20 in
    let sma50 := calculateSMA prices (Z.min 50 (Z.of_nat (length prices))) in
    let indicators := indicators ++ [
      {| name := "SMA 20";
         value := sma20;
         signal := if Qlt_bool sma20 currentPrice then buy else sell;
         interpretation :=
           if Qlt_bool sma20 currentPrice
           then "Price above 20-day SMA (bullish)"
           else "Price below 20-day SMA (bearish)" |} ] in
    let indicators := indicators ++ [
      {| name := "SMA 50";
         value := sma50;
         signal := if Qlt_bool sma50 currentPrice then buy else sell;
         interpretation :=
           if Qlt_bool sma50 currentPrice
           then "Price above 50-day SMA (bullish)"
           else "Price below 50-day SMA (bearish)" |} ] in
    let macd := calculateMACD prices in
    let indicators := indicators ++ [
      {| name := "MACD";
         value := histogram macd;
         signal := macdToSignal macd;
         interpretation :=
           if Qlt_bool 0 (histogram macd)
           then "MACD histogram positive (bullish momentum)"
           else "MACD histogram negative (bearish momentum)" |} ] in
    let volumeTrend := calculateVolumeTrend volumes in
    let indicators := indicators ++ [
      {| name := "Volume Trend";
         value := volumeTrend;
         signal := if Qlt_bool 0 volumeTrend then buy
                   else if Qlt_bool volumeTrend (-0.1) then sell
                   else neutral;
         interpretation :=
           if Qlt_bool 0.1 volumeTrend
           then "Volume increasing (confirms trend)"
           else if Qlt_bool volumeTrend (-0.1)
           then "Volume decreasing (weakening trend)"
           else "Volume stable" |} ] in
    let levels := calculateSupportResistance prices in
    let signalScores := map (fun i => signalToScore (signal i)) indicators in
    let avgScore := Arr.sum signalScores / Arr.len signalScores in
    let overallSignal := scoreToSignal avgScore in
    let signalVariance := calculateVariance signalScores in
    let confidence :=
      Math_max 0 (Math_min 100 (100 - signalVariance * 20)) in
    let trend := determineTrend prices sma20 sma50 in
    let volatility := calculateVolatility prices in
    let summary :=
      generateSummary symbol overallSignal confidence (trendText trend)
                      indicators in
    Return
      {| symbol := toUpperCase symbol;
         currentPrice := currentPrice;
         overallSignal := overallSignal;
         confidence := inject_Z (Math_round confidence);
         indicators := indicators;
         supportLevel := support levels;
         resistanceLevel := resistance levels;
         trend := trend;
         volatility := volatility;
         summary := summary;
         generatedAt := now |}.

End Engine.

(** ** The engine over a store of arrays

    JavaScript arrays are objects: [sort] and [push] change the array they
    are called on, for every holder of a reference to it.  Here the same
    functions are written over a store of arrays addressed by references,
    with every allocation ([slice], [map], [filter], spread) and every
    in-place update ([sort], [push]) explicit.  The store holds the newest
    array first; the reference of an array is the number of arrays that
    were allocated before it.  (The [PriceData] objects of the input are
    only ever read, so they are kept as values.) *)

Module Store.

Inductive array :=
| Nums (a : list Q)
| Points (a : list PriceData)
| Indicators (a : list TechnicalIndicator).

Definition heap := list array.
Definition ref := nat.

Fixpoint lookup (r : ref) (h : heap) : option array :=
  match h with
  | [] => None
  | v :: older => if (r =? length older)%nat then Some v else lookup r older
  end.

Fixpoint update (r : ref) (v : array) (h : heap) : heap :=
  match h with
  | [] => []
  | w :: older => if (r =? length older)%nat then v :: older
                  else w :: update r v older
  end.

(** [h'] is [h] with newer arrays allocated on top. *)
Definition extends (h h' : heap) : Prop := exists newer, h' = newer ++ h.

Definition M (A : Type) : Type := heap -> A * heap.

Definition ret {A} (x : A) : M A := fun h => (x, h).

Definition bind {A B} (m : M A) (k : A -> M B) : M B :=
  fun h => let (x, h') := m h in k x h'.

Notation "x <- m ;; k" := (bind m (fun x => k))
  (at level 61, m at next level, right associativity).

Definition alloc (v : array) : M ref := fun h => (length h, v :: h).

Definition write (r : ref) (v : array) : M unit :=
  fun h => (tt, update r v h).

Definition nums (r : ref) : M (list Q) :=
  fun h => (match lookup r h with Some (Nums a) => a | _ => [] end, h).

Definition points (r : ref) : M (list PriceData) :=
  fun h => (match lookup r h with Some (Points a) => a | _ => [] end, h).

Definition inds (r : ref) : M (list TechnicalIndicator) :=
  fun h => (match lookup r h with Some (Indicators a) => a | _ => [] end, h).

(** *** Array methods *)

Definition slice (r : ref) (start : Z) (stop : option Z) : M ref :=
  a <- nums r ;; alloc (Nums (Arr.slice a start stop)).

Definition mapi (f : Q -> nat -> list Q -> Q) (r : ref) : M ref :=
  a <- nums r ;; alloc (Nums (Arr.mapi f a)).

Definition map (f : Q -> Q) (r : ref) : M ref :=
  a <- nums r ;; alloc (Nums (List.map f a)).

Definition filter (f : Q -> bool) (r : ref) : M ref :=
  a <- nums r ;; alloc (Nums (List.filter f a)).

(** [[...a, x]]. *)
Definition spreadWith (r : ref) (extra : list Q) : M ref :=
  a <- nums r ;; alloc (Nums (a ++ extra)).

(** [a.sort(cmp)]: sorts [a] itself and returns it. *)
Definition sort (cmp : Q -> Q -> Q) (r : ref) : M ref :=
  a <- nums r ;; _ <- write r (Nums (Arr.sort cmp a)) ;; ret r.

(** [priceHistory.map(p => f(p))]. *)
Definition pluck (f : PriceData -> Q) (r : ref) : M ref :=
  a <- points r ;; alloc (Nums (List.map f a)).

(** [indicators.push(x)]. *)
Definition push (r : ref) (x : TechnicalIndicator) : M unit :=
  a <- inds r ;; write r (Indicators (a ++ [x])).

(** [indicators.map(i => f(i))]. *)
Definition scores (f : TechnicalIndicator -> Q) (r : ref) : M ref :=
  a <- inds r ;; alloc (Nums (List.map f a)).

Definition filterInds (f : TechnicalIndicator -> bool) (r : ref) : M ref :=
  a <- inds r ;; alloc (Indicators (List.filter f a)).

(** *** Technical analysis functions *)

Definition calculateRSI (prices : ref) (period : Z) : M Q :=
  p <- nums prices ;;
  if (Z.of_nat (length p) <? period + 1)%Z then ret 50
  else
    lastPrices <- slice prices (- period - 1) None ;;
    deltas <- mapi (fun p i arr =>
                      if (i =? 0)%nat then 0 else p - nth (i - 1) arr 0)
                   lastPrices ;;
    changes <- slice deltas 1 None ;;
    gains <- filter (fun c => Qlt_bool 0 c) changes ;;
    falls <- filter (fun c => Qlt_bool c 0) changes ;;
    losses <- map Math_abs falls ;;
    g <- nums gains ;;
    l <- nums losses ;;
    let avgGain :=
      if (0 <? length g)%nat then Arr.sum g / inject_Z period else 0 in
    let avgLoss :=
      if (0 <? length l)%nat then Arr.sum l / inject_Z period else 0 in
    if Qeq_bool avgLoss 0 then ret 100
    else
      let rs := avgGain / avgLoss in
      ret (100 - (100 / (1 + rs))).

Definition calculateSMA (prices : ref) (period : Z) : M Q :=
  window <- slice prices (- period) None ;;
  w <- nums window ;;
  ret (Arr.sum w / Arr.len w).

Definition calculateEMA (prices : ref) (period : Z) : M Q :=
  p <- nums prices ;;
  let k := 2 / inject_Z (period + 1) in
  ret (emaLoop p k (length p - 1) 1 (Arr.read p 0)).

Definition calculateMACD (prices : ref) : M MACD :=
  ema12 <- calculateEMA prices 12 ;;
  ema26 <- calculateEMA prices 26 ;;
  let macd := ema12 - ema26 in
  head <- slice prices 0 (Some (-9)%Z) ;;
  composite <- spreadWith head [macd] ;;
  signal <- calculateEMA composite 9 ;;
  ret {| macd := macd; macd_signal := signal; histogram := macd - signal |}.

Definition calculateVolumeTrend (volumes : ref) : M Q :=
  v <- nums volumes ;;
  if (length v <? 10)%nat then ret 0
  else
    last5 <- slice volumes (-5) None ;;
    r5 <- nums last5 ;;
    let recent := Arr.sum r5 / 5 in
    prev5 <- slice volumes (-10) (Some (-5)%Z) ;;
    p5 <- nums prev5 ;;
    let previous := Arr.sum p5 / 5 in
    ret (if Qlt_bool 0 previous then (recent - previous) / previous else 0).

Definition calculateVariance (values : ref) : M Q :=
  v <- nums values ;;
  let mean := Arr.sum v / Arr.len v in
  ret (Arr.reduce (fun sum x => sum + Math_pow2 (x - mean)) 0 v / Arr.len v).

Definition calculateSupportResistance (prices : ref) : M Levels :=
  copy <- spreadWith prices [] ;;
  sorted <- sort ascending copy ;;
  s <- nums sorted ;;
  let low := Arr.read s (Math_floor (Arr.len s * 0.1)) in
  let high := Arr.read s (Math_floor (Arr.len s * 0.9)) in
  ret {| support := low; resistance := high |}.

Definition calculateVolatility (prices : ref) : M Volatility :=
  rest <- slice prices 1 None ;;
  p <- nums prices ;;
  returns <- mapi (fun x i _ => (x - nth i p 0) / nth i p 0) rest ;;
  variance <- calculateVariance returns ;;
  ret (if sqrt_scaled_lt variance 2 then low
       else if sqrt_scaled_lt variance 5 then medium
       else high).

Definition determineTrend (prices : ref) (sma20 sma50 : Q) : M Trend :=
  p <- nums prices ;;
  ret (determineTrend p sma20 sma50).

Section Engine.

Variable toUpperCase : string -> string.
Variable numberToString : Q -> string.

Definition generateSummary (symbol : string) (signal : SignalStrength)
    (confidence : Q) (trend : string) (indicators : ref) : M string :=
  bullish <- filterInds isBullish indicators ;;
  b <- inds bullish ;;
  bearish <- filterInds isBearish indicators ;;
  s <- inds bearish ;;
  all <- inds indicators ;;
  ret (toUpperCase symbol ++ ": " ++ signalText signal ++ " ("
         ++ numberToString confidence ++ "% confidence). "
         ++ "The " ++ trend ++ " trend is supported by "
         ++ numberToString (Arr.len b) ++ " bullish and "
         ++ numberToString (Arr.len s) ++ " bearish indicators out of "
         ++ numberToString (Arr.len all) ++ " analyzed.")%string.

Definition generateTradingSignals (now : string) (symbol : string)
    (priceHistory : ref) : M (result TradingSignal) :=
  ph <- points priceHistory ;;
  if (length ph <? 14)%nat then ret (Throw InsufficientHistory)
  else
    let currentPrice :=
      match Arr.get ph (Z.of_nat (length ph) - 1) with
      | Some p => price p
      | None => 0
      end in
    prices <- pluck price priceHistory ;;
    volumes <- pluck volume priceHistory ;;
    indicators <- alloc (Indicators []) ;;
    rsi <- calculateRSI prices 14 ;;
    _ <- push indicators
      {| name := "RSI (14)";
         value := rsi;
         signal := rsiToSignal rsi;
         interpretation := rsiInterpretation rsi |} ;;
    sma20 <- calculateSMA prices 20 ;;
    p <- nums prices ;;
    sma50 <- calculateSMA prices (Z.min 50 (Z.of_nat (length p))) ;;
    _ <- push indicators
      {| name := "SMA 20";
         value := sma20;
         signal := if Qlt_bool sma20 currentPrice then buy else sell;
         interpretation :=
           if Qlt_bool sma20 currentPrice
           then "Price above 20-day SMA (bullish)"
           else "Price below 20-day SMA (bearish)" |} ;;
    _ <- push indicators
      {| name := "SMA 50";
         value := sma50;
         signal := if Qlt_bool sma50 currentPrice then buy else sell;
         interpretation :=
           if Qlt_bool sma50 currentPrice
           then "Price above 50-day SMA (bullish)"
           else "Price below 50-day SMA (bearish)" |} ;;
    macd <- calculateMACD prices ;;
    _ <- push indicators
      {| name := "MACD";
         value := histogram macd;
         signal := macdToSignal macd;
         interpretation :=
           if Qlt_bool 0 (histogram macd)
           then "MACD histogram positive (bullish momentum)"
           else "MACD histogram negative (bearish momentum)" |} ;;
    volumeTrend <- calculateVolumeTrend volumes ;;
    _ <- push indicators
      {| name := "Volume Trend";
         value := volumeTrend;
         signal := if Qlt_bool 0 volumeTrend then buy
                   else if Qlt_bool volumeTrend (-0.1) then sell
                   else neutral;
         interpretation :=
           if Qlt_bool 0.1 volumeTrend
           then "Volume increasing (confirms trend)"
           else if Qlt_bool volumeTrend (-0.1)
           then "Volume decreasing (weakening trend)"
           else "Volume stable" |} ;;
    levels <- calculateSupportResistance prices ;;
    signalScores <- scores (fun i => signalToScore (signal i)) indicators ;;
    sc <- nums signalScores ;;
    let avgScore := Arr.sum sc / Arr.len sc in
    let overallSignal := scoreToSignal avgScore in
    signalVariance <- calculateVariance signalScores ;;
    let confidence :=
      Math_max 0 (Math_min 100 (100 - signalVariance * 20)) in
    trend <- determineTrend prices sma20 sma50 ;;
    volatility <- calculateVolatility prices ;;
    summary <- generateSummary symbol overallSignal confidence
                               (trendText trend) indicators ;;
    reported <- inds indicators ;;
    ret (Return
      {| symbol := toUpperCase symbol;
         currentPrice := currentPrice;
         overallSignal := overallSignal;
         confidence := inject_Z (Math_round confidence);
         indicators := reported;
         supportLevel := support levels;
         resistanceLevel := resistance levels;
         trend := trend;
         volatility := volatility;
         summary := summary;
         generatedAt := now |}).

End Engine.

(** The engine's own arrays, once allocated on top of the store [h0] it
    was entered with: [prices], [volumes] and [indicators], in that
    order. *)
Definition engineArrays (h0 : heap) (prices volumes : list Q)
    (indicators : list TechnicalIndicator) (h : heap) : Prop :=
  extends h0 h /\
  lookup (length h0) h = Some (Nums prices) /\
  lookup (S (length h0)) h = Some (Nums volumes) /\
  lookup (S (S (length h0))) h = Some (Indicators indicators).

End Store.

(** ** The specification's own words

    Definitions that follow the wording of the specification, to compare
    with the functions above. *)

Module Spec.

(** "all but the last [n]" elements. *)
Definition allButLast {A} (n : nat) (l : list A) : list A :=
  rev (skipn n (rev l)).

(** One smoothing step with factor [k]. *)
Definition smooth (k : Q) (ema p : Q) : Q := p * k + ema * (1 - k).

(** EMA: "seeded with the first price ..., then smoothed forward with
    factor k = 2/(period+1)".  (An empty series has no seed; the value
    there is that of the code's model.) *)
Definition EMA (series : list Q) (period : Z) : Q :=
  match series with
  | [] => 0
  | seed :: rest => fold_left (smooth (2 / inject_Z (period + 1))) rest seed
  end.

Fixpoint total (l : list Q) : Q :=
  match l with
  | [] => 0
  | x :: rest => x + total rest
  end.

Definition mean (l : list Q) : Q := total l / inject_Z (Z.of_nat (length l)).

(** Population variance: the mean squared deviation from the mean. *)
Definition variance (l : list Q) : Q :=
  mean (map (fun v => (v - mean l) * (v - mean l)) l).

Definition clamp (x lo hi : Q) : Q :=
  if Qlt_bool x lo then lo else if Qlt_bool hi x then hi else x.

(** "the last [n]" elements. *)
Definition lastN {A} (n : nat) (l : list A) : list A :=
  rev (firstn n (rev l)).

(** The deltas of a run of prices: each price minus the one before it. *)
Fixpoint deltas (l : list Q) : list Q :=
  match l with
  | [] => []
  | x :: rest =>
      match rest with
      | [] => []
      | y :: _ => (y - x) :: deltas rest
      end
  end.

(** What a delta adds to the gains ("positive deltas") and to the losses
    ("absolute value of negative deltas"); a delta on the other side
    counts as zero, it is not skipped. *)
Definition gain (d : Q) : Q := Qmax d 0.
Definition loss (d : Q) : Q := Qmax (- d) 0.

(** "take the last [period+1] prices, compute [period] deltas, split into
    gains and losses, average each over [period]". *)
Definition averageGain (prices : list Q) (period : Z) : Q :=
  total (map gain (deltas (lastN (Z.to_nat (period + 1)) prices)))
  / inject_Z period.

Definition averageLoss (prices : list Q) (period : Z) : Q :=
  total (map loss (deltas (lastN (Z.to_nat (period + 1)) prices)))
  / inject_Z period.

End Spec.

(** A series with no reversal: every price is above the one before. *)
Definition increasing (l : list Q) : Prop :=
  forall i, (S i < length l)%nat -> nth i l 0 < nth (S i) l 0.

(** The indicator of a report with a given name. *)
Definition indicatorNamed (n : string) (r : TradingSignal)
  : option TechnicalIndicator :=
  find (fun i => String.eqb (name i) n) (indicators r).

(** The numeric score of every indicator of a report. *)
Definition indicatorScores (r : TradingSignal) : list Q :=
  map (fun i => signalToScore (signal i)) (indicators r).

(** A report with its generation time replaced. *)
Definition stampedAt (now : string) (r : TradingSignal) : TradingSignal :=
  {| symbol := symbol r;
     currentPrice := currentPrice r;
     overallSignal := overallSignal r;
     confidence := confidence r;
     indicators := indicators r;
     supportLevel := supportLevel r;
     resistanceLevel := resistanceLevel r;
     trend := trend r;
     volatility := volatility r;
     summary := summary r;
     generatedAt := now |}.

(** ** A reference runtime and sample series

    The engine is parameterised by the runtime's string functions; the
    properties below hold for any.  For evaluating the engine on concrete
    series: ASCII upper-casing and a decimal printer (exact on numbers with
    a short decimal expansion). *)

Module Runtime.

Definition upperChar (c : ascii) : ascii :=
  let n := nat_of_ascii c in
  if (97 <=? n)%nat && (n <=? 122)%nat then ascii_of_nat (n - 32) else c.

Fixpoint toUpperCase (s : string) : string :=
  match s with
  | EmptyString => EmptyString
  | String c rest => String (upperChar c) (toUpperCase rest)
  end.

Fixpoint fraction (fuel : nat) (num den : Z) : string :=
  match fuel with
  | O => EmptyString
  | S fuel' =>
      if (num =? 0)%Z then EmptyString
      else String (ascii_of_nat (48 + Z.to_nat (num * 10 / den)))
                  (fraction fuel' ((num * 10) mod den)%Z den)
  end.

Definition numberToString (q : Q) : string :=
  let d := Z.pos (Qden q) in
  let a := Z.abs (Qnum q) in
  ((if (Qnum q <? 0)%Z then "-" else "")
     ++ NilZero.string_of_int (Z.to_int (a / d))
     ++ (if (a mod d =? 0)%Z then "" else "." ++ fraction 17 (a mod d)%Z d))%string.

End Runtime.

Module Sample.

(** A series with the given prices, one point a day, volume 1000. *)
Definition series (prices : list Q) : list PriceData :=
  Arr.map_from
    (fun p i => {| timestamp := 86400000 * Z.of_nat i;
                   price := p; volume := 1000 |})
    0 prices.

(** The end-to-end scenario of the specification (14 points). *)
Definition scenario : list PriceData :=
  series [100; 102; 101; 103; 105; 104; 106; 108; 107; 109; 111; 110;
          112; 114].

(** The scenario without its last point (13 points). *)
Definition tooShort : list PriceData :=
  series [100; 102; 101; 103; 105; 104; 106; 108; 107; 109; 111; 110; 112].

(** A flat series of [n] points at price [c]. *)
Definition flat (c : Q) (n : nat) : list PriceData := series (repeat c n).

(** [n] points rising by one a day from 1000. *)
Definition rising (n : nat) : list PriceData :=
  series (map (fun i => inject_Z (1000 + Z.of_nat i)) (seq 0 n)).

(** [n] points rising by ten a day from 10. *)
Definition climbing (n : nat) : list PriceData :=
  series (map (fun i => inject_Z (10 + 10 * Z.of_nat i)) (seq 0 n)).

Definition run (now : string) (symbol : string)
    (priceHistory : list PriceData) : result TradingSignal :=
  generateTradingSignals Runtime.toUpperCase Runtime.numberToString
                         now symbol priceHistory.

End Sample.

(** ** More sample series *)

Module Cases.

(** A series with the given prices and volumes, one point a day. *)
Definition withVolumes (prices volumes : list Q) : list PriceData :=
  Arr.map_from
    (fun pv i => {| timestamp := 86400000 * Z.of_nat i;
                    price := fst pv; volume := snd pv |})
    0 (combine prices volumes).

(** The scenario's prices with the volume of the last five days 5% above
    that of the five days before. *)
Definition slightlyBusier : list PriceData :=
  withVolumes
    [100; 102; 101; 103; 105; 104; 106; 108; 107; 109; 111; 110; 112; 114]
    [100; 100; 100; 100; 100; 100; 100; 100; 100; 105; 105; 105; 105; 105].

End Cases.

(** ** Text

    Symbols and chain names are ASCII in practice; on ASCII strings
    [String.prototype.toUpperCase], [toLowerCase] and [length] are the
    functions below (beyond ASCII they are not, and the properties that
    depend on them carry the hypothesis [isAscii]). *)

Module Text.

Definition lowerChar (c : ascii) : ascii :=
  let n := nat_of_ascii c in
  if (65 <=? n)%nat && (n <=? 90)%nat then ascii_of_nat (n + 32) else c.

Fixpoint toLowerCase (s : string) : string :=
  match s with
  | EmptyString => EmptyString
  | String c rest => String (lowerChar c) (toLowerCase rest)
  end.

Definition toUpperCase : string -> string := Runtime.toUpperCase.

Fixpoint isAscii (s : string) : bool :=
  match s with
  | EmptyString => true
  | String c rest => (nat_of_ascii c <? 128)%nat && isAscii rest
  end.

(** [x || d] on strings: the empty string is falsy, [None] is
    [undefined]. *)
Definition orElse (x : option string) (d : string) : string :=
  match x with
  | Some s => if String.eqb s "" then d else s
  | None => d
  end.

(** [table[key]] on an object literal with string values, for a key that
    is not a property of [Object.prototype]. *)
Fixpoint lookup (key : string) (table : list (string * string))
  : option string :=
  match table with
  | [] => None
  | (k, v) :: rest => if String.eqb key k then Some v else lookup key rest
  end.

End Text.

(** ** Symbol resolution and the fetch of the price history *)

(** The [mapping] of [symbolToCoinGeckoId]. *)
Definition coinGeckoMapping : list (string * string) :=
  [("BTC", "bitcoin"); ("ETH", "ethereum"); ("SOL", "solana");
   ("USDC", "usd-coin"); ("USDT", "tether"); ("LINK", "chainlink");
   ("UNI", "uniswap"); ("AAVE", "aave"); ("ARB", "arbitrum");
   ("OP", "optimism"); ("MATIC", "matic-network"); ("AVAX", "avalanche-2");
   ("DOGE", "dogecoin"); ("SHIB", "shiba-inu"); ("PEPE", "pepe")]%string.

(** The keys are upper-case and every property of [Object.prototype] has a
    lower-case letter, so the lookup never reaches the prototype. *)
Definition symbolToCoinGeckoId (symbol : string) : string :=
  Text.orElse (Text.lookup (Text.toUpperCase symbol) coinGeckoMapping)
              (Text.toLowerCase symbol).

(** [COINGECKO_IDS] of the price service. *)
Definition COINGECKO_IDS : list (string * string) :=
  [("BTC", "bitcoin"); ("ETH", "ethereum"); ("USDC", "usd-coin");
   ("USDT", "tether"); ("SOL", "solana"); ("MATIC", "matic-network");
   ("AVAX", "avalanche-2"); ("LINK", "chainlink"); ("UNI", "uniswap");
   ("AAVE", "aave"); ("ARB", "arbitrum"); ("OP", "optimism");
   ("BASE", "base"); ("DOGE", "dogecoin"); ("SHIB", "shiba-inu");
   ("PEPE", "pepe"); ("WIF", "dogwifhat"); ("BONK", "bonk")]%string.

(** The [coinId] of [getTokenPriceFromCoinGecko]. *)
Definition priceCoinId (symbol : string) : string :=
  let upperSymbol := Text.toUpperCase symbol in
  Text.orElse (Text.lookup upperSymbol COINGECKO_IDS)
              (Text.toLowerCase symbol).

(** The body of a [market_chart] response: [prices] and [total_volumes],
    arrays of [[timestamp, value]] pairs. *)
Record MarketChart := {
  chart_prices : list (Z * Q);
  chart_volumes : list (Z * Q)
}.

(** [volumes[i]?.[1] || 0]. *)
Definition volumeAt (volumes : list (Z * Q)) (i : nat) : Q :=
  match nth_error volumes i with
  | Some v => if Qeq_bool (snd v) 0 then 0 else snd v
  | None => 0
  end.

(** The status and JSON body of a response ([ApiResponse] of the
    source): [data] on success, [error] otherwise. *)
Record ApiResponse (A : Type) := {
  status : Z;
  success : bool;
  data : option A;
  error : option string;
  responseTimestamp : string
}.
Arguments status {A} _.
Arguments success {A} _.
Arguments data {A} _.
Arguments error {A} _.
Arguments responseTimestamp {A} _.

Section Service.

(** The HTTP request of [fetchPriceHistory], by coin id: it resolves to the
    response body or fails with an error. *)
Variable axiosGet : string -> result MarketChart.
Variable numberToString : Q -> string.

Definition fetchPriceHistory (symbol : string) : result (list PriceData) :=
  let coinId := symbolToCoinGeckoId symbol in
  match axiosGet coinId with
  | Return data =>
      let prices := chart_prices data in
      let volumes := chart_volumes data in
      Return (Arr.map_from
                (fun p i => {| timestamp := fst p;
                               price := snd p;
                               volume := volumeAt volumes i |})
                0 prices)
  | Throw error =>
      Throw {| message :=
                 ("Failed to fetch price history: " ++ message error)%string |}
  end.

(** [generateTradingSignals symbol] with its fetch: the engine above run on
    what [fetchPriceHistory] resolves to. *)
Definition tradingSignalsFor (now : string) (symbol : string)
  : result TradingSignal :=
  match fetchPriceHistory symbol with
  | Return priceHistory =>
      generateTradingSignals Text.toUpperCase numberToString now symbol
                             priceHistory
  | Throw error => Throw error
  end.

(** The handler of [GET /api/signals/:symbol]; [now] is the clock reading
    of the engine, [sent] that of the response. *)
Definition signalsRoute (now sent : string) (symbol : string)
  : ApiResponse TradingSignal :=
  if String.eqb symbol "" || (10 <? String.length symbol)%nat then
    {| status := 400; success := false; data := None;
       error := Some "Invalid symbol"%string; responseTimestamp := sent |}
  else
    match tradingSignalsFor now symbol with
    | Return signals =>
        {| status := 200; success := true; data := Some signals;
           error := None; responseTimestamp := sent |}
    | Throw error =>
        {| status := 500; success := false; data := None;
           error := Some (message error); responseTimestamp := sent |}
    end.

End Service.

(** ** A sample data provider *)

Module Provider.

(** A [market_chart] body with the scenario's prices; the last day has no
    volume entry yet. *)
Definition scenarioChart : MarketChart :=
  {| chart_prices :=
       Arr.map_from (fun p i => ((86400000 * Z.of_nat i)%Z, p)) 0
         [100; 102; 101; 103; 105; 104; 106; 108; 107; 109; 111; 110; 112;
          114];
     chart_volumes :=
       Arr.map_from (fun v i => ((86400000 * Z.of_nat i)%Z, v)) 0
         (repeat 1000 13) |}.

(** Four days of a newly listed coin. *)
Definition newCoinChart : MarketChart :=
  {| chart_prices :=
       [(0%Z, 1); (86400000%Z, 2); (172800000%Z, 3); (259200000%Z, 4)];
     chart_volumes :=
       [(0%Z, 10); (86400000%Z, 10); (172800000%Z, 10); (259200000%Z, 10)] |}.

(** A provider that knows bitcoin and a new coin and fails on any other
    id. *)
Definition get (coinId : string) : result MarketChart :=
  if String.eqb coinId "bitcoin" then Return scenarioChart
  else if String.eqb coinId "newcoin" then Return newCoinChart
  else Throw {| message := "Request failed with status code 404" |}.

End Provider.

(** ** The price service *)

Record TokenPriceRequest := {
  req_symbol : option string;
  req_contractAddress : option string;
  req_chain : option string
}.

(** Truthiness of an optional string: [undefined] and the empty string are
    falsy. *)
Definition truthy (x : option string) : bool :=
  match x with
  | Some s => negb (String.eqb s "")
  | None => false
  end.

Definition given (x : option string) : string :=
  match x with Some s => s | None => ""%string end.

Record TokenPrice := {
  tp_symbol : string;
  tp_name : string;
  tp_price : Q;
  tp_priceChange24h : Q;
  tp_priceChangePercentage24h : Q;
  tp_marketCap : Q;
  tp_volume24h : Q;
  tp_high24h : Q;
  tp_low24h : Q;
  tp_ath : Q;
  tp_athChangePercentage : Q;
  tp_lastUpdated : string;
  tp_source : string
}.

(** A pair of a DexScreener answer; a number that is missing (or, for
    [priceUsd], is not what [parseFloat] reads as a number) is [None]. *)
Record DexPair := {
  pair_chainId : string;
  pair_baseSymbol : string;
  pair_baseName : string;
  pair_priceUsd : option Q;
  pair_priceChangeH24 : option Q;
  pair_fdv : option Q;
  pair_volumeH24 : option Q;
  pair_liquidityUsd : option Q
}.

(** [x || 0] on a number that may be missing: missing and zero give 0. *)
Definition orZero (x : option Q) : Q :=
  match x with
  | Some v => if Qeq_bool v 0 then 0 else v
  | None => 0
  end.

(** The [chainMap] of [getTokenPriceFromDexScreener]. *)
Definition chainMap : list (string * string) :=
  [("ethereum", "ethereum"); ("eth", "ethereum"); ("base", "base");
   ("arbitrum", "arbitrum"); ("arb", "arbitrum"); ("optimism", "optimism");
   ("op", "optimism"); ("polygon", "polygon"); ("matic", "polygon");
   ("solana", "solana"); ("sol", "solana"); ("bsc", "bsc"); ("bnb", "bsc");
   ("avalanche", "avalanche"); ("avax", "avalanche")]%string.

(** [chainMap[chain.toLowerCase()] || chain.toLowerCase()], for a chain
    whose lower-case form is not a property of [Object.prototype]
    ("constructor" and "__proto__" are, and give no string). *)
Definition dexChainOf (chain : string) : string :=
  Text.orElse (Text.lookup (Text.toLowerCase chain) chainMap)
              (Text.toLowerCase chain).

Definition inheritedKey (key : string) : bool :=
  String.eqb key "constructor" || String.eqb key "__proto__".

(** The pair the price is read from, for the non-empty answer
    [first :: others]: among the pairs on the chain the most liquid one
    ([reduce] keeps the later of two equally liquid pairs), and the first
    pair of the answer when none is on the chain. *)
Definition selectPair (dexChain : string) (first : DexPair)
    (others : list DexPair) : DexPair :=
  let pairs := first :: others in
  let chainPairs :=
    filter (fun p => String.eqb (pair_chainId p) dexChain) pairs in
  match chainPairs with
  | c :: cs =>
      Arr.reduce
        (fun a b =>
           if Qlt_bool (orZero (pair_liquidityUsd b))
                       (orZero (pair_liquidityUsd a))
           then a else b)
        c cs
  | [] => first
  end.

Section PriceService.

(** The HTTP request to DexScreener, by contract address: the [pairs] of
    the answer ([None] when the answer has none), or an error. *)
Variable dexGet : string -> result (option (list DexPair)).

(** [getTokenPriceFromCoinGecko], whose request and field mapping are not
    modelled. *)
Variable getTokenPriceFromCoinGecko : string -> result TokenPrice.

Definition getTokenPriceFromDexScreener (now : string)
    (contractAddress chain : string) : result TokenPrice :=
  let dexChain := dexChainOf chain in
  let failed (m : string) : result TokenPrice :=
    Throw {| message :=
               ("Failed to fetch price from DexScreener: " ++ m)%string |} in
  match dexGet contractAddress with
  | Throw error => failed (message error)
  | Return pairs =>
      match pairs with
      | None | Some [] =>
          failed ("No trading pairs found for contract "
                    ++ contractAddress)%string
      | Some (first :: others) =>
          let chosen := selectPair dexChain first others in
          let price := orZero (pair_priceUsd chosen) in
          let h24 := orZero (pair_priceChangeH24 chosen) in
          Return
            {| tp_symbol := pair_baseSymbol chosen;
               tp_name := pair_baseName chosen;
               tp_price := price;
               tp_priceChange24h :=
                 orZero (option_map (fun p => p * h24 / 100)
                                    (pair_priceUsd chosen));
               tp_priceChangePercentage24h := h24;
               tp_marketCap := orZero (pair_fdv chosen);
               tp_volume24h := orZero (pair_volumeH24 chosen);
               tp_high24h := 0;
               tp_low24h := 0;
               tp_ath := 0;
               tp_athChangePercentage := 0;
               tp_lastUpdated := now;
               tp_source := "dexscreener" |}
      end
  end.

Definition getTokenPrice (now : string) (request : TokenPriceRequest)
  : result TokenPrice :=
  if truthy (req_contractAddress request) && truthy (req_chain request) then
    getTokenPriceFromDexScreener now (given (req_contractAddress request))
                                 (given (req_chain request))
  else if truthy (req_symbol request) then
    getTokenPriceFromCoinGecko (given (req_symbol request))
  else
    Throw {| message :=
               "Either symbol or contractAddress+chain must be provided" |}.

(** The handler of [GET /api/price], on the query parameters. *)
Definition priceRoute (now sent : string) (query : TokenPriceRequest)
  : ApiResponse TokenPrice :=
  if negb (truthy (req_symbol query))
     && negb (truthy (req_contractAddress query)) then
    {| status := 400; success := false; data := None;
       error := Some "Either symbol or contractAddress must be provided"%string;
       responseTimestamp := sent |}
  else
    match getTokenPrice now query with
    | Return priceData =>
        {| status := 200; success := true; data := Some priceData;
           error := None; responseTimestamp := sent |}
    | Throw error =>
        {| status := 500; success := false; data := None;
           error := Some (message error); responseTimestamp := sent |}
    end.

End PriceService.

(** ** The portfolio service *)

Module Seq.

(** [table[key]] on an object literal, for a key that is not a property of
    [Object.prototype]. *)
Fixpoint lookup {V} (key : string) (table : list (string * V)) : option V :=
  match table with
  | [] => None
  | (k, v) :: rest => if String.eqb key k then Some v else lookup key rest
  end.

(** [a.includes(x)] on an array of strings. *)
Definition includes (a : list string) (x : string) : bool :=
  existsb (String.eqb x) a.

Fixpoint insertBy {A} (cmp : A -> A -> Q) (x : A) (a : list A) : list A :=
  match a with
  | [] => [x]
  | y :: rest => if Qlt_bool (cmp x y) 0 then x :: y :: rest
                 else y :: insertBy cmp x rest
  end.

(** [a.sort(cmp)] on an array of objects: a stable sort. *)
Definition sortBy {A} (cmp : A -> A -> Q) (a : list A) : list A :=
  fold_left (fun acc x => insertBy cmp x acc) a [].

(** What [table[key]] finds on an object literal, for any key: a property
    of the table's own, a property inherited from [Object.prototype] (a
    function or an object, never a string or an array), or nothing
    ([undefined]).  The keys looked up are lower-cased, and "constructor"
    and "__proto__" are the inherited names without a capital. *)
Inductive Property (V : Type) :=
| Own (v : V)
| Inherited
| Missing.
Arguments Own {V} v.
Arguments Inherited {V}.
Arguments Missing {V}.

Definition property {V} (key : string) (table : list (string * V))
  : Property V :=
  match lookup key table with
  | Some v => Own v
  | None => if inheritedKey key then Inherited else Missing
  end.

(** [a.filter(f)] with a callback that may throw: the first throw ends the
    loop. *)
Fixpoint filterM {A} (f : A -> result bool) (a : list A) : result (list A) :=
  match a with
  | [] => Return []
  | x :: rest =>
      match f x with
      | Throw e => Throw e
      | Return keep =>
          match filterM f rest with
          | Throw e => Throw e
          | Return kept => Return (if keep then x :: kept else kept)
          end
      end
  end.

End Seq.

Record TokenHolding := {
  h_symbol : string;
  h_name : string;
  h_contractAddress : string;
  h_balance : string;
  h_balanceFormatted : Q;
  h_decimals : Z;
  h_priceUsd : Q;
  h_valueUsd : Q;
  h_percentage : Q
}.

(** [{...h, percentage: p}]. *)
Definition withPercentage (h : TokenHolding) (p : Q) : TokenHolding :=
  {| h_symbol := h_symbol h;
     h_name := h_name h;
     h_contractAddress := h_contractAddress h;
     h_balance := h_balance h;
     h_balanceFormatted := h_balanceFormatted h;
     h_decimals := h_decimals h;
     h_priceUsd := h_priceUsd h;
     h_valueUsd := h_valueUsd h;
     h_percentage := p |}.

Record PortfolioAnalysis := {
  pa_walletAddress : string;
  pa_chain : string;
  pa_totalValueUsd : Q;
  pa_tokenCount : nat;
  pa_holdings : list TokenHolding;
  pa_topHolding : option TokenHolding;
  pa_diversificationScore : Q;
  pa_nativeTokenPercentage : Q;
  pa_stablecoinPercentage : Q;
  pa_analysisTimestamp : string
}.

Definition STABLECOINS : list (string * list string) :=
  [("ethereum",
    ["0xa0b86991c6218b36c1d19d4a2e9eb0ce3606eb48";
     "0xdac17f958d2ee523a2206206994597c13d831ec7";
     "0x6b175474e89094c44da98b954eedeac495271d0f"]);
   ("base",
    ["0x833589fcd6edb6e08f4c7c32d4f71b54bda02913";
     "0x50c5725949a6f0c72e6c4a641f24049a917db0cb"]);
   ("arbitrum",
    ["0xaf88d065e77c8cc2239327c5edb3a432268e5831";
     "0xfd086bc7cd5c481dcc9c85ebe478a1c0b69fcbb9"])]%string.

Definition NATIVE_TOKENS : list (string * string) :=
  [("ethereum", "ETH"); ("base", "ETH"); ("arbitrum", "ETH");
   ("polygon", "MATIC"); ("avalanche", "AVAX"); ("bsc", "BNB");
   ("solana", "SOL")]%string.

Definition stableSymbols : list string :=
  ["USDC"; "USDT"; "DAI"; "BUSD"; "FRAX"]%string.

Definition valueOf (holdings : list TokenHolding) : Q :=
  Arr.reduce (fun sum h => sum + h_valueUsd h) 0 holdings.

(** The [TypeError] of [chainStables.includes(...)] when [chainStables] is
    not an array. *)
Definition includesIsNotAFunction : Error :=
  {| message := "chainStables.includes is not a function" |}.

(** [analyzePortfolio walletAddress chain], run when the clock reads [now]
    and [getWalletTokens] has resolved to [holdings].  For a chain whose
    lower-case form is "constructor" or "__proto__", [STABLECOINS[...]] is
    an inherited value, truthy and without [includes]: the first holding
    the stablecoin filter looks at ends the analysis with a [TypeError]. *)
Definition analyzePortfolio (now : string) (walletAddress chain : string)
    (holdings : list TokenHolding) : result PortfolioAnalysis :=
  let totalValueUsd := valueOf holdings in
  let holdingsWithPercentage :=
    map (fun h =>
           withPercentage h
             (if Qlt_bool 0 totalValueUsd
              then (h_valueUsd h / totalValueUsd) * 100 else 0))
        holdings in
  let holdingsWithPercentage :=
    Seq.sortBy (fun a b => h_valueUsd b - h_valueUsd a)
               holdingsWithPercentage in
  let hhi :=
    Arr.reduce (fun sum h => sum + Math_pow2 (h_percentage h)) 0
               holdingsWithPercentage in
  let diversificationScore := Math_min 100 (Math_max 0 (100 - hhi / 100)) in
  let chainStables := Seq.property (Text.toLowerCase chain) STABLECOINS in
  match
    Seq.filterM
      (fun h =>
         match chainStables with
         | Seq.Own stables =>
             Return (Seq.includes stables
                                  (Text.toLowerCase (h_contractAddress h))
                     || Seq.includes stableSymbols
                                     (Text.toUpperCase (h_symbol h)))
         | Seq.Missing =>
             Return (Seq.includes [] (Text.toLowerCase (h_contractAddress h))
                     || Seq.includes stableSymbols
                                     (Text.toUpperCase (h_symbol h)))
         | Seq.Inherited => Throw includesIsNotAFunction
         end)
      holdingsWithPercentage
  with
  | Throw e => Throw e
  | Return stablecoins =>
      let stablecoinValue := valueOf stablecoins in
      let stablecoinPercentage :=
        if Qlt_bool 0 totalValueUsd
        then (stablecoinValue / totalValueUsd) * 100 else 0 in
      let nativeSymbol :=
        Seq.property (Text.toLowerCase chain) NATIVE_TOKENS in
      let nativeValue :=
        valueOf
          (filter (fun h =>
                     match nativeSymbol with
                     | Seq.Own native =>
                         String.eqb (Text.toUpperCase (h_symbol h)) native
                     | Seq.Missing =>
                         String.eqb (Text.toUpperCase (h_symbol h)) "ETH"
                     | Seq.Inherited => false
                     end)
                  holdingsWithPercentage) in
      let nativeTokenPercentage :=
        if Qlt_bool 0 totalValueUsd
        then (nativeValue / totalValueUsd) * 100 else 0 in
      Return
        {| pa_walletAddress := walletAddress;
           pa_chain := chain;
           pa_totalValueUsd := totalValueUsd;
           pa_tokenCount := length holdingsWithPercentage;
           pa_holdings := holdingsWithPercentage;
           pa_topHolding := Arr.get holdingsWithPercentage 0;
           pa_diversificationScore := diversificationScore;
           pa_nativeTokenPercentage := nativeTokenPercentage;
           pa_stablecoinPercentage := stablecoinPercentage;
           pa_analysisTimestamp := now |}
  end.

(** An asset of a balance answer; a number sent as a string is the number
    it parses to, and a field that is missing, or falsy, is [None]. *)
Record AnkrAsset := {
  tokenSymbol : option string;
  tokenName : option string;
  asset_contractAddress : option string;
  asset_balance : option string;
  balanceRawInteger : option Q;
  tokenDecimals : option Z;
  tokenPrice : option Q;
  balanceUsd : option Q
}.

Definition decimalsOf (asset : AnkrAsset) : Z :=
  match tokenDecimals asset with
  | Some d => if (d =? 0)%Z then 18%Z else d
  | None => 18%Z
  end.

Definition numberOf (x : option Q) : Q :=
  match x with Some v => v | None => 0 end.

Definition holdingOf (asset : AnkrAsset) : TokenHolding :=
  {| h_symbol := Text.orElse (tokenSymbol asset) "UNKNOWN";
     h_name := Text.orElse (tokenName asset)
                 (Text.orElse (tokenSymbol asset) "Unknown Token");
     h_contractAddress :=
       Text.orElse (asset_contractAddress asset)
                   "0x0000000000000000000000000000000000000000";
     h_balance := Text.orElse (asset_balance asset) "0";
     h_balanceFormatted :=
       numberOf (balanceRawInteger asset)
       / Qpower 10 (decimalsOf asset);
     h_decimals := decimalsOf asset;
     h_priceUsd := numberOf (tokenPrice asset);
     h_valueUsd := numberOf (balanceUsd asset);
     h_percentage := 0 |}.

Definition isHexDigit (c : ascii) : bool :=
  let n := nat_of_ascii c in
  ((48 <=? n) && (n <=? 57) || (65 <=? n) && (n <=? 70)
   || (97 <=? n) && (n <=? 102))%nat.

Fixpoint allHex (s : string) : bool :=
  match s with
  | EmptyString => true
  | String c rest => isHexDigit c && allHex rest
  end.

(** [/^0x[a-fA-F0-9]{40}$/.test(address)]. *)
Definition isWalletAddress (address : string) : bool :=
  match address with
  | String "0" (String "x" digits) =>
      (String.length digits =? 40)%nat && allHex digits
  | _ => false
  end.

(** The [blockchain] entry of a balance request: a chain id, or the value
    [Object.prototype] holds under an inherited key. *)
Inductive ChainId :=
| ChainName (id : string)
| InheritedValue (key : string).

Section PortfolioService.

(** The balance request, by chain id and wallet address: the [assets] of
    the answer ([None] when it has none), or an error. *)
Variable ankrGet : ChainId -> string -> result (option (list AnkrAsset)).

(** The [chainToId] of [getWalletTokens]. *)
Definition chainToId : list (string * string) :=
  [("ethereum", "eth"); ("base", "base"); ("arbitrum", "arb");
   ("polygon", "matic"); ("optimism", "op"); ("avalanche", "avax");
   ("bsc", "bsc")]%string.

Definition getWalletTokens (walletAddress chain : string)
  : list TokenHolding :=
  let chainId :=
    match Seq.property (Text.toLowerCase chain) chainToId with
    | Seq.Own id => ChainName id
    | Seq.Missing => ChainName chain
    | Seq.Inherited => InheritedValue (Text.toLowerCase chain)
    end in
  match ankrGet chainId walletAddress with
  | Return (Some assets) => map holdingOf assets
  | Return None => []
  | Throw _ => []
  end.

(** The handler of [GET /api/portfolio/:address]; [chain] is the query
    parameter. *)
Definition portfolioRoute (now sent : string) (address : string)
    (chain : option string) : ApiResponse PortfolioAnalysis :=
  let chain := match chain with Some c => c | None => "base"%string end in
  if String.eqb address "" || negb (isWalletAddress address) then
    {| status := 400; success := false; data := None;
       error := Some "Invalid wallet address format"%string;
       responseTimestamp := sent |}
  else
    match
      analyzePortfolio now address chain (getWalletTokens address chain)
    with
    | Return portfolio =>
        {| status := 200; success := true; data := Some portfolio;
           error := None; responseTimestamp := sent |}
    | Throw e =>
        {| status := 500; success := false; data := None;
           error := Some (message e); responseTimestamp := sent |}
    end.

End PortfolioService.

(** A wallet on Base and the balance answer it comes from. *)
Module Wallet.

Definition address : string := "0xede1a30a8b04cca77ecc8d690c552ac7b0d63817".

Definition asset (symbol contract : string) (raw : Q) (decimals : Z)
    (price usd : Q) : AnkrAsset :=
  {| tokenSymbol := Some symbol;
     tokenName := Some symbol;
     asset_contractAddress := Some contract;
     asset_balance := Some "1"%string;
     balanceRawInteger := Some raw;
     tokenDecimals := Some decimals;
     tokenPrice := Some price;
     balanceUsd := Some usd |}.

Definition usdc : AnkrAsset :=
  asset "USDC" "0x833589fCD6eDb6E08f4c7C32D4f71b54bdA02913"
        300000000 6 1 300.

Definition eth : AnkrAsset :=
  {| tokenSymbol := Some "ETH"%string;
     tokenName := Some "Ether"%string;
     asset_contractAddress := None;
     asset_balance := Some "0.2"%string;
     balanceRawInteger := Some 200000000000000000;
     tokenDecimals := Some 18%Z;
     tokenPrice := Some 3000;
     balanceUsd := Some 600 |}.

Definition points : AnkrAsset :=
  asset "PTS" "0x4ed4e862860bed51a9570b96d89af5e1b0efefed" 100 0 1 100.

Definition assets : list AnkrAsset := [usdc; eth; points].

(** A holding the balance service puts no value on. *)
Definition dust : TokenHolding :=
  holdingOf (asset "DUST" "0x1111111111111111111111111111111111111111"
                   5000 18 0 0).

Definition holdings : list TokenHolding := map holdingOf assets.

(** Two positions of the same value. *)
Definition halves : list TokenHolding := map holdingOf [usdc; usdc].

(** A balance service that knows one wallet on Base and fails for every
    other request. *)
Definition ankr (chainId : ChainId) (walletAddress : string)
  : result (option (list AnkrAsset)) :=
  match chainId with
  | ChainName id =>
      if String.eqb id "base" && String.eqb walletAddress address
      then Return (Some assets)
      else Throw {| message := "timeout of 15000ms exceeded" |}
  | InheritedValue _ =>
      Throw {| message := "Request failed with status code 400" |}
  end.

End Wallet.

(** ** The payment middleware

    [x402PaymentMiddleware], mounted on [/api]: it looks the request up in
    the table of paid routes and answers 402 when a paid route is asked for
    without a payment header.  A route path is turned into a regular
    expression by replacing each [:name] with [[^/]+]; the embedding is for
    paths without regular-expression metacharacters, as the keys of
    [paymentRoutes] are. *)

Module Paywall.

(** The regular expressions a route path gives: letters and [[^/]+]. *)
Inductive Piece :=
| Lit (c : ascii)
| Segment.

(** [path.replace(/:[^/]+/g, '[^/]+')], read as a regular expression;
    [inName] while the characters of a [:name] are being replaced. *)
Fixpoint compile (inName : bool) (path : string) : list Piece :=
  match path with
  | EmptyString => []
  | String c rest =>
      if inName then
        if Ascii.eqb c "/" then Lit c :: compile false rest
        else compile true rest
      else if Ascii.eqb c ":" then
        match rest with
        | EmptyString => [Lit c]
        | String d _ =>
            if Ascii.eqb d "/" then Lit c :: compile false rest
            else Segment :: compile true rest
        end
      else Lit c :: compile false rest
  end.

(** [new RegExp('^' + ... + '$').test(s)]. *)
Fixpoint test (pieces : list Piece) : string -> bool :=
  match pieces with
  | [] => fun s => match s with EmptyString => true | _ => false end
  | Lit c :: rest =>
      fun s => match s with
               | String d s' => Ascii.eqb c d && test rest s'
               | EmptyString => false
               end
  | Segment :: rest =>
      fix more (s : string) : bool :=
        match s with
        | String d s' => negb (Ascii.eqb d "/") && (test rest s' || more s')
        | EmptyString => false
        end
  end.

(** [key.split(' ')]. *)
Fixpoint split (key : string) : list string :=
  match key with
  | EmptyString => [EmptyString]
  | String c rest =>
      if Ascii.eqb c " " then EmptyString :: split rest
      else match split rest with
           | piece :: pieces => String c piece :: pieces
           | [] => [String c EmptyString]
           end
  end.

Record Request := {
  req_method : string;
  (** [req.path]: the path below the mount point. *)
  req_path : string;
  (** [req.headers['payment-signature']] and [req.headers['x-payment']]. *)
  paymentSignature : option string;
  xPayment : option string
}.

(** What the middleware does with a request: [next()], a 402 with the
    payment instructions of the matched route, or the [TypeError] of
    [path.replace] on a key without a path. *)
Inductive Outcome (Cfg : Type) :=
| Next
| PaymentRequired (matchedConfig : Cfg)
| TypeError.
Arguments Next {Cfg}.
Arguments PaymentRequired {Cfg} matchedConfig.
Arguments TypeError {Cfg}.

Section Middleware.

Variable Cfg : Type.

(** The loop over [Object.entries(routeConfig)]. *)
Fixpoint matchRoute (entries : list (string * Cfg))
    (method fullPath : string) : result (option Cfg) :=
  match entries with
  | [] => Return None
  | (key, cfg) :: rest =>
      let pieces := split key in
      if String.eqb (nth 0 pieces EmptyString) method then
        match nth_error pieces 1 with
        | None =>
            Throw {| message :=
              "Cannot read properties of undefined (reading 'replace')" |}
        | Some path =>
            if test (compile false path) fullPath then Return (Some cfg)
            else matchRoute rest method fullPath
        end
      else matchRoute rest method fullPath
  end.

Definition x402PaymentMiddleware (routeConfig : list (string * Cfg))
    (req : Request) : Outcome Cfg :=
  let fullPath := ("/api" ++ req_path req)%string in
  match matchRoute routeConfig (req_method req) fullPath with
  | Throw _ => TypeError
  | Return None => Next
  | Return (Some matchedConfig) =>
      if truthy (paymentSignature req) || truthy (xPayment req) then Next
      else PaymentRequired matchedConfig
  end.

End Middleware.

Arguments matchRoute {Cfg} entries method fullPath.
Arguments x402PaymentMiddleware {Cfg} routeConfig req.

(** The keys of [paymentRoutes], in the order of the table. *)
Definition paymentRouteKeys : list string :=
  ["GET /api/price"; "GET /api/portfolio/:address";
   "GET /api/signals/:symbol"]%string.

(** The prices of [config.pricing], as the table of paid routes. *)
Definition pricing : list (string * string) :=
  [("GET /api/price", "$0.001"); ("GET /api/portfolio/:address", "$0.005");
   ("GET /api/signals/:symbol", "$0.01")]%string.

(** A path segment: not empty, no [/]. *)
Fixpoint noSlash (s : string) : bool :=
  match s with
  | EmptyString => true
  | String c rest => negb (Ascii.eqb c "/") && noSlash rest
  end.

Definition isSegment (s : string) : bool :=
  negb (String.eqb s "") && noSlash s.

End Paywall.

(** * Properties *)

(** ** Numbers *)

Lemma Qlt_bool_iff (x y : Q) : Qlt_bool x y = true <-> x < y.
Proof.
  unfold Qlt_bool. rewrite negb_true_iff.
  destruct (Qle_bool y x) eqn:E.
  - apply Qle_bool_iff in E. split; [discriminate | intros H; exfalso; lra].
  - split; [intros _ | reflexivity].
    apply Qnot_le_lt. intros H. apply Qle_bool_iff in H. congruence.
Qed.

Lemma Qlt_bool_false_iff (x y : Q) : Qlt_bool x y = false <-> y <= x.
Proof.
  rewrite <- not_true_iff_false, Qlt_bool_iff. split; intros H; lra.
Qed.

Lemma Qle_bool_false_iff (x y : Q) : Qle_bool x y = false <-> y < x.
Proof.
  rewrite <- not_true_iff_false, Qle_bool_iff. split; intros H; lra.
Qed.

Lemma Qeq_bool_false_iff (x y : Q) : Qeq_bool x y = false <-> ~ x == y.
Proof.
  rewrite <- not_true_iff_false, Qeq_bool_iff. tauto.
Qed.

#[global] Instance Qlt_bool_comp : Proper (Qeq ==> Qeq ==> eq) Qlt_bool.
Proof.
  intros x x' Hx y y' Hy. unfold Qlt_bool. now rewrite Hx, Hy.
Qed.

Lemma Qdiv_nonneg (a b : Q) : 0 <= a -> 0 <= b -> 0 <= a / b.
Proof.
  intros Ha Hb. unfold Qdiv. apply Qmult_le_0_compat; [exact Ha|].
  destruct (Qeq_dec b 0) as [E|E].
  - rewrite E. discriminate.
  - apply Qlt_le_weak, Qinv_lt_0_compat. lra.
Qed.

(** Tactic: turn the boolean tests of the embedding into propositions. *)
Ltac qbool :=
  repeat match goal with
  | H : Qlt_bool _ _ = true |- _ => apply Qlt_bool_iff in H
  | H : Qlt_bool _ _ = false |- _ => apply Qlt_bool_false_iff in H
  | H : Qle_bool _ _ = true |- _ => apply Qle_bool_iff in H
  | H : Qle_bool _ _ = false |- _ => apply Qle_bool_false_iff in H
  | H : Qeq_bool _ _ = true |- _ => apply Qeq_bool_iff in H
  | H : Qeq_bool _ _ = false |- _ => apply Qeq_bool_false_iff in H
  end.

(** ** Arrays *)

Lemma fold_plus_acc (l : list Q) (a : Q) :
  fold_left Qplus l a == a + fold_left Qplus l 0.
Proof.
  revert a. induction l as [|x l IH]; intros a; simpl.
  - lra.
  - rewrite (IH (a + x)), (IH (0 + x)). lra.
Qed.

Lemma sum_cons (x : Q) (l : list Q) : Arr.sum (x :: l) == x + Arr.sum l.
Proof.
  unfold Arr.sum, Arr.reduce. simpl. rewrite fold_plus_acc. lra.
Qed.

Lemma sum_app (l1 l2 : list Q) :
  Arr.sum (l1 ++ l2) == Arr.sum l1 + Arr.sum l2.
Proof.
  induction l1 as [|x l1 IH]; simpl.
  - change (Arr.sum []) with 0. lra.
  - rewrite !sum_cons, IH. lra.
Qed.

Lemma sum_nonneg (l : list Q) :
  Forall (fun x => 0 <= x) l -> 0 <= Arr.sum l.
Proof.
  induction 1 as [|x l Hx _ IH].
  - discriminate.
  - rewrite sum_cons. lra.
Qed.

Lemma len_cons {A} (x : A) (l : list A) : Arr.len (x :: l) == 1 + Arr.len l.
Proof.
  unfold Arr.len. cbn [length]. rewrite Nat2Z.inj_succ, <- Z.add_1_l.
  now rewrite inject_Z_plus.
Qed.

Lemma len_app {A} (l1 l2 : list A) :
  Arr.len (l1 ++ l2) == Arr.len l1 + Arr.len l2.
Proof.
  unfold Arr.len. now rewrite length_app, Nat2Z.inj_add, inject_Z_plus.
Qed.

Lemma len_nonneg {A} (l : list A) : 0 <= Arr.len l.
Proof.
  unfold Arr.len. change 0 with (inject_Z 0). rewrite <- Zle_Qle. lia.
Qed.

Lemma length_map_from {A B} (f : A -> nat -> B) (i : nat) (a : list A) :
  length (Arr.map_from f i a) = length a.
Proof.
  revert i. induction a as [|x a IH]; intros i; simpl; [|rewrite IH]; reflexivity.
Qed.

Lemma nth_map_from {A B} (f : A -> nat -> B) (i j : nat) (a : list A) d d' :
  (j < length a)%nat ->
  nth j (Arr.map_from f i a) d' = f (nth j a d) (i + j)%nat.
Proof.
  revert i j. induction a as [|x a IH]; intros i j Hj; simpl in *; [lia|].
  destruct j as [|j].
  - now rewrite Nat.add_0_r.
  - rewrite (IH (S i) j) by lia. f_equal. lia.
Qed.

Lemma length_slice_from {A} (a : list A) (k : Z) :
  (0 <= k)%Z ->
  length (Arr.slice a (- k) None)
  = if (k =? 0)%Z then length a else Nat.min (Z.to_nat k) (length a).
Proof.
  intros Hk. unfold Arr.slice, Arr.rel.
  rewrite length_firstn, length_skipn.
  destruct (k =? 0)%Z eqn:E0; destruct (- k <? 0)%Z eqn:E; lia.
Qed.

Lemma slice_tail {A} (a : list A) : Arr.slice a 1 None = tl a.
Proof.
  unfold Arr.slice, Arr.rel. destruct a as [|x a]; [reflexivity|].
  cbn [length tl]. replace (1 <? 0)%Z with false by reflexivity.
  rewrite Z.min_l by lia. change (Z.to_nat 1) with 1%nat. cbn [skipn].
  rewrite firstn_all2; [reflexivity | lia].
Qed.

(** The last [length l2] elements of [l1 ++ l2]. *)
Lemma slice_suffix {A} (l1 l2 : list A) :
  l2 <> [] ->
  Arr.slice (l1 ++ l2) (- Z.of_nat (length l2)) None = l2.
Proof.
  intros Hne. unfold Arr.slice, Arr.rel.
  assert (0 < length l2)%nat by (destruct l2; [congruence | simpl; lia]).
  rewrite length_app.
  replace (- Z.of_nat (length l2) <? 0)%Z with true by lia.
  rewrite Z.max_l by lia.
  replace (Z.to_nat (Z.of_nat (length l1 + length l2) + - Z.of_nat (length l2)))
    with (length l1 + 0)%nat by lia.
  rewrite skipn_app, Nat.add_0_r, skipn_all, Nat.sub_diag. cbn [skipn app].
  apply firstn_all2. lia.
Qed.

(** ** RSI *)

Lemma length_rsiChanges (prices : list Q) (period : Z) :
  (0 <= period)%Z ->
  (length (rsiChanges prices period) <= Z.to_nat period)%nat.
Proof.
  intros Hp. unfold rsiChanges. rewrite slice_tail. unfold Arr.mapi.
  match goal with
  | |- (length (tl (Arr.map_from ?f 0 ?s)) <= _)%nat =>
      pose proof (length_map_from f 0 s) as L;
      assert (length s <= Z.to_nat (period + 1))%nat as Ls;
      [| destruct (Arr.map_from f 0 s); simpl in *; lia ]
  end.
  replace (- period - 1)%Z with (- (period + 1))%Z by lia.
  rewrite length_slice_from by lia.
  destruct (period + 1 =? 0)%Z eqn:E; lia.
Qed.

Lemma rsiGains_nonneg (prices : list Q) (period : Z) :
  Forall (fun x => 0 <= x) (rsiGains prices period).
Proof.
  unfold rsiGains. apply Forall_forall. intros x Hx.
  apply filter_In in Hx as [_ Hx]. qbool. lra.
Qed.

Lemma rsiLosses_nonneg (prices : list Q) (period : Z) :
  Forall (fun x => 0 <= x) (rsiLosses prices period).
Proof.
  unfold rsiLosses. apply Forall_forall. intros x Hx.
  apply in_map_iff in Hx as (y & <- & _). apply Qabs_nonneg.
Qed.

Lemma avgGain_nonneg (prices : list Q) (period : Z) :
  (0 <= period)%Z -> 0 <= avgGain prices period.
Proof.
  intros Hp. unfold avgGain.
  destruct (0 <? length (rsiGains prices period))%nat; [|lra].
  apply Qdiv_nonneg; [apply sum_nonneg, rsiGains_nonneg|].
  change 0 with (inject_Z 0). now rewrite <- Zle_Qle.
Qed.

Lemma avgLoss_nonneg (prices : list Q) (period : Z) :
  (0 <= period)%Z -> 0 <= avgLoss prices period.
Proof.
  intros Hp. unfold avgLoss.
  destruct (0 <? length (rsiLosses prices period))%nat; [|lra].
  apply Qdiv_nonneg; [apply sum_nonneg, rsiLosses_nonneg|].
  change 0 with (inject_Z 0). now rewrite <- Zle_Qle.
Qed.

(** The divisor [period] is used only when there is a change to average,
    and then it is positive. *)
Lemma rsi_period_positive (prices : list Q) (period : Z) :
  (0 <= period)%Z ->
  rsiGains prices period <> [] \/ rsiLosses prices period <> [] ->
  (0 < period)%Z.
Proof.
  intros Hp H. pose proof (length_rsiChanges prices period Hp) as L.
  assert (rsiChanges prices period <> []) as Hne.
  { intros E. unfold rsiGains, rsiLosses in H. rewrite E in H.
    simpl in H. tauto. }
  destruct (rsiChanges prices period); [congruence | simpl in L; lia].
Qed.

Lemma rsi_formula_range (g l : Q) :
  0 <= g -> 0 < l ->
  0 <= 100 - 100 / (1 + g / l) < 100 /\ ~ 1 + g / l == 0.
Proof.
  intros Hg Hl.
  assert (0 <= g / l) by (apply Qdiv_nonneg; lra).
  set (rs := g / l) in *.
  assert (0 < 100 / (1 + rs)).
  { apply Qlt_shift_div_l; lra. }
  assert (100 / (1 + rs) <= 100).
  { apply Qle_shift_div_r; lra. }
  repeat split; lra.
Qed.

(** The window of [calculateRSI] is the last [period + 1] prices. *)
Lemma slice_lastN {A} (a : list A) (k : Z) :
  (0 < k)%Z -> Arr.slice a (- k) None = Spec.lastN (Z.to_nat k) a.
Proof.
  intros Hk. unfold Arr.slice, Arr.rel, Spec.lastN.
  rewrite firstn_rev, rev_involutive.
  rewrite (proj2 (Z.ltb_lt (- k) 0)) by lia.
  rewrite firstn_all2 by (rewrite length_skipn; lia).
  f_equal. lia.
Qed.

Lemma map_from_deltas (w pre : list Q) (x : Q) (rest : list Q) :
  w = pre ++ x :: rest ->
  Arr.map_from (fun p i => if (i =? 0)%nat then 0 else p - nth (i - 1) w 0)
               (S (length pre)) rest
  = Spec.deltas (x :: rest).
Proof.
  revert pre x. induction rest as [|y rest IH]; intros pre x Hw.
  - reflexivity.
  - cbn [Arr.map_from Spec.deltas Nat.eqb]. f_equal.
    + rewrite Nat.sub_succ, Nat.sub_0_r, Hw. now rewrite nth_middle.
    + replace (S (S (length pre))) with (S (length (pre ++ [x])))
        by (rewrite length_app; cbn [length]; lia).
      apply IH. now rewrite <- app_assoc.
Qed.

(** The [changes] array holds the deltas of the last [period + 1]
    prices. *)
Lemma rsiChanges_deltas (prices : list Q) (period : Z) :
  (0 <= period)%Z ->
  rsiChanges prices period
  = Spec.deltas (Spec.lastN (Z.to_nat (period + 1)) prices).
Proof.
  intros Hp. unfold rsiChanges. rewrite slice_tail.
  replace (- period - 1)%Z with (- (period + 1))%Z by lia.
  rewrite slice_lastN by lia. unfold Arr.mapi.
  destruct (Spec.lastN (Z.to_nat (period + 1)) prices) as [|x rest] eqn:E;
    [reflexivity|].
  cbn [Arr.map_from tl]. now apply (map_from_deltas (x :: rest) [] x rest).
Qed.

Lemma sum_gains (ds : list Q) :
  Arr.sum (filter (fun c => Qlt_bool 0 c) ds) == Spec.total (map Spec.gain ds).
Proof.
  induction ds as [|d ds IH]; [reflexivity|].
  cbn [filter map Spec.total]. unfold Spec.gain at 1.
  destruct (Qlt_bool 0 d) eqn:E; qbool.
  - rewrite sum_cons, IH, Q.max_l by lra. reflexivity.
  - rewrite IH, Q.max_r by lra. lra.
Qed.

Lemma sum_losses (ds : list Q) :
  Arr.sum (map Math_abs (filter (fun c => Qlt_bool c 0) ds))
  == Spec.total (map Spec.loss ds).
Proof.
  induction ds as [|d ds IH]; [reflexivity|].
  cbn [filter map Spec.total]. unfold Spec.loss at 1.
  destruct (Qlt_bool d 0) eqn:E; qbool.
  - cbn [map]. rewrite sum_cons, IH, Q.max_l by lra.
    unfold Math_abs. rewrite Qabs_neg by lra. reflexivity.
  - rewrite IH, Q.max_r by lra. lra.
Qed.

Lemma avgGain_spec (prices : list Q) (period : Z) :
  (0 <= period)%Z -> avgGain prices period == Spec.averageGain prices period.
Proof.
  intros Hp. unfold avgGain, Spec.averageGain, rsiGains.
  rewrite <- sum_gains, <- rsiChanges_deltas by exact Hp.
  destruct (filter _ (rsiChanges prices period)); cbn [length Nat.ltb Nat.leb].
  - unfold Arr.sum, Arr.reduce. cbn [fold_left]. unfold Qdiv. ring.
  - reflexivity.
Qed.

Lemma avgLoss_spec (prices : list Q) (period : Z) :
  (0 <= period)%Z -> avgLoss prices period == Spec.averageLoss prices period.
Proof.
  intros Hp. unfold avgLoss, Spec.averageLoss, rsiLosses.
  rewrite <- sum_losses, <- rsiChanges_deltas by exact Hp.
  destruct (filter _ (rsiChanges prices period));
    cbn [map length Nat.ltb Nat.leb].
  - unfold Arr.sum, Arr.reduce. cbn [fold_left]. unfold Qdiv. ring.
  - reflexivity.
Qed.

(** C5. For a period [>= 0], [calculateRSI] lies in [[0,100]]: it is 50 on
    fewer than [period + 1] prices, 100 when the average loss is zero, and
    [100 - 100 / (1 + avgGain / avgLoss)], which lies in [[0,100)),
    otherwise; no division it performs has a zero divisor.  The averages
    are those of the prices: the gains and the losses among the deltas of
    the last [period + 1] prices, each summed and divided by [period]. *)
Theorem calculateRSI_cases (prices : list Q) (period : Z) :
  (0 <= period)%Z ->
  let rsi := calculateRSI prices period in
  let n := Z.of_nat (length prices) in
  let gain := Spec.averageGain prices period in
  let loss := Spec.averageLoss prices period in
  0 <= rsi <= 100 /\
  ((n < period + 1)%Z -> rsi = 50) /\
  ((period + 1 <= n)%Z -> loss == 0 -> rsi = 100) /\
  ((period + 1 <= n)%Z -> ~ loss == 0 ->
     rsi == 100 - 100 / (1 + gain / loss) /\
     0 <= rsi < 100 /\
     ~ 1 + gain / loss == 0 /\ (0 < period)%Z) /\
  (avgGain prices period == gain /\ avgLoss prices period == loss) /\
  ((period + 1 <= n)%Z -> avgLoss prices period == 0 -> rsi = 100) /\
  ((period + 1 <= n)%Z -> ~ avgLoss prices period == 0 ->
     rsi = 100 - 100 / (1 + avgGain prices period / avgLoss prices period) /\
     0 <= rsi < 100 /\
     ~ 1 + avgGain prices period / avgLoss prices period == 0) /\
  (rsiGains prices period <> [] \/ rsiLosses prices period <> [] ->
     (0 < period)%Z).
Proof.
  intros Hp rsi n gain loss. subst rsi n gain loss.
  pose proof (avgGain_spec prices period Hp) as Eg.
  pose proof (avgLoss_spec prices period Hp) as El.
  pose proof (avgGain_nonneg prices period Hp) as Hg.
  pose proof (avgLoss_nonneg prices period Hp) as Hl.
  pose proof (rsi_period_positive prices period Hp) as Hpos.
  assert (~ avgLoss prices period == 0 -> (0 < period)%Z) as Hper.
  { intros Hne. apply Hpos. right. intros E. apply Hne.
    unfold avgLoss. now rewrite E. }
  unfold calculateRSI.
  destruct (Z.of_nat (length prices) <? period + 1)%Z eqn:Elen.
  - apply Z.ltb_lt in Elen.
    split; [split; discriminate|]. split; [reflexivity|].
    split; [intros; lia|]. split; [intros; lia|].
    split; [split; assumption|]. split; [intros; lia|].
    split; [intros; lia | exact Hpos].
  - apply Z.ltb_ge in Elen.
    destruct (Qeq_bool (avgLoss prices period) 0) eqn:E0; qbool.
    + assert (Spec.averageLoss prices period == 0) as E1
        by (now rewrite <- El).
      split; [split; discriminate|]. split; [intros; lia|].
      split; [reflexivity|]. split; [intros _ Hne; contradiction|].
      split; [split; assumption|]. split; [reflexivity|].
      split; [intros _ Hne; contradiction | exact Hpos].
    + assert (0 < avgLoss prices period) as Hlpos by lra.
      destruct (rsi_formula_range _ _ Hg Hlpos) as [[R1 R2] R3].
      assert (100 - 100 / (1 + avgGain prices period / avgLoss prices period)
              == 100 - 100 / (1 + Spec.averageGain prices period
                                  / Spec.averageLoss prices period)) as Ef
        by (now rewrite Eg, El).
      split; [split; lra|]. split; [intros; lia|].
      split; [intros _ Hz; rewrite <- El in Hz; contradiction|].
      split.
      { intros _ Hne. split; [exact Ef|]. split; [split; lra|].
        split; [now rewrite <- Eg, <- El | apply Hper; lra]. }
      split; [split; assumption|].
      split; [intros _ Hz; contradiction|].
      split; [|exact Hpos].
      intros _ _. split; [reflexivity|]. split; [split; lra | exact R3].
Qed.

(** The period the engine uses, on the scenario of the specification with
    one more point. *)
Lemma calculateRSI_cases_witness :
  (0 <= 14)%Z /\
  0 <= calculateRSI
         [100; 102; 101; 103; 105; 104; 106; 108; 107; 109; 111; 110; 112;
          114; 113] 14 <= 100 /\
  avgLoss [100; 102; 101; 103; 105; 104; 106; 108; 107; 109; 111; 110; 112;
           114; 113] 14
  == Spec.averageLoss
       [100; 102; 101; 103; 105; 104; 106; 108; 107; 109; 111; 110; 112;
        114; 113] 14.
Proof.
  split; [lia|].
  pose proof (calculateRSI_cases
                [100; 102; 101; 103; 105; 104; 106; 108; 107; 109; 111;
                 110; 112; 114; 113] 14 ltac:(lia)) as H.
  cbv zeta in H. destruct H as (R & _ & _ & _ & (_ & El) & _).
  split; [exact R | exact El].
Defined.

(** ** EMA and MACD *)

Lemma emaLoop_fold (k : Q) (rest pre : list Q) (ema : Q) :
  emaLoop (pre ++ rest) k (length rest) (length pre) ema
  = fold_left (Spec.smooth k) rest ema.
Proof.
  revert pre ema. induction rest as [|x rest IH]; intros pre ema.
  - reflexivity.
  - cbn [length emaLoop fold_left].
    rewrite nth_middle.
    replace (pre ++ x :: rest) with ((pre ++ [x]) ++ rest)
      by now rewrite <- app_assoc.
    replace (S (length pre)) with (length (pre ++ [x]))
      by (rewrite length_app; simpl; lia).
    apply IH.
Qed.

Lemma calculateEMA_spec (prices : list Q) (period : Z) :
  calculateEMA prices period = Spec.EMA prices period.
Proof.
  unfold calculateEMA, Spec.EMA. destruct prices as [|seed rest].
  - reflexivity.
  - cbn [length]. rewrite Nat.sub_succ, Nat.sub_0_r.
    change (Arr.read (seed :: rest) 0) with seed.
    apply (emaLoop_fold _ rest [seed]).
Qed.

Lemma slice_allButLast {A} (n : nat) (l : list A) :
  Arr.slice l 0 (Some (- Z.of_nat (S n))%Z) = Spec.allButLast (S n) l.
Proof.
  unfold Arr.slice, Spec.allButLast, Arr.rel.
  rewrite skipn_rev, rev_involutive.
  rewrite (proj2 (Z.ltb_lt (- Z.of_nat (S n)) 0)) by lia.
  replace (0 <? 0)%Z with false by reflexivity.
  rewrite Z.min_l by lia. cbn [Z.to_nat skipn]. f_equal. lia.
Qed.

Lemma macd_line_spec (prices : list Q) :
  macd (calculateMACD prices) = Spec.EMA prices 12 - Spec.EMA prices 26.
Proof.
  unfold calculateMACD. cbn [macd]. now rewrite !calculateEMA_spec.
Qed.

Lemma signal_line_spec (prices : list Q) :
  macd_signal (calculateMACD prices)
  = Spec.EMA (Spec.allButLast 9 prices ++ [macd (calculateMACD prices)]) 9.
Proof.
  unfold calculateMACD. cbn [macd macd_signal].
  rewrite calculateEMA_spec.
  change (-9)%Z with (- Z.of_nat 9)%Z. now rewrite slice_allButLast.
Qed.

(** C6. The MACD triple: [macd] is the 12-period EMA minus the 26-period
    EMA, [signal] is the 9-period EMA of all but the last 9 prices followed
    by the [macd] value, and [histogram] is [macd - signal]. *)
Theorem calculateMACD_spec (prices : list Q) :
  let m := calculateMACD prices in
  macd m = Spec.EMA prices 12 - Spec.EMA prices 26 /\
  macd_signal m = Spec.EMA (Spec.allButLast 9 prices ++ [macd m]) 9 /\
  histogram m = macd m - macd_signal m.
Proof.
  intros m. split; [apply macd_line_spec|].
  split; [apply signal_line_spec | reflexivity].
Qed.

Lemma macdToSignal_neutral_iff (m : MACD) :
  histogram m == macd m - macd_signal m ->
  (macdToSignal m = neutral <-> histogram m == 0).
Proof.
  intros Hh. unfold macdToSignal.
  destruct (Qlt_bool 0 (histogram m)) eqn:E1;
    destruct (Qlt_bool (macd_signal m) (macd m)) eqn:E2;
    destruct (Qlt_bool (histogram m) 0) eqn:E3;
    destruct (Qlt_bool (macd m) (macd_signal m)) eqn:E4;
    destruct (Qlt_bool 0.01 (histogram m));
    destruct (Qlt_bool (histogram m) (-0.01));
    cbn [andb]; qbool.
  all: split; intros H; try discriminate H; try reflexivity; lra.
Qed.

(** C10. On the triple [calculateMACD] returns, each conjunct of the MACD
    classifier implies the other (positive histogram iff macd above signal,
    negative histogram iff macd below signal), so the classification is
    [neutral] exactly when the histogram is zero. *)
Theorem macd_classifier_conjuncts (prices : list Q) :
  let m := calculateMACD prices in
  (0 < histogram m <-> macd_signal m < macd m) /\
  (histogram m < 0 <-> macd m < macd_signal m) /\
  (macdToSignal m = neutral <-> histogram m == 0).
Proof.
  intros m.
  assert (Hh : histogram m = macd m - macd_signal m) by reflexivity.
  split; [|split].
  - rewrite Hh. split; intros H; lra.
  - rewrite Hh. split; intros H; lra.
  - apply macdToSignal_neutral_iff. now rewrite Hh.
Qed.

(** ** Sorting, support and resistance *)

Lemma insert_perm (cmp : Q -> Q -> Q) (x : Q) (l : list Q) :
  Permutation (Arr.insert cmp x l) (x :: l).
Proof.
  induction l as [|y l IH]; simpl.
  - apply Permutation_refl.
  - destruct (Qlt_bool (cmp x y) 0).
    + apply Permutation_refl.
    + eapply perm_trans; [apply perm_skip, IH | apply perm_swap].
Qed.

Lemma sort_acc_perm (cmp : Q -> Q -> Q) (a acc : list Q) :
  Permutation (fold_left (fun s x => Arr.insert cmp x s) a acc) (acc ++ a).
Proof.
  revert acc. induction a as [|x a IH]; intros acc; simpl.
  - now rewrite app_nil_r.
  - eapply perm_trans; [apply IH|].
    eapply perm_trans; [apply Permutation_app_tail, insert_perm|].
    simpl. apply Permutation_middle.
Qed.

Lemma sort_perm (cmp : Q -> Q -> Q) (a : list Q) :
  Permutation (Arr.sort cmp a) a.
Proof. apply (sort_acc_perm cmp a []). Qed.

Lemma insert_hdrel (x y : Q) (l : list Q) :
  y <= x -> HdRel Qle y l -> HdRel Qle y (Arr.insert ascending x l).
Proof.
  intros Hyx H. destruct l as [|z l]; simpl.
  - now constructor.
  - destruct (Qlt_bool (ascending x z) 0); constructor; [exact Hyx|].
    now inversion H.
Qed.

Lemma insert_sorted (x : Q) (l : list Q) :
  Sorted Qle l -> Sorted Qle (Arr.insert ascending x l).
Proof.
  induction 1 as [|y l Hs IH Hd]; simpl.
  - repeat constructor.
  - destruct (Qlt_bool (ascending x y) 0) eqn:E; qbool; unfold ascending in E.
    + constructor; [now constructor|]. constructor. lra.
    + constructor; [exact IH|]. apply insert_hdrel; [lra | exact Hd].
Qed.

Lemma sort_acc_sorted (a acc : list Q) :
  Sorted Qle acc ->
  Sorted Qle (fold_left (fun s x => Arr.insert ascending x s) a acc).
Proof.
  revert acc. induction a as [|x a IH]; intros acc Hs; simpl.
  - exact Hs.
  - apply IH, insert_sorted, Hs.
Qed.

Lemma sort_sorted (a : list Q) : Sorted Qle (Arr.sort ascending a).
Proof. apply sort_acc_sorted. constructor. Qed.

Lemma floor_tenth (n : Z) : Math_floor (inject_Z n * 0.1) = (n / 10)%Z.
Proof.
  unfold Math_floor, Qfloor, Qmult, inject_Z. cbn [Qnum Qden].
  now rewrite Z.mul_1_r.
Qed.

Lemma floor_nine_tenths (n : Z) :
  Math_floor (inject_Z n * 0.9) = (n * 9 / 10)%Z.
Proof.
  unfold Math_floor, Qfloor, Qmult, inject_Z. now cbn [Qnum Qden].
Qed.

Lemma get_read (a : list Q) (i : Z) :
  (0 <= i < Z.of_nat (length a))%Z -> Arr.get a i = Some (Arr.read a i).
Proof.
  intros Hi. unfold Arr.read, Arr.get.
  rewrite (proj2 (Z.ltb_ge i 0)) by lia.
  destruct (nth_error a (Z.to_nat i)) eqn:E; [reflexivity|].
  apply nth_error_None in E. lia.
Qed.

Lemma length_sort (cmp : Q -> Q -> Q) (a : list Q) :
  length (Arr.sort cmp a) = length a.
Proof. apply Permutation_length, sort_perm. Qed.

Lemma calculateSupportResistance_get (prices : list Q) :
  prices <> [] ->
  let sorted := Arr.sort ascending prices in
  let n := inject_Z (Z.of_nat (length prices)) in
  Arr.get sorted (Math_floor (0.1 * n))
    = Some (support (calculateSupportResistance prices)) /\
  Arr.get sorted (Math_floor (0.9 * n))
    = Some (resistance (calculateSupportResistance prices)).
Proof.
  intros Hne sorted n. subst sorted n.
  assert (0 < Z.of_nat (length prices))%Z as Hn
    by (destruct prices; [congruence | cbn [length]; lia]).
  unfold calculateSupportResistance. cbn [support resistance].
  unfold Arr.len. rewrite length_sort.
  assert (E1 : Math_floor (0.1 * inject_Z (Z.of_nat (length prices)))
               = Math_floor (inject_Z (Z.of_nat (length prices)) * 0.1))
    by (unfold Math_floor; apply Qfloor_comp; ring).
  assert (E9 : Math_floor (0.9 * inject_Z (Z.of_nat (length prices)))
               = Math_floor (inject_Z (Z.of_nat (length prices)) * 0.9))
    by (unfold Math_floor; apply Qfloor_comp; ring).
  rewrite E1, E9, floor_tenth, floor_nine_tenths.
  split; apply get_read; rewrite length_sort;
    Z.div_mod_to_equations; lia.
Qed.

(** ** Variance and confidence *)

Lemma sum_total (l : list Q) : Arr.sum l == Spec.total l.
Proof.
  induction l as [|x l IH]; [reflexivity|].
  rewrite sum_cons, IH. reflexivity.
Qed.

Lemma fold_sq_total (f : Q -> Q) (l : list Q) (a : Q) :
  fold_left (fun sum v => sum + f v) l a == a + Spec.total (map f l).
Proof.
  revert a. induction l as [|x l IH]; intros a; simpl.
  - lra.
  - rewrite IH. lra.
Qed.

Lemma total_ext (f g : Q -> Q) (l : list Q) :
  (forall v, f v == g v) ->
  Spec.total (map f l) == Spec.total (map g l).
Proof.
  intros H. induction l as [|x l IH]; simpl; [reflexivity|].
  now rewrite IH, H.
Qed.

Lemma mean_spec (l : list Q) : Arr.sum l / Arr.len l == Spec.mean l.
Proof. unfold Spec.mean, Arr.len. now rewrite sum_total. Qed.

Lemma calculateVariance_spec (values : list Q) :
  calculateVariance values == Spec.variance values.
Proof.
  unfold calculateVariance, Spec.variance, Arr.reduce, Math_pow2.
  unfold Spec.mean at 1. rewrite length_map.
  rewrite (fold_sq_total
             (fun v => (v - Arr.sum values / Arr.len values)
                       * (v - Arr.sum values / Arr.len values))).
  rewrite (total_ext _ (fun v => (v - Spec.mean values) * (v - Spec.mean values))).
  - unfold Arr.len, Qdiv. ring.
  - intros v. now rewrite mean_spec.
Qed.

Lemma square_nonneg (x : Q) : 0 <= x * x.
Proof.
  destruct (Qlt_le_dec x 0) as [H|H].
  - setoid_replace (x * x) with ((- x) * (- x)) by ring.
    apply Qmult_le_0_compat; lra.
  - now apply Qmult_le_0_compat.
Qed.

Lemma total_sq_nonneg (m : Q) (l : list Q) :
  0 <= Spec.total (map (fun v => (v - m) * (v - m)) l).
Proof.
  induction l as [|x l IH]; simpl; [discriminate|].
  pose proof (square_nonneg (x - m)). lra.
Qed.

Lemma variance_nonneg (l : list Q) : 0 <= Spec.variance l.
Proof.
  unfold Spec.variance, Spec.mean at 1.
  apply Qdiv_nonneg; [apply total_sq_nonneg|].
  change 0 with (inject_Z 0). rewrite <- Zle_Qle. lia.
Qed.

Lemma clamp_spec (x : Q) :
  Math_max 0 (Math_min 100 x) == Spec.clamp x 0 100.
Proof.
  unfold Math_max, Math_min, Spec.clamp.
  destruct (Qlt_bool x 100) eqn:E1; destruct (Qlt_bool x 0) eqn:E2;
    destruct (Qlt_bool 100 x) eqn:E3; try destruct (Qlt_bool 0 x) eqn:E4;
    try destruct (Qlt_bool 0 100) eqn:E5;
    qbool; try reflexivity; try lra.
Qed.

Lemma clamp_range (x lo hi : Q) : lo <= hi -> lo <= Spec.clamp x lo hi <= hi.
Proof.
  intros H. unfold Spec.clamp.
  destruct (Qlt_bool x lo) eqn:E1; [|destruct (Qlt_bool hi x) eqn:E2];
    qbool; lra.
Qed.

#[global] Instance clamp_comp : Proper (Qeq ==> Qeq ==> Qeq ==> Qeq) Spec.clamp.
Proof.
  intros x x' Hx lo lo' Hlo hi hi' Hhi. unfold Spec.clamp.
  rewrite (Qlt_bool_comp x x' Hx lo lo' Hlo), (Qlt_bool_comp hi hi' Hhi x x' Hx).
  destruct (Qlt_bool x' lo'); [exact Hlo|].
  destruct (Qlt_bool hi' x'); assumption.
Qed.

Lemma Math_round_comp (x y : Q) : x == y -> Math_round x = Math_round y.
Proof. intros H. unfold Math_round. apply Qfloor_comp. now rewrite H. Qed.

(** [Math.round] returns a nearest integer. *)
Lemma Math_round_nearest (x : Q) :
  Qabs (inject_Z (Math_round x) - x) <= 1 # 2.
Proof.
  unfold Math_round.
  pose proof (Qfloor_le (x + (1 # 2))) as H1.
  pose proof (Qlt_floor (x + (1 # 2))) as H2.
  rewrite inject_Z_plus in H2. change (inject_Z 1) with 1 in H2.
  apply Qabs_Qle_condition. split; lra.
Qed.

Lemma Math_round_range (x : Q) (a b : Z) :
  inject_Z a <= x <= inject_Z b -> (a <= Math_round x <= b)%Z.
Proof.
  intros [Ha Hb]. unfold Math_round.
  split.
  - rewrite <- (Qfloor_Z a). apply Qfloor_resp_le. lra.
  - pose proof (Qfloor_le (x + (1 # 2))) as H1.
    assert (inject_Z (Qfloor (x + (1 # 2))) < inject_Z (b + 1)) as H.
    { rewrite inject_Z_plus. change (inject_Z 1) with 1. lra. }
    rewrite <- Zlt_Qlt in H. lia.
Qed.

(** ** The engine: validation, determinism, confidence, levels *)

(** Enter [generateTradingSignals] on a series that passes the check. *)
Ltac enter_engine H :=
  unfold generateTradingSignals;
  rewrite (proj2 (Nat.ltb_ge _ 14) H);
  cbv zeta.

(** C4. The engine throws [InsufficientHistory] exactly when the series has
    fewer than 14 points and returns a report exactly when it has at least
    14; in particular 13 points are rejected and 14 accepted. *)
Theorem insufficient_history_iff
    (toUpperCase : string -> string) (numberToString : Q -> string)
    (now symbol : string) (priceHistory : list PriceData) :
  let out :=
    generateTradingSignals toUpperCase numberToString now symbol priceHistory in
  (out = Throw InsufficientHistory <-> (length priceHistory < 14)%nat) /\
  ((exists r, out = Return r) <-> (14 <= length priceHistory)%nat) /\
  (length priceHistory = 13%nat -> out = Throw InsufficientHistory) /\
  (length priceHistory = 14%nat -> exists r, out = Return r).
Proof.
  intros out. subst out. unfold generateTradingSignals.
  destruct (length priceHistory <? 14)%nat eqn:E.
  - apply Nat.ltb_lt in E. repeat split; try lia; try reflexivity.
    intros [r Hr]. discriminate Hr.
  - apply Nat.ltb_ge in E. cbv zeta. repeat split; try lia.
    + intros H. discriminate H.
    + intros _. eexists. reflexivity.
    + intros _. eexists. reflexivity.
Qed.

Example rejects_13_points :
  Sample.run "2026-01-01T00:00:00.000Z" "btc" Sample.tooShort
  = Throw InsufficientHistory.
Proof. reflexivity. Qed.

Example accepts_14_points :
  exists r, Sample.run "2026-01-01T00:00:00.000Z" "btc" Sample.scenario
            = Return r
            /\ confidence r == 76 /\ overallSignal r = neutral.
Proof. eexists. split; [vm_compute; reflexivity|]. split; reflexivity. Qed.

(** C2, as the code has it. Two runs on the same symbol and series end the
    same way; two reports agree in every field but [generatedAt], which is
    each run's clock reading (and so the reports are equal when the clock
    readings are). *)
Theorem report_deterministic_up_to_clock
    (toUpperCase : string -> string) (numberToString : Q -> string)
    (now1 now2 symbol : string) (priceHistory : list PriceData) :
  match
    generateTradingSignals toUpperCase numberToString now1 symbol priceHistory,
    generateTradingSignals toUpperCase numberToString now2 symbol priceHistory
  with
  | Return r1, Return r2 =>
      r2 = stampedAt now2 r1 /\ generatedAt r1 = now1 /\ generatedAt r2 = now2
  | Throw e1, Throw e2 => e1 = e2
  | _, _ => False
  end.
Proof.
  unfold generateTradingSignals.
  destruct (length priceHistory <? 14)%nat; [reflexivity|].
  cbv zeta. split; [reflexivity|]. split; reflexivity.
Qed.

(** C2 as stated fails: the same series analysed at two instants gives
    reports that differ (in [generatedAt]). *)
Lemma report_not_byte_identical :
  Sample.run "2026-01-01T00:00:00.000Z" "btc" Sample.scenario
  <> Sample.run "2026-01-01T00:00:00.001Z" "btc" Sample.scenario.
Proof.
  intros H.
  assert (E : forall a b : result TradingSignal, a = b ->
              match a, b with
              | Return ra, Return rb => generatedAt ra = generatedAt rb
              | _, _ => True
              end) by (intros a b ->; destruct b; reflexivity).
  apply E in H. vm_compute in H. discriminate H.
Qed.

(** C7. On a valid series the report's confidence is
    [clamp(100 - variance(scores) * 20, 0, 100)] rounded to a nearest
    integer, an integer between 0 and 100. *)
Theorem confidence_spec
    (toUpperCase : string -> string) (numberToString : Q -> string)
    (now symbol : string) (priceHistory : list PriceData) :
  (14 <= length priceHistory)%nat ->
  exists r,
    generateTradingSignals toUpperCase numberToString now symbol priceHistory
    = Return r /\
    let c := Spec.clamp (100 - Spec.variance (indicatorScores r) * 20) 0 100 in
    confidence r = inject_Z (Math_round c) /\
    Qabs (confidence r - c) <= 1 # 2 /\
    (0 <= Math_round c <= 100)%Z.
Proof.
  intros Hlen. enter_engine Hlen.
  eexists. split; [reflexivity|].
  unfold indicatorScores. cbn [confidence indicators].
  match goal with
  | |- inject_Z (Math_round ?x) = inject_Z (Math_round ?c) /\ _ =>
      assert (E : Math_round x = Math_round c)
  end.
  { apply Math_round_comp.
    rewrite clamp_spec, calculateVariance_spec. reflexivity. }
  rewrite E. split; [reflexivity|]. split.
  - apply Math_round_nearest.
  - apply Math_round_range. apply (clamp_range _ 0 100). discriminate.
Qed.

Lemma confidence_spec_witness :
  exists r,
    Sample.run "2026-01-01T00:00:00.000Z" "btc" Sample.scenario = Return r /\
    confidence r
    = inject_Z (Math_round
        (Spec.clamp (100 - Spec.variance (indicatorScores r) * 20) 0 100)).
Proof.
  destruct (confidence_spec Runtime.toUpperCase Runtime.numberToString
              "2026-01-01T00:00:00.000Z" "btc" Sample.scenario)
    as (r & Hr & Hc & _).
  - simpl. lia.
  - exists r. split; [exact Hr | exact Hc].
Defined.

(** C8. On a valid series of [n] prices the support level is the element at
    index [floor(0.1 * n)] of the prices sorted ascending, and the
    resistance level the element at index [floor(0.9 * n)]. *)
Theorem support_resistance_percentiles
    (toUpperCase : string -> string) (numberToString : Q -> string)
    (now symbol : string) (priceHistory : list PriceData) :
  (14 <= length priceHistory)%nat ->
  exists r sorted,
    generateTradingSignals toUpperCase numberToString now symbol priceHistory
    = Return r /\
    Permutation sorted (map price priceHistory) /\
    Sorted Qle sorted /\
    let n := inject_Z (Z.of_nat (length priceHistory)) in
    Arr.get sorted (Math_floor (0.1 * n)) = Some (supportLevel r) /\
    Arr.get sorted (Math_floor (0.9 * n)) = Some (resistanceLevel r).
Proof.
  intros Hlen. enter_engine Hlen.
  eexists. exists (Arr.sort ascending (map price priceHistory)).
  split; [reflexivity|].
  split; [apply sort_perm|]. split; [apply sort_sorted|].
  cbn [supportLevel resistanceLevel].
  rewrite <- (length_map price priceHistory).
  apply calculateSupportResistance_get.
  destruct priceHistory; [simpl in Hlen; lia | discriminate].
Qed.

Lemma support_resistance_percentiles_witness :
  exists r sorted,
    Sample.run "2026-01-01T00:00:00.000Z" "btc" Sample.scenario = Return r /\
    Permutation sorted (map price Sample.scenario) /\
    Sorted Qle sorted /\
    Arr.get sorted 1 = Some (supportLevel r) /\
    Arr.get sorted 12 = Some (resistanceLevel r).
Proof.
  destruct (support_resistance_percentiles
              Runtime.toUpperCase Runtime.numberToString
              "2026-01-01T00:00:00.000Z" "btc" Sample.scenario)
    as (r & sorted & Hr & Hp & Hs & H1 & H9).
  - simpl. lia.
  - exists r, sorted. repeat split; assumption.
Defined.

(** ** What the report holds *)

Lemma read_map_price (ph : list PriceData) (i : Z) :
  match Arr.get ph i with Some p => price p | None => 0 end
  = Arr.read (map price ph) i.
Proof.
  unfold Arr.read, Arr.get. destruct (i <? 0)%Z; [reflexivity|].
  rewrite nth_error_map. now destruct (nth_error ph (Z.to_nat i)).
Qed.

Lemma report_shape
    (toUpperCase : string -> string) (numberToString : Q -> string)
    (now symbol : string) (priceHistory : list PriceData) (r : TradingSignal) :
  generateTradingSignals toUpperCase numberToString now symbol priceHistory
  = Return r ->
  let prices := map price priceHistory in
  let sma20 := calculateSMA prices 20 in
  let sma50 := calculateSMA prices (Z.min 50 (Z.of_nat (length prices))) in
  (14 <= length priceHistory)%nat /\
  currentPrice r = Arr.read prices (Z.of_nat (length prices) - 1) /\
  (exists i, indicatorNamed "RSI (14)" r = Some i /\
             value i = calculateRSI prices 14) /\
  (exists i, indicatorNamed "SMA 20" r = Some i /\ value i = sma20 /\
             signal i = if Qlt_bool sma20 (currentPrice r) then buy else sell) /\
  (exists i, indicatorNamed "SMA 50" r = Some i /\ value i = sma50 /\
             signal i = if Qlt_bool sma50 (currentPrice r) then buy else sell) /\
  (exists i, indicatorNamed "MACD" r = Some i /\
             value i = histogram (calculateMACD prices) /\
             signal i = macdToSignal (calculateMACD prices)) /\
  trend r = determineTrend prices sma20 sma50 /\
  volatility r = calculateVolatility prices.
Proof.
  unfold generateTradingSignals.
  destruct (length priceHistory <? 14)%nat eqn:E; [discriminate|].
  apply Nat.ltb_ge in E. cbv zeta. intros H. injection H as <-.
  cbn [currentPrice trend volatility].
  rewrite read_map_price, length_map.
  split; [exact E|]. split; [reflexivity|].
  unfold indicatorNamed. cbn [indicators app find name String.eqb Ascii.eqb Bool.eqb].
  repeat split; eexists; repeat split.
Qed.

(** ** Changes between consecutive prices *)

Lemma In_tl_nth {A} (x d : A) (l : list A) :
  In x (tl l) -> exists j, (S j < length l)%nat /\ x = nth (S j) l d.
Proof.
  destruct l as [|y l]; simpl; [tauto|].
  intros H. apply (In_nth _ _ d) in H as (j & Hj & <-).
  exists j. split; [lia | reflexivity].
Qed.

(** Every entry of [changes] is the difference of two consecutive prices of
    the slice. *)
Lemma rsiChanges_In (prices : list Q) (period : Z) (x : Q) :
  In x (rsiChanges prices period) ->
  exists j,
    (S j < length (Arr.slice prices (- period - 1) None))%nat /\
    x = nth (S j) (Arr.slice prices (- period - 1) None) 0
        - nth j (Arr.slice prices (- period - 1) None) 0.
Proof.
  unfold rsiChanges. rewrite slice_tail. unfold Arr.mapi. intros H.
  apply (In_tl_nth _ 0) in H as (j & Hj & ->).
  rewrite length_map_from in Hj. exists j. split; [exact Hj|].
  rewrite (nth_map_from _ 0 (S j) _ 0 0) by exact Hj.
  cbn [Nat.add Nat.eqb]. now replace (S j - 1)%nat with j by lia.
Qed.

(** A slice from a relative start to the end is a suffix. *)
Lemma slice_from_skipn {A} (a : list A) (start : Z) :
  Arr.slice a start None
  = skipn (Z.to_nat (Arr.rel (Z.of_nat (length a)) start)) a.
Proof.
  unfold Arr.slice. apply firstn_all2. rewrite length_skipn. lia.
Qed.

Lemma length_skipn_slice {A} (a : list A) (start : Z) :
  length (Arr.slice a start None)
  = (length a - Z.to_nat (Arr.rel (Z.of_nat (length a)) start))%nat.
Proof. rewrite slice_from_skipn. apply length_skipn. Qed.

Lemma nth_slice_from (a : list Q) (start : Z) (j : nat) :
  nth j (Arr.slice a start None) 0
  = nth (Z.to_nat (Arr.rel (Z.of_nat (length a)) start) + j) a 0.
Proof. rewrite slice_from_skipn. apply nth_skipn. Qed.

Lemma filter_none {A} (f : A -> bool) (l : list A) :
  (forall x, In x l -> f x = false) -> filter f l = [].
Proof.
  induction l as [|x l IH]; intros H; simpl; [reflexivity|].
  rewrite (H x (or_introl eq_refl)). apply IH. intros y Hy. apply H. now right.
Qed.

(** No falling change, no loss: the RSI is 100. *)
Lemma calculateRSI_no_loss (prices : list Q) (period : Z) :
  (period + 1 <= Z.of_nat (length prices))%Z ->
  (forall x, In x (rsiChanges prices period) -> 0 <= x) ->
  calculateRSI prices period = 100.
Proof.
  intros Hlen Hch. unfold calculateRSI.
  rewrite (proj2 (Z.ltb_ge _ _)) by exact Hlen.
  unfold avgLoss, rsiLosses.
  rewrite filter_none; [reflexivity|].
  intros x Hx. apply Qlt_bool_false_iff. now apply Hch.
Qed.

(** ** Flat series *)

Lemma In_firstn {A} (n : nat) (l : list A) (x : A) :
  In x (firstn n l) -> In x l.
Proof.
  intros H. rewrite <- (firstn_skipn n l). apply in_or_app. now left.
Qed.

Lemma In_skipn {A} (n : nat) (l : list A) (x : A) :
  In x (skipn n l) -> In x l.
Proof.
  intros H. rewrite <- (firstn_skipn n l). apply in_or_app. now right.
Qed.

Lemma In_slice {A} (a : list A) (start : Z) (stop : option Z) (x : A) :
  In x (Arr.slice a start stop) -> In x a.
Proof.
  unfold Arr.slice. intros H.
  apply In_firstn in H. now apply In_skipn in H.
Qed.

Lemma In_map_from {A B} (f : A -> nat -> B) (i : nat) (a : list A) (y : B) (d : A) :
  In y (Arr.map_from f i a) ->
  exists j, (j < length a)%nat /\ y = f (nth j a d) (i + j)%nat.
Proof.
  intros H. apply (In_nth _ _ y) in H as (j & Hj & <-).
  rewrite length_map_from in Hj. exists j. split; [exact Hj|].
  now apply nth_map_from.
Qed.

Section Flat.

Variable c : Q.
Variable prices : list Q.
Hypothesis flat : forall x, In x prices -> x = c.

Lemma flat_nth (l : list Q) (j : nat) :
  (forall x, In x l -> In x prices) -> (j < length l)%nat -> nth j l 0 = c.
Proof. intros Hl Hj. apply flat, Hl, nth_In, Hj. Qed.

Lemma flat_rsi_15 :
  (15 <= length prices)%nat -> calculateRSI prices 14 = 100.
Proof.
  intros Hlen. apply calculateRSI_no_loss; [lia|].
  intros x Hx. apply rsiChanges_In in Hx as (j & Hj & ->).
  assert (Hs : forall start y, In y (Arr.slice prices start None) ->
                               In y prices) by (intros s y; apply In_slice).
  rewrite (flat_nth _ (S j) (Hs _)), (flat_nth _ j (Hs _)) by lia. lra.
Qed.

Lemma flat_rsi_14 : length prices = 14%nat -> calculateRSI prices 14 = 50.
Proof. intros Hlen. unfold calculateRSI. now rewrite Hlen. Qed.

Lemma flat_fold_smooth (k : Q) (l : list Q) (ema : Q) :
  (forall x, In x l -> x = c) -> ema == c ->
  fold_left (Spec.smooth k) l ema == c.
Proof.
  revert ema. induction l as [|x l IH]; intros ema Hl He; simpl.
  - exact He.
  - apply IH; [intros y Hy; apply Hl; now right|].
    rewrite (Hl x (or_introl eq_refl)). unfold Spec.smooth. rewrite He. ring.
Qed.

Lemma flat_EMA (period : Z) : prices <> [] -> Spec.EMA prices period == c.
Proof.
  intros Hne. unfold Spec.EMA. destruct prices as [|seed rest] eqn:E.
  - congruence.
  - apply flat_fold_smooth.
    + intros x Hx. apply flat. now right.
    + rewrite (flat seed (or_introl eq_refl)). reflexivity.
Qed.

Lemma flat_macd :
  (10 <= length prices)%nat ->
  let m := calculateMACD prices in
  macd m == 0 /\ macd_signal m == (4 # 5) * c /\ histogram m == - (4 # 5) * c.
Proof.
  intros Hlen m.
  pose proof (macd_line_spec prices) as Hm.
  pose proof (signal_line_spec prices) as Hs.
  assert (Hh : histogram m = macd m - macd_signal m) by reflexivity.
  fold m in Hm, Hs.
  assert (prices <> []) as Hne by (intros E; rewrite E in Hlen; simpl in Hlen; lia).
  assert (M0 : macd m == 0).
  { rewrite Hm, !flat_EMA by exact Hne. ring. }
  assert (S0 : macd_signal m == (4 # 5) * c).
  { rewrite Hs. unfold Spec.allButLast. rewrite skipn_rev, rev_involutive.
    destruct (firstn (length prices - 9) prices) as [|seed rest] eqn:E.
    - apply (f_equal (@length Q)) in E. rewrite length_firstn in E.
      simpl in E. lia.
    - assert (forall x, In x (seed :: rest) -> x = c) as Hf.
      { intros x Hx. apply flat. rewrite <- E in Hx.
        now apply In_firstn in Hx. }
      cbn [app Spec.EMA]. rewrite fold_left_app. cbn [fold_left].
      unfold Spec.smooth at 1.
      rewrite flat_fold_smooth.
      + rewrite M0. change (2 / inject_Z (9 + 1)) with (2 / 10). field.
      + intros x Hx. apply Hf. now right.
      + rewrite (Hf seed (or_introl eq_refl)). reflexivity. }
  split; [exact M0|]. split; [exact S0|].
  rewrite Hh, M0, S0. ring.
Qed.

End Flat.

Lemma total_zero (l : list Q) :
  (forall x, In x l -> x == 0) -> Spec.total l == 0.
Proof.
  induction l as [|x l IH]; intros H; simpl; [reflexivity|].
  rewrite (H x (or_introl eq_refl)), IH; [ring|].
  intros y Hy. apply H. now right.
Qed.

Lemma variance_zero (l : list Q) :
  (forall x, In x l -> x == 0) -> calculateVariance l == 0.
Proof.
  intros H. rewrite calculateVariance_spec. unfold Spec.variance.
  assert (M : Spec.mean l == 0).
  { unfold Spec.mean. rewrite total_zero by exact H. unfold Qdiv. ring. }
  unfold Spec.mean at 1. rewrite total_zero; [unfold Qdiv; ring|].
  intros y Hy. apply in_map_iff in Hy as (v & <- & Hv).
  rewrite (H v Hv), M. ring.
Qed.

Lemma volatility_low_of_zero_variance (prices : list Q) :
  (forall x,
     In x (Arr.mapi (fun p i _ => (p - nth i prices 0) / nth i prices 0)
                    (Arr.slice prices 1 None)) -> x == 0) ->
  calculateVolatility prices = low.
Proof.
  intros H. unfold calculateVolatility, sqrt_scaled_lt.
  match goal with
  | |- (if Qlt_bool (?v * ?s) ?b then _ else _) = _ =>
      assert (E : v * s == 0 * s)
        by (rewrite (variance_zero _ H); reflexivity);
      rewrite (Qlt_bool_comp _ _ E _ _ (Qeq_refl b))
  end.
  reflexivity.
Qed.

Lemma flat_volatility (c : Q) (prices : list Q) :
  (forall x, In x prices -> x = c) -> calculateVolatility prices = low.
Proof.
  intros flat. apply volatility_low_of_zero_variance.
  intros x Hx. unfold Arr.mapi in Hx. rewrite slice_tail in Hx.
  apply (In_map_from _ _ _ _ 0) in Hx as (j & Hj & ->). cbn [Nat.add].
  assert (length (tl prices) = length prices - 1)%nat as Ht
    by (destruct prices; simpl; lia).
  rewrite (flat_nth c prices flat (tl prices) j), (flat_nth c prices flat prices j);
    try lia; try tauto.
  - unfold Qdiv. ring.
  - intros y Hy. destruct prices; [contradiction | now right].
Qed.

Lemma valid_series_returns
    (toUpperCase : string -> string) (numberToString : Q -> string)
    (now symbol : string) (priceHistory : list PriceData) :
  (14 <= length priceHistory)%nat ->
  exists r,
    generateTradingSignals toUpperCase numberToString now symbol priceHistory
    = Return r.
Proof. intros H. enter_engine H. eexists. reflexivity. Qed.

Lemma flat_prices (c : Q) (priceHistory : list PriceData) :
  Forall (fun p => price p = c) priceHistory ->
  forall x, In x (map price priceHistory) -> x = c.
Proof.
  intros H x Hx. apply in_map_iff in Hx as (p & <- & Hp).
  rewrite Forall_forall in H. now apply H.
Qed.

(** C1, as the code has it. On a flat series at a non-zero price [c] with at
    least 14 points, the RSI is 50 on exactly 14 points and 100 on more (no
    loss), the volatility is [low], and the MACD histogram is [-0.8 * c]
    (not zero): the signal line smooths the price [c] with the MACD value
    0. *)
Theorem flat_series_report
    (toUpperCase : string -> string) (numberToString : Q -> string)
    (now symbol : string) (priceHistory : list PriceData) (c : Q) :
  ~ c == 0 ->
  (14 <= length priceHistory)%nat ->
  Forall (fun p => price p = c) priceHistory ->
  exists r rsi m,
    generateTradingSignals toUpperCase numberToString now symbol priceHistory
    = Return r /\
    indicatorNamed "RSI (14)" r = Some rsi /\
    value rsi = (if (length priceHistory =? 14)%nat then 50 else 100) /\
    volatility r = low /\
    indicatorNamed "MACD" r = Some m /\
    value m == - (4 # 5) * c /\
    ~ value m == 0.
Proof.
  intros Hc Hlen Hflat.
  destruct (valid_series_returns toUpperCase numberToString now symbol
              priceHistory Hlen) as [r Hr].
  destruct (report_shape _ _ _ _ _ _ Hr)
    as (_ & _ & (rsi & Hrsi & Vrsi) & _ & _ & (m & Hm & Vm & _) & _ & Hvol).
  pose proof (flat_prices c priceHistory Hflat) as flat.
  assert (length (map price priceHistory) = length priceHistory) as Lm
    by apply length_map.
  exists r, rsi, m. split; [exact Hr|]. split; [exact Hrsi|]. split.
  { rewrite Vrsi. destruct (length priceHistory =? 14)%nat eqn:E.
    - apply Nat.eqb_eq in E. apply (flat_rsi_14 (map price priceHistory)). lia.
    - apply Nat.eqb_neq in E. apply (flat_rsi_15 c _ flat). lia. }
  split; [rewrite Hvol; now apply (flat_volatility c)|].
  split; [exact Hm|].
  destruct (flat_macd c _ flat ltac:(lia)) as (_ & _ & Hh).
  rewrite Vm. split; [exact Hh|]. rewrite Hh. intros E. apply Hc.
  apply (Qmult_integral_l (- (4 # 5))); [discriminate | exact E].
Qed.

Lemma flat_series_report_witness :
  exists r rsi m,
    Sample.run "2026-01-01T00:00:00.000Z" "btc" (Sample.flat 100 15)
    = Return r /\
    indicatorNamed "RSI (14)" r = Some rsi /\ value rsi = 100 /\
    volatility r = low /\
    indicatorNamed "MACD" r = Some m /\ value m == - (4 # 5) * 100.
Proof.
  destruct (flat_series_report Runtime.toUpperCase Runtime.numberToString
              "2026-01-01T00:00:00.000Z" "btc" (Sample.flat 100 15) 100)
    as (r & rsi & m & Hr & Hrsi & Vrsi & Hvol & Hm & Vm & _).
  - discriminate.
  - simpl. lia.
  - repeat constructor.
  - exists r, rsi, m. repeat split; assumption.
Defined.

(** C1 as stated fails on a flat series of 15 points at price 100: the RSI
    is 100, not 50, and the MACD histogram is -80, not 0. *)
Lemma flat_series_counterexample :
  exists r rsi m,
    Sample.run "2026-01-01T00:00:00.000Z" "btc" (Sample.flat 100 15)
    = Return r /\
    indicatorNamed "RSI (14)" r = Some rsi /\
    indicatorNamed "MACD" r = Some m /\
    value rsi == 100 /\ value m == -80 /\
    ~ (Qabs (value rsi - 50) <= 1 /\ volatility r = low /\ value m == 0).
Proof.
  eexists. eexists. eexists.
  split; [vm_compute; reflexivity|].
  split; [vm_compute; reflexivity|].
  split; [vm_compute; reflexivity|].
  split; [reflexivity|]. split; [reflexivity|].
  intros (H & _ & _). vm_compute in H. apply H. reflexivity.
Qed.

(** ** Rising series *)

Lemma increasing_lt (l : list Q) (i j : nat) :
  increasing l -> (i < j < length l)%nat -> nth i l 0 < nth j l 0.
Proof.
  intros Hinc [Hij Hj]. induction j as [|j IH]; [lia|].
  destruct (Nat.eq_dec i j) as [->|Hne].
  - now apply Hinc.
  - apply Qlt_trans with (nth j l 0); [apply IH; lia | now apply Hinc].
Qed.

Lemma increasing_le (l : list Q) (i j : nat) :
  increasing l -> (i <= j < length l)%nat -> nth i l 0 <= nth j l 0.
Proof.
  intros Hinc [Hij Hj]. destruct (Nat.eq_dec i j) as [->|Hne].
  - apply Qle_refl.
  - apply Qlt_le_weak, increasing_lt; [exact Hinc | lia].
Qed.

Lemma slice_last (a : list Q) (k : nat) :
  (0 < k <= length a)%nat ->
  Arr.slice a (- Z.of_nat k) None = skipn (length a - k) a.
Proof.
  intros Hk. rewrite slice_from_skipn. f_equal. unfold Arr.rel.
  rewrite (proj2 (Z.ltb_lt (- Z.of_nat k) 0)) by lia. lia.
Qed.

(** An element of a suffix is a price at an index of the suffix. *)
Lemma In_skipn_nth (a : list Q) (k : nat) (x : Q) :
  In x (skipn k a) ->
  exists j, (k <= j < length a)%nat /\ x = nth j a 0.
Proof.
  intros H. apply (In_nth _ _ 0) in H as (j & Hj & <-).
  rewrite length_skipn in Hj. exists (k + j)%nat.
  split; [lia | apply nth_skipn].
Qed.

Lemma sum_le_bound (l : list Q) (m : Q) :
  (forall x, In x l -> x <= m) -> Arr.sum l <= Arr.len l * m.
Proof.
  induction l as [|x l IH]; intros H.
  - change (Arr.sum []) with 0. change (Arr.len (@nil Q)) with 0. lra.
  - rewrite sum_cons, len_cons.
    pose proof (H x (or_introl eq_refl)).
    assert (Arr.sum l <= Arr.len l * m) by (apply IH; intros y Hy; apply H; now right).
    lra.
Qed.

Lemma sum_ge_bound (l : list Q) (m : Q) :
  (forall x, In x l -> m <= x) -> Arr.len l * m <= Arr.sum l.
Proof.
  induction l as [|x l IH]; intros H.
  - change (Arr.sum []) with 0. change (Arr.len (@nil Q)) with 0. lra.
  - rewrite sum_cons, len_cons.
    pose proof (H x (or_introl eq_refl)).
    assert (Arr.len l * m <= Arr.sum l) by (apply IH; intros y Hy; apply H; now right).
    lra.
Qed.

Lemma sum_lt_bound (l : list Q) (m : Q) :
  l <> [] -> (forall x, In x l -> x < m) -> Arr.sum l < Arr.len l * m.
Proof.
  intros Hne H. destruct l as [|x l]; [congruence|].
  rewrite sum_cons, len_cons.
  pose proof (H x (or_introl eq_refl)).
  assert (Arr.sum l <= Arr.len l * m)
    by (apply sum_le_bound; intros y Hy; apply Qlt_le_weak, H; now right).
  lra.
Qed.

Lemma len_of_length {A} (l : list A) (n : nat) :
  length l = n -> Arr.len l = inject_Z (Z.of_nat n).
Proof. intros <-. reflexivity. Qed.

Lemma read_nth (a : list Q) (i : Z) :
  (0 <= i)%Z -> Arr.read a i = nth (Z.to_nat i) a 0.
Proof.
  intros Hi. unfold Arr.read, Arr.get.
  rewrite (proj2 (Z.ltb_ge i 0)) by lia.
  destruct (nth_error a (Z.to_nat i)) eqn:E.
  - symmetry. now apply nth_error_nth.
  - symmetry. apply nth_overflow. now apply nth_error_None.
Qed.

Section Rising.

Variable prices : list Q.
Hypothesis rising : increasing prices.

Let n := length prices.
Let current := nth (n - 1) prices 0.

Lemma rising_rsi : (15 <= n)%nat -> calculateRSI prices 14 = 100.
Proof.
  intros Hn. apply calculateRSI_no_loss; [subst n; lia|].
  intros x Hx. apply rsiChanges_In in Hx as (j & Hj & ->).
  rewrite length_skipn_slice in Hj.
  rewrite !nth_slice_from.
  apply Qlt_le_weak.
  assert (forall a b : Q, a < b -> 0 < b - a) as Hsub by (intros; lra).
  apply Hsub. rewrite Nat.add_succ_r. apply rising. lia.
Qed.

Lemma rising_window_le (k : nat) (x : Q) :
  In x (skipn (n - k) prices) -> x <= current.
Proof.
  intros H. apply In_skipn_nth in H as (j & Hj & ->).
  apply increasing_le; [exact rising | subst n; lia].
Qed.

(** The average of the last [k >= 2] prices is below the last price. *)
Lemma rising_sma_below_current (k : nat) :
  (2 <= k <= n)%nat -> calculateSMA prices (Z.of_nat k) < current.
Proof.
  intros Hk. unfold calculateSMA. rewrite slice_last by (subst n; lia).
  fold n.
  assert (L : length (skipn (n - k) prices) = k)
    by (rewrite length_skipn; subst n; lia).
  pose proof (rising_window_le k) as Hle.
  destruct (skipn (n - k) prices) as [|b0 rest] eqn:E;
    [simpl in L; lia|].
  assert (b0 < current) as Hb0.
  { replace b0 with (nth (n - k) prices 0).
    - apply increasing_lt; [exact rising | subst n; lia].
    - rewrite <- (Nat.add_0_r (n - k)), <- nth_skipn, E. reflexivity. }
  assert (Arr.sum rest <= Arr.len rest * current) as Hrest
    by (apply sum_le_bound; intros y Hy; apply Hle; now right).
  apply Qlt_shift_div_r.
  - rewrite len_cons. pose proof (len_nonneg rest). lra.
  - rewrite sum_cons, len_cons. lra.
Qed.

(** The 50-period average is below the 20-period average. *)
Lemma rising_sma50_below_sma20 :
  (50 <= n)%nat -> calculateSMA prices 50 < calculateSMA prices 20.
Proof.
  intros Hn. unfold calculateSMA.
  change 50%Z with (Z.of_nat 50). change 20%Z with (Z.of_nat 20).
  rewrite !slice_last by (subst n; lia). fold n.
  set (m := nth (n - 20) prices 0).
  assert (B : skipn (n - 20) prices = skipn 30 (skipn (n - 50) prices)).
  { rewrite skipn_skipn. f_equal. lia. }
  rewrite <- (firstn_skipn 30 (skipn (n - 50) prices)) at 1 2.
  rewrite <- B, sum_app, len_app.
  assert (LA : length (firstn 30 (skipn (n - 50) prices)) = 30%nat)
    by (rewrite length_firstn, length_skipn; subst n; lia).
  assert (LB : length (skipn (n - 20) prices) = 20%nat)
    by (rewrite length_skipn; subst n; lia).
  rewrite (len_of_length _ _ LA), (len_of_length _ _ LB).
  assert (HA : Arr.sum (firstn 30 (skipn (n - 50) prices))
               < Arr.len (firstn 30 (skipn (n - 50) prices)) * m).
  { apply sum_lt_bound.
    - intros E. rewrite E in LA. discriminate LA.
    - intros x Hx. apply (In_nth _ _ 0) in Hx as (j & Hj & <-).
      rewrite LA in Hj. rewrite nth_firstn.
      rewrite (proj2 (Nat.ltb_lt j 30)) by exact Hj.
      rewrite nth_skipn. apply increasing_lt; [exact rising | subst n; lia]. }
  assert (HB : Arr.len (skipn (n - 20) prices) * m
               <= Arr.sum (skipn (n - 20) prices)).
  { apply sum_ge_bound. intros x Hx.
    apply In_skipn_nth in Hx as (j & Hj & ->).
    apply increasing_le; [exact rising | subst n; lia]. }
  rewrite (len_of_length _ _ LA) in HA. rewrite (len_of_length _ _ LB) in HB.
  change (inject_Z (Z.of_nat 30)) with 30 in *.
  change (inject_Z (Z.of_nat 20)) with 20 in *.
  apply Qlt_shift_div_r; [reflexivity|].
  setoid_replace (Arr.sum (skipn (n - 20) prices) / 20 * (30 + 20))
    with (Arr.sum (skipn (n - 20) prices) * (5 # 2)) by field.
  lra.
Qed.

End Rising.

Lemma weekAgoPrice_positive (prices : list Q) :
  (8 <= length prices)%nat ->
  (forall x, In x prices -> 0 < x) ->
  weekAgoPrice prices = nth (length prices - 8) prices 0.
Proof.
  intros Hn Hpos. unfold weekAgoPrice, Arr.get.
  rewrite (proj2 (Z.ltb_ge _ 0)) by lia.
  replace (Z.to_nat (Z.of_nat (length prices) - 8)) with (length prices - 8)%nat
    by lia.
  destruct (nth_error prices (length prices - 8)) as [p|] eqn:E.
  - assert (0 < p) as Hp by (apply Hpos; eapply nth_error_In; eauto).
    rewrite (proj2 (Qeq_bool_false_iff p 0)) by lra.
    symmetry. now apply nth_error_nth.
  - apply nth_error_None in E. lia.
Qed.

(** With the price above the 20-period average and that above the
    50-period one, the trend is decided by the 2% week-over-week test. *)
Lemma determineTrend_rising (prices : list Q) (sma20 sma50 : Q) :
  (8 <= length prices)%nat ->
  (forall x, In x prices -> 0 < x) ->
  let current := nth (length prices - 1) prices 0 in
  let weekAgo := nth (length prices - 8) prices 0 in
  sma20 < current -> sma50 < sma20 ->
  (0.02 * weekAgo < current - weekAgo ->
   determineTrend prices sma20 sma50 = bullish) /\
  (current - weekAgo <= 0.02 * weekAgo ->
   determineTrend prices sma20 sma50 = sideways).
Proof.
  intros Hn Hpos current weekAgo H20 H50.
  assert (0 < weekAgo) as Hw by (apply Hpos, nth_In; lia).
  unfold determineTrend.
  rewrite weekAgoPrice_positive by assumption.
  rewrite read_nth by lia.
  replace (Z.to_nat (Z.of_nat (length prices) - 1)) with (length prices - 1)%nat
    by lia.
  fold current weekAgo.
  rewrite (proj2 (Qlt_bool_iff sma20 current) H20).
  rewrite (proj2 (Qlt_bool_iff sma50 sma20) H50).
  rewrite (proj2 (Qlt_bool_false_iff current sma20)) by lra.
  cbn [andb]. split; intros H.
  - rewrite (proj2 (Qlt_bool_iff _ _)); [reflexivity|].
    now apply Qlt_shift_div_l.
  - rewrite (proj2 (Qlt_bool_false_iff _ _)); [reflexivity|].
    now apply Qle_shift_div_r.
Qed.

(** C3, as the code has it. On a series of at least 60 positive prices, each
    above the one before, the RSI is 100 (so at least 70), the SMA 20 and
    SMA 50 indicators both signal [buy], and the trend is [bullish] when the
    last price is more than 2% above the price seven points earlier and
    [sideways] otherwise. *)
Theorem rising_series_report
    (toUpperCase : string -> string) (numberToString : Q -> string)
    (now symbol : string) (priceHistory : list PriceData) :
  (60 <= length priceHistory)%nat ->
  increasing (map price priceHistory) ->
  Forall (fun p => 0 < price p) priceHistory ->
  exists r rsi s20 s50,
    generateTradingSignals toUpperCase numberToString now symbol priceHistory
    = Return r /\
    indicatorNamed "RSI (14)" r = Some rsi /\
    value rsi = 100 /\ 70 <= value rsi /\
    indicatorNamed "SMA 20" r = Some s20 /\ signal s20 = buy /\
    indicatorNamed "SMA 50" r = Some s50 /\ signal s50 = buy /\
    let prices := map price priceHistory in
    let current := nth (length prices - 1) prices 0 in
    let weekAgo := nth (length prices - 8) prices 0 in
    (0.02 * weekAgo < current - weekAgo -> trend r = bullish) /\
    (current - weekAgo <= 0.02 * weekAgo -> trend r = sideways).
Proof.
  intros Hlen Hinc Hpos.
  destruct (valid_series_returns toUpperCase numberToString now symbol
              priceHistory ltac:(lia)) as [r Hr].
  destruct (report_shape _ _ _ _ _ _ Hr)
    as (_ & Hcur & (rsi & Hrsi & Vrsi) & (s20 & Hs20 & V20 & S20)
        & (s50 & Hs50 & V50 & S50) & _ & Htrend & _).
  set (prices := map price priceHistory) in *.
  assert (Ln : length prices = length priceHistory) by apply length_map.
  assert (Ppos : forall x, In x prices -> 0 < x).
  { intros x Hx. apply in_map_iff in Hx as (p & <- & Hp).
    rewrite Forall_forall in Hpos. now apply Hpos. }
  rewrite read_nth in Hcur by lia.
  replace (Z.to_nat (Z.of_nat (length prices) - 1)) with (length prices - 1)%nat
    in Hcur by lia.
  replace (Z.min 50 (Z.of_nat (length prices))) with 50%Z in * by lia.
  pose proof (rising_sma_below_current prices Hinc 20 ltac:(lia)) as B20.
  pose proof (rising_sma_below_current prices Hinc 50 ltac:(lia)) as B50.
  pose proof (rising_sma50_below_sma20 prices Hinc ltac:(lia)) as B5020.
  change (Z.of_nat 20) with 20%Z in B20. change (Z.of_nat 50) with 50%Z in B50.
  exists r, rsi, s20, s50.
  split; [exact Hr|]. split; [exact Hrsi|].
  assert (value rsi = 100) as R100
    by (rewrite Vrsi; apply rising_rsi; [exact Hinc | lia]).
  split; [exact R100|]. split; [rewrite R100; discriminate|].
  split; [exact Hs20|].
  split; [rewrite S20, Hcur; now rewrite (proj2 (Qlt_bool_iff _ _) B20)|].
  split; [exact Hs50|].
  split; [rewrite S50, Hcur; now rewrite (proj2 (Qlt_bool_iff _ _) B50)|].
  rewrite Htrend.
  apply determineTrend_rising; try assumption. lia.
Qed.

(** A concrete list is increasing: check every index. *)
Ltac check_increasing :=
  let i := fresh "i" in
  let Hi := fresh "Hi" in
  intros i Hi; vm_compute in Hi;
  repeat (destruct i as [|i]; [vm_compute; reflexivity|]);
  exfalso; lia.

Ltac check_positive := repeat (constructor; [reflexivity|]); constructor.

Lemma rising_series_report_witness :
  exists r rsi s20 s50,
    Sample.run "2026-01-01T00:00:00.000Z" "btc" (Sample.climbing 60)
    = Return r /\
    indicatorNamed "RSI (14)" r = Some rsi /\ 70 <= value rsi /\
    indicatorNamed "SMA 20" r = Some s20 /\ signal s20 = buy /\
    indicatorNamed "SMA 50" r = Some s50 /\ signal s50 = buy /\
    trend r = bullish.
Proof.
  destruct (rising_series_report Runtime.toUpperCase Runtime.numberToString
              "2026-01-01T00:00:00.000Z" "btc" (Sample.climbing 60))
    as (r & rsi & s20 & s50 & Hr & Hrsi & _ & Vrsi & Hs20 & S20 & Hs50 & S50
        & Hbull & _).
  - simpl. lia.
  - check_increasing.
  - check_positive.
  - exists r, rsi, s20, s50. repeat split; try assumption.
    apply Hbull. vm_compute. reflexivity.
Defined.

(** C3 as stated fails on 60 prices rising by one a day from 1000: no
    reversal, yet the week-over-week change is 7/1052, below 2%, and the
    trend is [sideways]. *)
Lemma rising_series_counterexample :
  length (Sample.rising 60) = 60%nat /\
  increasing (map price (Sample.rising 60)) /\
  exists r,
    Sample.run "2026-01-01T00:00:00.000Z" "btc" (Sample.rising 60) = Return r /\
    trend r = sideways /\ trend r <> bullish.
Proof.
  split; [reflexivity|]. split; [check_increasing|].
  destruct (valid_series_returns Runtime.toUpperCase Runtime.numberToString
              "2026-01-01T00:00:00.000Z" "btc" (Sample.rising 60))
    as [r Hr]; [simpl; lia|].
  exists r. split; [exact Hr|].
  destruct (report_shape _ _ _ _ _ _ Hr) as (_ & _ & _ & _ & _ & _ & Ht & _).
  assert (trend r = sideways) as E by (rewrite Ht; vm_compute; reflexivity).
  split; [exact E | rewrite E; discriminate].
Qed.

(** ** The store *)


Lemma lookup_new (v : Store.array) (h : Store.heap) : Store.lookup (length h) (v :: h) = Some v.
Proof. cbn [Store.lookup]. now rewrite Nat.eqb_refl. Qed.

Lemma lookup_old (r : Store.ref) (v : Store.array) (h : Store.heap) :
  (r < length h)%nat -> Store.lookup r (v :: h) = Store.lookup r h.
Proof.
  intros H. cbn [Store.lookup]. now rewrite (proj2 (Nat.eqb_neq r (length h))) by lia.
Qed.

Lemma lookup_lt (r : Store.ref) (h : Store.heap) (v : Store.array) :
  Store.lookup r h = Some v -> (r < length h)%nat.
Proof.
  induction h as [|w h IH]; cbn [Store.lookup length]; [discriminate|].
  destruct (r =? length h)%nat eqn:E.
  - apply Nat.eqb_eq in E. lia.
  - intros H. apply IH in H. lia.
Qed.

Lemma lookup_app_old (r : Store.ref) (newer h : Store.heap) :
  (r < length h)%nat -> Store.lookup r (newer ++ h) = Store.lookup r h.
Proof.
  intros H. induction newer as [|w newer IH]; [reflexivity|].
  cbn [app]. rewrite lookup_old; [exact IH|]. rewrite length_app. lia.
Qed.

Lemma extends_refl (h : Store.heap) : Store.extends h h.
Proof. now exists []. Qed.

Lemma extends_cons (h h' : Store.heap) (v : Store.array) :
  Store.extends h h' -> Store.extends h (v :: h').
Proof. intros [newer ->]. now exists (v :: newer). Qed.

Lemma extends_trans (h1 h2 h3 : Store.heap) :
  Store.extends h1 h2 -> Store.extends h2 h3 -> Store.extends h1 h3.
Proof.
  intros [n1 ->] [n2 ->]. exists (n2 ++ n1). now rewrite app_assoc.
Qed.

Lemma extends_length (h h' : Store.heap) : Store.extends h h' -> (length h <= length h')%nat.
Proof. intros [newer ->]. rewrite length_app. lia. Qed.

(** Allocation never disturbs an Store.array that exists. *)
Lemma lookup_extends (r : Store.ref) (h h' : Store.heap) :
  Store.extends h h' -> (r < length h)%nat -> Store.lookup r h' = Store.lookup r h.
Proof. intros [newer ->] H. now apply lookup_app_old. Qed.

Lemma update_outside (r : Store.ref) (v : Store.array) (h : Store.heap) :
  (length h <= r)%nat -> Store.update r v h = h.
Proof.
  induction h as [|w h IH]; cbn [Store.update length]; intros H; [reflexivity|].
  rewrite (proj2 (Nat.eqb_neq r (length h))) by lia.
  now rewrite IH by lia.
Qed.

Lemma length_update (r : Store.ref) (v : Store.array) (h : Store.heap) :
  length (Store.update r v h) = length h.
Proof.
  induction h as [|w h IH]; cbn [Store.update]; [reflexivity|].
  destruct (r =? length h)%nat; cbn [length]; [reflexivity | now rewrite IH].
Qed.

Lemma lookup_update_same (r : Store.ref) (v : Store.array) (h : Store.heap) :
  (r < length h)%nat -> Store.lookup r (Store.update r v h) = Some v.
Proof.
  induction h as [|w h IH]; cbn [Store.update length]; intros H; [lia|].
  destruct (r =? length h)%nat eqn:E.
  - apply Nat.eqb_eq in E. subst r. apply lookup_new.
  - apply Nat.eqb_neq in E. cbn [Store.lookup]. rewrite length_update.
    rewrite (proj2 (Nat.eqb_neq r (length h))) by exact E. apply IH. lia.
Qed.

Lemma lookup_update_other (r r' : Store.ref) (v : Store.array) (h : Store.heap) :
  r' <> r -> Store.lookup r' (Store.update r v h) = Store.lookup r' h.
Proof.
  intros Hne. induction h as [|w h IH]; cbn [Store.update]; [reflexivity|].
  destruct (r =? length h)%nat eqn:E.
  - apply Nat.eqb_eq in E. cbn [Store.lookup].
    now rewrite (proj2 (Nat.eqb_neq r' (length h))) by lia.
  - cbn [Store.lookup]. rewrite length_update, IH. reflexivity.
Qed.

(** Updating an Store.array allocated after [h] leaves [h] underneath. *)
Lemma extends_update (r : Store.ref) (v : Store.array) (h h' : Store.heap) :
  Store.extends h h' -> (length h <= r)%nat -> Store.extends h (Store.update r v h').
Proof.
  intros [newer ->] H. induction newer as [|w newer IH].
  - cbn [app]. rewrite update_outside by exact H. apply extends_refl.
  - cbn [app Store.update]. destruct (r =? length (newer ++ h))%nat.
    + apply extends_cons. now exists newer.
    + apply extends_cons, IH.
Qed.

(** Run the Store.array methods symbolically. *)
Ltac unfold_store :=
  cbv beta iota delta
    [Store.bind Store.ret Store.alloc Store.write Store.nums Store.points
     Store.inds Store.slice Store.mapi Store.map Store.filter
     Store.spreadWith Store.sort Store.pluck Store.push Store.scores
     Store.filterInds].

Ltac heap_lookup H :=
  repeat first
    [ rewrite lookup_new
    | rewrite lookup_old by (cbn [length]; lia)
    | rewrite H ].

Ltac grown := repeat apply extends_cons; apply extends_refl.

Lemma calculateRSI_run (h : Store.heap) (p : Store.ref) (a : list Q) (period : Z) :
  Store.lookup p h = Some (Store.Nums a) ->
  exists h', Store.calculateRSI p period h = (calculateRSI a period, h')
             /\ Store.extends h h'.
Proof.
  intros Hp. pose proof (lookup_lt _ _ _ Hp) as Lp.
  unfold Store.calculateRSI, calculateRSI, avgLoss, avgGain, rsiGains,
    rsiLosses, rsiChanges.
  unfold_store. rewrite Hp.
  destruct (Z.of_nat (length a) <? period + 1)%Z.
  - eexists. split; [reflexivity | grown].
  - heap_lookup Hp.
    match goal with
    | |- context [if ?c then (fun h0 => (100, h0)) else _] => destruct c
    end; eexists; (split; [reflexivity | grown]).
Qed.


Ltac ran := eexists; (split; [reflexivity | grown]).

Lemma calculateSMA_run (h : Store.heap) (p : Store.ref) (a : list Q) (period : Z) :
  Store.lookup p h = Some (Store.Nums a) ->
  exists h', Store.calculateSMA p period h = (calculateSMA a period, h')
             /\ Store.extends h h'.
Proof.
  intros Hp. pose proof (lookup_lt _ _ _ Hp) as Lp.
  unfold Store.calculateSMA, calculateSMA. unfold_store.
  heap_lookup Hp. ran.
Qed.

Lemma calculateEMA_run (h : Store.heap) (p : Store.ref) (a : list Q) (period : Z) :
  Store.lookup p h = Some (Store.Nums a) ->
  Store.calculateEMA p period h = (calculateEMA a period, h).
Proof.
  intros Hp. unfold Store.calculateEMA, calculateEMA. unfold_store.
  now rewrite Hp.
Qed.

Lemma calculateMACD_run (h : Store.heap) (p : Store.ref) (a : list Q) :
  Store.lookup p h = Some (Store.Nums a) ->
  exists h', Store.calculateMACD p h = (calculateMACD a, h')
             /\ Store.extends h h'.
Proof.
  intros Hp. pose proof (lookup_lt _ _ _ Hp) as Lp.
  unfold Store.calculateMACD, calculateMACD, Store.calculateEMA, calculateEMA.
  unfold_store. heap_lookup Hp. ran.
Qed.

Lemma calculateVolumeTrend_run (h : Store.heap) (p : Store.ref) (a : list Q) :
  Store.lookup p h = Some (Store.Nums a) ->
  exists h', Store.calculateVolumeTrend p h = (calculateVolumeTrend a, h')
             /\ Store.extends h h'.
Proof.
  intros Hp. pose proof (lookup_lt _ _ _ Hp) as Lp.
  unfold Store.calculateVolumeTrend, calculateVolumeTrend. unfold_store.
  rewrite Hp. destruct (length a <? 10)%nat; [ran|].
  heap_lookup Hp. ran.
Qed.

Lemma calculateVariance_run (h : Store.heap) (p : Store.ref) (a : list Q) :
  Store.lookup p h = Some (Store.Nums a) ->
  Store.calculateVariance p h = (calculateVariance a, h).
Proof.
  intros Hp. unfold Store.calculateVariance, calculateVariance. unfold_store.
  now rewrite Hp.
Qed.

Lemma update_new (v w : Store.array) (h : Store.heap) :
  Store.update (length h) v (w :: h) = v :: h.
Proof. cbn [Store.update]. now rewrite Nat.eqb_refl. Qed.

(** [calculateSupportResistance] sorts the copy it has just allocated: the
    store afterwards is the store before with the sorted copy on top. *)
Lemma calculateSupportResistance_run (h : Store.heap) (p : Store.ref) (a : list Q) :
  Store.lookup p h = Some (Store.Nums a) ->
  Store.calculateSupportResistance p h
  = (calculateSupportResistance a, Store.Nums (Arr.sort ascending a) :: h).
Proof.
  intros Hp. pose proof (lookup_lt _ _ _ Hp) as Lp.
  unfold Store.calculateSupportResistance, calculateSupportResistance.
  unfold_store. heap_lookup Hp. rewrite update_new. heap_lookup Hp.
  now rewrite app_nil_r.
Qed.

Lemma calculateVolatility_run (h : Store.heap) (p : Store.ref) (a : list Q) :
  Store.lookup p h = Some (Store.Nums a) ->
  exists h', Store.calculateVolatility p h = (calculateVolatility a, h')
             /\ Store.extends h h'.
Proof.
  intros Hp. pose proof (lookup_lt _ _ _ Hp) as Lp.
  unfold Store.calculateVolatility, calculateVolatility,
    Store.calculateVariance, calculateVariance.
  unfold_store. heap_lookup Hp. ran.
Qed.

Lemma determineTrend_run (h : Store.heap) (p : Store.ref) (a : list Q)
    (sma20 sma50 : Q) :
  Store.lookup p h = Some (Store.Nums a) ->
  Store.determineTrend p sma20 sma50 h = (determineTrend a sma20 sma50, h).
Proof.
  intros Hp. unfold Store.determineTrend. unfold_store. now rewrite Hp.
Qed.

Lemma generateSummary_run
    (toUpperCase : string -> string) (numberToString : Q -> string)
    (h : Store.heap) (i : Store.ref) (l : list TechnicalIndicator)
    (symbol : string) (signal : SignalStrength) (confidence : Q)
    (trend : string) :
  Store.lookup i h = Some (Store.Indicators l) ->
  exists h',
    Store.generateSummary toUpperCase numberToString symbol signal confidence
                          trend i h
    = (generateSummary toUpperCase numberToString symbol signal confidence
                       trend l, h')
    /\ Store.extends h h'.
Proof.
  intros Hi. pose proof (lookup_lt _ _ _ Hi) as Li.
  unfold Store.generateSummary, generateSummary. unfold_store.
  heap_lookup Hi. ran.
Qed.

Lemma engineArrays_init (h0 : Store.heap) (P V : list Q) :
  Store.engineArrays h0 P V []
    (Store.Indicators [] :: Store.Nums V :: Store.Nums P :: h0).
Proof.
  unfold Store.engineArrays. repeat split.
  - grown.
  - rewrite !lookup_old by (cbn [length]; lia). apply lookup_new.
  - rewrite lookup_old by (cbn [length]; lia). apply (lookup_new _ (_ :: h0)).
  - apply (lookup_new _ (_ :: _ :: h0)).
Qed.

Lemma engineArrays_extends (h0 : Store.heap) (P V : list Q)
    (I : list TechnicalIndicator) (h h' : Store.heap) :
  Store.engineArrays h0 P V I h -> Store.extends h h' ->
  Store.engineArrays h0 P V I h'.
Proof.
  intros (E & Hp & Hv & Hi) X.
  pose proof (lookup_lt _ _ _ Hp). pose proof (lookup_lt _ _ _ Hv).
  pose proof (lookup_lt _ _ _ Hi).
  unfold Store.engineArrays. rewrite !(lookup_extends _ h h') by assumption.
  repeat split; try assumption. eapply extends_trans; eassumption.
Qed.

Lemma engineArrays_push (h0 : Store.heap) (P V : list Q)
    (I : list TechnicalIndicator) (h : Store.heap) (x : TechnicalIndicator) :
  Store.engineArrays h0 P V I h ->
  Store.push (S (S (length h0))) x h
  = (tt, Store.update (S (S (length h0))) (Store.Indicators (I ++ [x])) h) /\
  Store.engineArrays h0 P V (I ++ [x])
    (Store.update (S (S (length h0))) (Store.Indicators (I ++ [x])) h).
Proof.
  intros (E & Hp & Hv & Hi). pose proof (lookup_lt _ _ _ Hi).
  split.
  - unfold Store.push. unfold_store. now rewrite Hi.
  - unfold Store.engineArrays.
    rewrite !lookup_update_other by lia. rewrite lookup_update_same by lia.
    repeat split; try assumption. apply extends_update; [exact E | lia].
Qed.

(** One step of the engine, with [A] the state of its arrays. *)
Ltac advance A X :=
  eapply engineArrays_extends in A; [|exact X]; clear X.

Ltac on_prices lem A :=
  match goal with
  | |- context [let (_, _) := ?f (length ?h0) ?H in _] =>
      let E := fresh "E" in
      let X := fresh "X" in
      let h1 := fresh "h" in
      destruct (lem H (length h0) _ (proj1 (proj2 A))) as (h1 & E & X);
      rewrite E; clear E; advance A X; cbv beta iota
  | |- context [let (_, _) := ?f (length ?h0) ?k ?H in _] =>
      let E := fresh "E" in
      let X := fresh "X" in
      let h1 := fresh "h" in
      destruct (lem H (length h0) _ k (proj1 (proj2 A))) as (h1 & E & X);
      rewrite E; clear E; advance A X; cbv beta iota
  end.

Ltac on_volumes lem A :=
  match goal with
  | |- context [let (_, _) := ?f (S (length ?h0)) ?H in _] =>
      let E := fresh "E" in
      let X := fresh "X" in
      let h1 := fresh "h" in
      destruct (lem H (S (length h0)) _ (proj1 (proj2 (proj2 A))))
        as (h1 & E & X);
      rewrite E; clear E; advance A X; cbv beta iota
  end.

Ltac push_indicator A :=
  match goal with
  | |- context [Store.push _ ?x ?H] =>
      let E := fresh "E" in
      let A' := fresh "A" in
      destruct (engineArrays_push _ _ _ _ H x A) as [E A'];
      rewrite E; clear E A; rename A' into A; cbv beta iota;
      match type of A with
      | Store.engineArrays _ _ _ _ ?H' =>
          let h1 := fresh "h" in set (h1 := H') in *; clearbody h1
      end
  end.

Ltac read_array A :=
  cbv beta iota delta [Store.nums Store.inds];
  rewrite ?(proj1 (proj2 A)), ?(proj1 (proj2 (proj2 A))),
    ?(proj2 (proj2 (proj2 A)));
  cbv beta iota.

Lemma generateTradingSignals_run
    (toUpperCase : string -> string) (numberToString : Q -> string)
    (now symbol : string) (h : Store.heap) (p : Store.ref)
    (priceHistory : list PriceData) :
  Store.lookup p h = Some (Store.Points priceHistory) ->
  exists h',
    Store.generateTradingSignals toUpperCase numberToString now symbol p h
    = (generateTradingSignals toUpperCase numberToString now symbol
         priceHistory, h')
    /\ Store.extends h h'.
Proof.
  intros Hp. pose proof (lookup_lt _ _ _ Hp) as Lp.
  unfold Store.generateTradingSignals, generateTradingSignals.
  cbv beta iota zeta delta
    [Store.bind Store.ret Store.alloc Store.points Store.pluck].
  rewrite Hp.
  destruct (length priceHistory <? 14)%nat; [ran|].
  heap_lookup Hp. cbn [length].
  pose proof (engineArrays_init h (map price priceHistory)
                (map volume priceHistory)) as A.
  set (P := map price priceHistory) in *.
  set (V := map volume priceHistory) in *.
  match type of A with
  | Store.engineArrays _ _ _ _ ?H => set (H0 := H) in *; clearbody H0
  end.
  on_prices calculateRSI_run A. push_indicator A.
  on_prices calculateSMA_run A.
  read_array A.
  on_prices calculateSMA_run A.
  push_indicator A. push_indicator A.
  on_prices calculateMACD_run A. push_indicator A.
  on_volumes calculateVolumeTrend_run A. push_indicator A.
  rewrite (calculateSupportResistance_run _ _ _ (proj1 (proj2 A))).
  cbv beta iota.
  match goal with
  | |- context [Store.scores _ _ ?H] =>
      apply (engineArrays_extends _ _ _ _ _ H) in A; [|grown];
      set (h10 := H) in *; clearbody h10
  end.
  cbv beta iota delta [Store.scores Store.bind Store.inds Store.alloc].
  rewrite (proj2 (proj2 (proj2 A))). cbv beta iota.
  rewrite !lookup_new.
  rewrite (calculateVariance_run _ _ _ (lookup_new _ _)). cbv beta iota.
  match goal with
  | |- context [Store.determineTrend _ _ _ ?H] =>
      apply (engineArrays_extends _ _ _ _ _ H) in A; [|grown];
      set (h11 := H) in *; clearbody h11
  end.
  rewrite (determineTrend_run _ _ _ _ _ (proj1 (proj2 A))). cbv beta iota.
  on_prices calculateVolatility_run A.
  match goal with
  | |- context [Store.generateSummary _ _ ?sy ?sg ?cf ?tr ?i ?H] =>
      destruct (generateSummary_run toUpperCase numberToString H i _ sy sg cf
                  tr (proj2 (proj2 (proj2 A)))) as (h13 & E & X);
      rewrite E; clear E; advance A X; cbv beta iota
  end.
  rewrite (proj2 (proj2 (proj2 A))).
  eexists. split; [reflexivity | exact (proj1 A)].
Qed.

(** In this model an in-place sort of an array is visible through every
    reference to it: sorting the shared array itself would change it. *)
Example sort_in_place_is_visible :
  Store.sort ascending 0%nat [Store.Nums [3; 1; 2]]
  = (0%nat, [Store.Nums [1; 2; 3]]).
Proof. reflexivity. Qed.

(** C9. Running the engine leaves the input series as it was: the store
    after the call holds, at the reference of the input and at every
    reference that existed before the call, the array it held before; the
    result is that of the engine as a function of the series.  In
    particular [calculateSupportResistance] sorts a fresh copy and leaves
    the array it was given unchanged. *)
Theorem input_series_unchanged
    (toUpperCase : string -> string) (numberToString : Q -> string)
    (now symbol : string) (h : Store.heap) (p : Store.ref)
    (priceHistory : list PriceData) :
  Store.lookup p h = Some (Store.Points priceHistory) ->
  (exists h',
     Store.generateTradingSignals toUpperCase numberToString now symbol p h
     = (generateTradingSignals toUpperCase numberToString now symbol
          priceHistory, h') /\
     Store.lookup p h' = Some (Store.Points priceHistory) /\
     (forall r, (r < length h)%nat -> Store.lookup r h' = Store.lookup r h)) /\
  (forall (hq : Store.heap) (q : Store.ref) (prices : list Q),
     Store.lookup q hq = Some (Store.Nums prices) ->
     exists hq',
       Store.calculateSupportResistance q hq
       = (calculateSupportResistance prices, hq') /\
       Store.lookup q hq' = Some (Store.Nums prices) /\
       Store.lookup (length hq) hq'
       = Some (Store.Nums (Arr.sort ascending prices))).
Proof.
  intros Hp. split.
  - destruct (generateTradingSignals_run toUpperCase numberToString now symbol
                h p priceHistory Hp) as (h' & E & X).
    exists h'. split; [exact E|]. split.
    + rewrite (lookup_extends p h h' X); [exact Hp | eapply lookup_lt; eauto].
    + intros r Hr. now apply lookup_extends.
  - intros hq q prices Hq. eexists. split; [|split].
    + now apply calculateSupportResistance_run.
    + rewrite lookup_old; [exact Hq | eapply lookup_lt; eauto].
    + apply lookup_new.
Qed.

Lemma input_series_unchanged_witness :
  exists h',
    Store.generateTradingSignals Runtime.toUpperCase Runtime.numberToString
      "2026-01-01T00:00:00.000Z" "btc" 0%nat [Store.Points Sample.scenario]
    = (Sample.run "2026-01-01T00:00:00.000Z" "btc" Sample.scenario, h') /\
    Store.lookup 0%nat h' = Some (Store.Points Sample.scenario).
Proof.
  destruct (input_series_unchanged Runtime.toUpperCase Runtime.numberToString
              "2026-01-01T00:00:00.000Z" "btc"
              [Store.Points Sample.scenario] 0%nat Sample.scenario)
    as ((h' & E & L & _) & _).
  - reflexivity.
  - exists h'. split; [exact E | exact L].
Defined.

(** ** The square root in [calculateVolatility] *)

(** The test on squares decides [Math.sqrt(variance) * 100 < bound] for the
    real square root. *)
Lemma sqrt_scaled_lt_correct (variance bound : Q) :
  0 <= variance -> 0 < bound ->
  (sqrt_scaled_lt variance bound = true
   <-> (sqrt (Q2R variance) * 100 < Q2R bound)%R).
Proof.
  intros Hv Hb. unfold sqrt_scaled_lt. rewrite Qlt_bool_iff.
  apply Qle_Rle in Hv. apply Qlt_Rlt in Hb.
  replace (Q2R 0) with 0%R in Hv, Hb by (unfold Q2R; simpl; Lra.lra).
  split.
  - intros H. apply Qlt_Rlt in H. rewrite !Q2R_mult in H.
    replace (Q2R 100) with 100%R in H by (unfold Q2R; simpl; Lra.lra).
    assert (sqrt (Q2R variance) < Q2R bound / 100)%R as S.
    { rewrite <- (sqrt_square (Q2R bound / 100)) by Lra.lra.
      apply sqrt_lt_1_alt. split; [exact Hv | Lra.lra]. }
    Lra.lra.
  - intros H. apply Rlt_Qlt. rewrite !Q2R_mult.
    replace (Q2R 100) with 100%R by (unfold Q2R; simpl; Lra.lra).
    assert (sqrt (Q2R variance) < sqrt (Q2R bound / 100 * (Q2R bound / 100)))%R
      as S by (rewrite sqrt_square by Lra.lra; Lra.lra).
    apply sqrt_lt_0_alt in S. Lra.lra.
Qed.

Lemma calculateVariance_nonneg (values : list Q) : 0 <= calculateVariance values.
Proof. rewrite calculateVariance_spec. apply variance_nonneg. Qed.

Lemma sqrt_scaled_lt_false (variance bound : Q) :
  0 <= variance -> 0 < bound ->
  (sqrt_scaled_lt variance bound = false
   <-> (Q2R bound <= sqrt (Q2R variance) * 100)%R).
Proof.
  intros Hv Hb. rewrite <- not_true_iff_false.
  rewrite (sqrt_scaled_lt_correct _ _ Hv Hb).
  split.
  - intros Hn. apply Rnot_lt_le. exact Hn.
  - intros Hle Hlt. Lra.lra.
Qed.

(** The classification of [calculateVolatility], read with the real square
    root: [sqrt(variance) * 100] below 2 is [low], below 5 [medium],
    otherwise [high]. *)
Lemma calculateVolatility_sqrt (prices : list Q) :
  let returns :=
    Arr.mapi (fun p i _ => (p - nth i prices 0) / nth i prices 0)
             (Arr.slice prices 1 None) in
  let vol := (sqrt (Q2R (calculateVariance returns)) * 100)%R in
  (calculateVolatility prices = low <-> (vol < 2)%R) /\
  (calculateVolatility prices = medium <-> (2 <= vol < 5)%R) /\
  (calculateVolatility prices = high <-> (5 <= vol)%R).
Proof.
  intros returns vol. unfold calculateVolatility. fold returns.
  pose proof (calculateVariance_nonneg returns) as Hv.
  assert (Q2R 2 = 2%R) as E2 by (unfold Q2R; simpl; Lra.lra).
  assert (Q2R 5 = 5%R) as E5 by (unfold Q2R; simpl; Lra.lra).
  destruct (sqrt_scaled_lt (calculateVariance returns) 2) eqn:L2;
    [|destruct (sqrt_scaled_lt (calculateVariance returns) 5) eqn:L5].
  - apply sqrt_scaled_lt_correct in L2; [|exact Hv|reflexivity].
    rewrite E2 in L2. fold vol in L2.
    split; [|split]; (split; intros H); try discriminate H;
      try reflexivity; try Lra.lra.
  - apply sqrt_scaled_lt_false in L2; [|exact Hv|reflexivity].
    apply sqrt_scaled_lt_correct in L5; [|exact Hv|reflexivity].
    rewrite E2 in L2. rewrite E5 in L5. fold vol in L2, L5.
    split; [|split]; (split; intros H); try discriminate H;
      try reflexivity; try Lra.lra.
  - apply sqrt_scaled_lt_false in L2; [|exact Hv|reflexivity].
    apply sqrt_scaled_lt_false in L5; [|exact Hv|reflexivity].
    rewrite E2 in L2. rewrite E5 in L5. fold vol in L2, L5.
    split; [|split]; (split; intros H); try discriminate H;
      try reflexivity; try Lra.lra.
Qed.

(** * Further properties of the signal service *)

(** ** Aggregation: overall signal and confidence *)

(** The signals of the five indicators of a report, as the engine builds
    them: the two moving-average indicators are [buy] or [sell], the volume
    indicator is never [strong]. *)
Lemma report_aggregate
    (toUpperCase : string -> string) (numberToString : Q -> string)
    (now symbol : string) (priceHistory : list PriceData) (r : TradingSignal) :
  generateTradingSignals toUpperCase numberToString now symbol priceHistory
  = Return r ->
  (exists (s1 s4 : SignalStrength) (b2 b3 c1 c2 : bool),
     map signal (indicators r)
     = [s1; if b2 then buy else sell; if b3 then buy else sell; s4;
        if c1 then buy else if c2 then sell else neutral]) /\
  overallSignal r
  = scoreToSignal (Arr.sum (indicatorScores r) / Arr.len (indicatorScores r)) /\
  confidence r
  = inject_Z (Math_round (Math_max 0 (Math_min 100
      (100 - calculateVariance (indicatorScores r) * 20)))).
Proof.
  unfold generateTradingSignals.
  destruct (length priceHistory <? 14)%nat; [discriminate|].
  cbv zeta. intros H. injection H as <-.
  unfold indicatorScores. cbn [indicators overallSignal confidence app map signal].
  split; [|split; reflexivity].
  eexists _, _, _, _, _, _. reflexivity.
Qed.

Lemma indicatorScores_signals (r : TradingSignal) :
  indicatorScores r = map signalToScore (map signal (indicators r)).
Proof. unfold indicatorScores. now rewrite map_map. Qed.

(** Every combination of signals the five indicators can carry. *)
Lemma aggregate_cases (s1 s4 : SignalStrength) (b2 b3 c1 c2 : bool) :
  let signals :=
    [s1; if b2 then buy else sell; if b3 then buy else sell; s4;
     if c1 then buy else if c2 then sell else neutral] in
  let scores := map signalToScore signals in
  let overall := scoreToSignal (Arr.sum scores / Arr.len scores) in
  let conf :=
    Math_round (Math_max 0 (Math_min 100 (100 - calculateVariance scores * 20))) in
  overall <> strong_buy /\ overall <> strong_sell /\
  (57 <= conf <= 100)%Z /\
  (conf = 100%Z <-> signals = repeat buy 5 \/ signals = repeat sell 5).
Proof.
  destruct s1, s4, b2, b3, c1, c2; vm_compute;
    (split; [discriminate|]); (split; [discriminate|]);
    (split; [split; discriminate|]);
    (split; [intros H; try discriminate H; auto
            | intros [H|H]; try discriminate H; reflexivity]).
Qed.

(** X1. The overall signal of a report is never [strong_buy] or
    [strong_sell]: three of the five indicators cannot score beyond 1 in
    absolute value, so the mean score stays within 1.4. *)
Theorem overall_signal_never_strong
    (toUpperCase : string -> string) (numberToString : Q -> string)
    (now symbol : string) (priceHistory : list PriceData) :
  (14 <= length priceHistory)%nat ->
  exists r,
    generateTradingSignals toUpperCase numberToString now symbol priceHistory
    = Return r /\
    overallSignal r <> strong_buy /\ overallSignal r <> strong_sell.
Proof.
  intros Hlen.
  destruct (valid_series_returns toUpperCase numberToString now symbol
              priceHistory Hlen) as [r Hr].
  exists r. split; [exact Hr|].
  destruct (report_aggregate _ _ _ _ _ _ Hr)
    as ((s1 & s4 & b2 & b3 & c1 & c2 & Hs) & Ho & _).
  rewrite Ho, indicatorScores_signals, Hs.
  destruct (aggregate_cases s1 s4 b2 b3 c1 c2) as (H1 & H2 & _).
  split; assumption.
Qed.

Lemma overall_signal_never_strong_witness :
  exists r,
    Sample.run "2026-01-01T00:00:00.000Z" "btc" (Sample.climbing 60)
    = Return r /\
    overallSignal r <> strong_buy /\ overallSignal r <> strong_sell.
Proof.
  apply (overall_signal_never_strong Runtime.toUpperCase
           Runtime.numberToString "2026-01-01T00:00:00.000Z" "btc"
           (Sample.climbing 60)).
  simpl. lia.
Defined.

(** X2. The confidence of a report is an integer between 57 and 100 (the
    lower clamp at 0 never applies), and it is 100 exactly when all five
    indicators carry [buy] or all five carry [sell]. *)
Theorem confidence_bounds
    (toUpperCase : string -> string) (numberToString : Q -> string)
    (now symbol : string) (priceHistory : list PriceData) :
  (14 <= length priceHistory)%nat ->
  exists r c,
    generateTradingSignals toUpperCase numberToString now symbol priceHistory
    = Return r /\
    confidence r = inject_Z c /\ (57 <= c <= 100)%Z /\
    (c = 100%Z <-> map signal (indicators r) = repeat buy 5
                   \/ map signal (indicators r) = repeat sell 5).
Proof.
  intros Hlen.
  destruct (valid_series_returns toUpperCase numberToString now symbol
              priceHistory Hlen) as [r Hr].
  destruct (report_aggregate _ _ _ _ _ _ Hr)
    as ((s1 & s4 & b2 & b3 & c1 & c2 & Hs) & _ & Hc).
  rewrite indicatorScores_signals, Hs in Hc.
  destruct (aggregate_cases s1 s4 b2 b3 c1 c2) as (_ & _ & Hb & H100).
  eexists r, _. split; [exact Hr|]. split; [exact Hc|].
  split; [exact Hb|]. rewrite Hs. exact H100.
Qed.

Lemma confidence_bounds_witness :
  exists r c,
    Sample.run "2026-01-01T00:00:00.000Z" "btc" Sample.scenario = Return r /\
    confidence r = inject_Z c /\ (57 <= c <= 100)%Z.
Proof.
  destruct (confidence_bounds Runtime.toUpperCase Runtime.numberToString
              "2026-01-01T00:00:00.000Z" "btc" Sample.scenario)
    as (r & c & Hr & Hc & Hb & _).
  - simpl. lia.
  - exists r, c. repeat split; assumption || apply Hb.
Defined.

(** ** Signal conversions *)

(** X3. Scores and signals round-trip: the signal of a signal's score is
    the signal itself. *)
Theorem scoreToSignal_signalToScore (s : SignalStrength) :
  scoreToSignal (signalToScore s) = s.
Proof. destruct s; reflexivity. Qed.

(** The interpretation text of the RSI and its signal always go
    together: two RSI values get the same text exactly when they get the
    same signal. *)
Lemma rsiInterpretation_follows_signal (rsi1 rsi2 : Q) :
  rsiInterpretation rsi1 = rsiInterpretation rsi2
  <-> rsiToSignal rsi1 = rsiToSignal rsi2.
Proof.
  unfold rsiInterpretation, rsiToSignal.
  destruct (Qlt_bool rsi1 20), (Qlt_bool rsi1 30), (Qlt_bool 80 rsi1),
    (Qlt_bool 70 rsi1), (Qlt_bool rsi2 20), (Qlt_bool rsi2 30),
    (Qlt_bool 80 rsi2), (Qlt_bool 70 rsi2);
    split; intros H; try discriminate H; reflexivity.
Qed.

(** X4. A higher RSI never gives a more bullish signal. *)
Theorem rsiToSignal_antitone (rsi1 rsi2 : Q) :
  rsi1 <= rsi2 ->
  signalToScore (rsiToSignal rsi2) <= signalToScore (rsiToSignal rsi1).
Proof.
  intros Hle. unfold rsiToSignal.
  destruct (Qlt_bool rsi1 20) eqn:A1; destruct (Qlt_bool rsi1 30) eqn:A2;
    destruct (Qlt_bool 80 rsi1) eqn:A3; destruct (Qlt_bool 70 rsi1) eqn:A4;
    destruct (Qlt_bool rsi2 20) eqn:B1; destruct (Qlt_bool rsi2 30) eqn:B2;
    destruct (Qlt_bool 80 rsi2) eqn:B3; destruct (Qlt_bool 70 rsi2) eqn:B4;
    qbool; cbn [signalToScore]; try discriminate; exfalso; lra.
Qed.

Lemma rsiToSignal_antitone_witness :
  25 <= 75 /\
  signalToScore (rsiToSignal 75) <= signalToScore (rsiToSignal 25).
Proof.
  split; [discriminate|]. apply (rsiToSignal_antitone 25 75). discriminate.
Defined.

(** ** Moving averages *)

Lemma slice_whole {A} (a : list A) (k : Z) :
  (0 < k)%Z -> (Z.of_nat (length a) <= k)%Z -> Arr.slice a (- k) None = a.
Proof.
  intros Hk Hlen. rewrite slice_from_skipn. unfold Arr.rel.
  rewrite (proj2 (Z.ltb_lt (- k) 0)) by lia.
  rewrite Z.max_r by lia. reflexivity.
Qed.

(** X6. When a series has no more points than the period, the moving
    average is taken over the whole series; so on 14 to 20 points the
    SMA 20 and SMA 50 indicators of the report hold the same value, the
    mean of all prices, and the same signal. *)
Theorem short_series_sma_coincide
    (toUpperCase : string -> string) (numberToString : Q -> string)
    (now symbol : string) (priceHistory : list PriceData) :
  (14 <= length priceHistory <= 20)%nat ->
  exists r s20 s50,
    generateTradingSignals toUpperCase numberToString now symbol priceHistory
    = Return r /\
    indicatorNamed "SMA 20" r = Some s20 /\
    indicatorNamed "SMA 50" r = Some s50 /\
    value s20 = Arr.sum (map price priceHistory)
                / Arr.len (map price priceHistory) /\
    value s50 = value s20 /\ signal s50 = signal s20.
Proof.
  intros [Hlo Hhi].
  destruct (valid_series_returns toUpperCase numberToString now symbol
              priceHistory Hlo) as [r Hr].
  destruct (report_shape _ _ _ _ _ _ Hr)
    as (_ & _ & _ & (s20 & Hs20 & V20 & S20) & (s50 & Hs50 & V50 & S50) & _).
  assert (L : length (map price priceHistory) = length priceHistory)
    by apply length_map.
  assert (E20 : calculateSMA (map price priceHistory) 20
                = Arr.sum (map price priceHistory)
                  / Arr.len (map price priceHistory)).
  { unfold calculateSMA. rewrite slice_whole by lia. reflexivity. }
  assert (E50 : calculateSMA (map price priceHistory)
                  (Z.min 50 (Z.of_nat (length (map price priceHistory))))
                = Arr.sum (map price priceHistory)
                  / Arr.len (map price priceHistory)).
  { unfold calculateSMA. rewrite slice_whole by lia. reflexivity. }
  exists r, s20, s50. split; [exact Hr|]. split; [exact Hs20|].
  split; [exact Hs50|]. split; [now rewrite V20|].
  split; [now rewrite V50, V20, E50, E20|].
  now rewrite S50, S20, E50, E20.
Qed.

Lemma short_series_sma_coincide_witness :
  exists r s20 s50,
    Sample.run "2026-01-01T00:00:00.000Z" "btc" Sample.scenario = Return r /\
    indicatorNamed "SMA 20" r = Some s20 /\
    indicatorNamed "SMA 50" r = Some s50 /\
    value s50 = value s20 /\ signal s50 = signal s20.
Proof.
  destruct (short_series_sma_coincide Runtime.toUpperCase
              Runtime.numberToString "2026-01-01T00:00:00.000Z" "btc"
              Sample.scenario)
    as (r & s20 & s50 & Hr & H20 & H50 & _ & Hv & Hs).
  - simpl. lia.
  - exists r, s20, s50. repeat split; assumption.
Defined.

(** ** Trend and levels *)

(** X8. The trend and the moving-average indicators of a report never
    contradict each other: a [bullish] trend comes with [buy] on both
    SMA 20 and SMA 50, a [bearish] trend with [sell] on both. *)
Theorem trend_agrees_with_sma
    (toUpperCase : string -> string) (numberToString : Q -> string)
    (now symbol : string) (priceHistory : list PriceData) :
  (14 <= length priceHistory)%nat ->
  exists r s20 s50,
    generateTradingSignals toUpperCase numberToString now symbol priceHistory
    = Return r /\
    indicatorNamed "SMA 20" r = Some s20 /\
    indicatorNamed "SMA 50" r = Some s50 /\
    (trend r = bullish -> signal s20 = buy /\ signal s50 = buy) /\
    (trend r = bearish -> signal s20 = sell /\ signal s50 = sell).
Proof.
  intros Hlen.
  destruct (valid_series_returns toUpperCase numberToString now symbol
              priceHistory Hlen) as [r Hr].
  destruct (report_shape _ _ _ _ _ _ Hr)
    as (_ & Hcur & _ & (s20 & Hs20 & _ & S20) & (s50 & Hs50 & _ & S50)
        & _ & Ht & _).
  exists r, s20, s50. split; [exact Hr|]. split; [exact Hs20|].
  split; [exact Hs50|].
  rewrite S20, S50, Ht, Hcur. unfold determineTrend.
  set (prices := map price priceHistory).
  set (current := Arr.read prices (Z.of_nat (length prices) - 1)).
  set (sma20 := calculateSMA prices 20).
  set (sma50 := calculateSMA prices (Z.min 50 (Z.of_nat (length prices)))).
  destruct (Qlt_bool sma20 current) eqn:A; destruct (Qlt_bool sma50 sma20) eqn:B;
    destruct (Qlt_bool current sma20) eqn:C;
    destruct (Qlt_bool sma20 sma50) eqn:D;
    destruct (Qlt_bool sma50 current) eqn:E;
    destruct (Qlt_bool 0.02 _); destruct (Qlt_bool _ (-0.02));
    cbn [andb]; qbool;
    (split; intros H; try discriminate H; try (split; reflexivity);
     exfalso; lra).
Qed.

Lemma trend_agrees_with_sma_witness :
  exists r s20 s50,
    Sample.run "2026-01-01T00:00:00.000Z" "btc" (Sample.climbing 60)
    = Return r /\
    indicatorNamed "SMA 20" r = Some s20 /\
    indicatorNamed "SMA 50" r = Some s50 /\
    (trend r = bullish -> signal s20 = buy /\ signal s50 = buy).
Proof.
  destruct (trend_agrees_with_sma Runtime.toUpperCase Runtime.numberToString
              "2026-01-01T00:00:00.000Z" "btc" (Sample.climbing 60))
    as (r & s20 & s50 & Hr & H20 & H50 & Hb & _).
  - simpl. lia.
  - exists r, s20, s50. repeat split; try assumption; now apply Hb.
Defined.

Lemma sorted_nth_error_le (l : list Q) (i j : nat) (a b : Q) :
  Sorted Qle l -> (i <= j)%nat ->
  nth_error l i = Some a -> nth_error l j = Some b -> a <= b.
Proof.
  intros Hs. apply Sorted_StronglySorted in Hs;
    [|intros x y z; apply Qle_trans].
  revert i j. induction Hs as [|x l Hs IH Hx]; intros i j Hij Ha Hb.
  - destruct i; discriminate Ha.
  - destruct i as [|i]; destruct j as [|j]; cbn [nth_error] in *.
    + injection Ha as <-. injection Hb as <-. apply Qle_refl.
    + injection Ha as <-. apply nth_error_In in Hb.
      rewrite Forall_forall in Hx. now apply Hx.
    + lia.
    + apply (IH i j); [lia | assumption | assumption].
Qed.

Lemma get_nth_error {A} (a : list A) (i : Z) (x : A) :
  Arr.get a i = Some x -> (0 <= i)%Z /\ nth_error a (Z.to_nat i) = Some x.
Proof.
  unfold Arr.get. destruct (i <? 0)%Z eqn:E; [discriminate|].
  apply Z.ltb_ge in E. now split.
Qed.

(** X9. The support level of a report is never above its resistance
    level, and both are prices of the series. *)
Theorem support_below_resistance
    (toUpperCase : string -> string) (numberToString : Q -> string)
    (now symbol : string) (priceHistory : list PriceData) :
  (14 <= length priceHistory)%nat ->
  exists r,
    generateTradingSignals toUpperCase numberToString now symbol priceHistory
    = Return r /\
    supportLevel r <= resistanceLevel r /\
    In (supportLevel r) (map price priceHistory) /\
    In (resistanceLevel r) (map price priceHistory).
Proof.
  intros Hlen. enter_engine Hlen. eexists. split; [reflexivity|].
  cbn [supportLevel resistanceLevel].
  set (prices := map price priceHistory).
  assert (Hne : prices <> []).
  { subst prices. destruct priceHistory; [simpl in Hlen; lia | discriminate]. }
  destruct (calculateSupportResistance_get prices Hne) as [Hlo Hhi].
  apply get_nth_error in Hlo as [Plo Hlo]. apply get_nth_error in Hhi as [Phi Hhi].
  split; [|split].
  - refine (sorted_nth_error_le _ _ _ _ _ (sort_sorted prices) _ Hlo Hhi).
    apply Z2Nat.inj_le; try assumption.
    unfold Math_floor. apply Qfloor_resp_le.
    assert (0 <= inject_Z (Z.of_nat (length prices)))
      by (change 0 with (inject_Z 0); rewrite <- Zle_Qle; lia).
    lra.
  - apply (Permutation_in _ (sort_perm ascending prices)).
    eapply nth_error_In; eauto.
  - apply (Permutation_in _ (sort_perm ascending prices)).
    eapply nth_error_In; eauto.
Qed.

Lemma support_below_resistance_witness :
  exists r,
    Sample.run "2026-01-01T00:00:00.000Z" "btc" Sample.scenario = Return r /\
    supportLevel r <= resistanceLevel r.
Proof.
  destruct (support_below_resistance Runtime.toUpperCase
              Runtime.numberToString "2026-01-01T00:00:00.000Z" "btc"
              Sample.scenario) as (r & Hr & Hle & _).
  - simpl. lia.
  - exists r. split; assumption.
Defined.

(** ** Volume trend *)

(** X11. On non-negative volumes the volume trend is never below -1 (a
    fall of 100%); it is 0 on fewer than 10 volumes and when the earlier
    five-day volume is not positive. *)
Theorem calculateVolumeTrend_lower_bound (volumes : list Q) :
  (forall v, In v volumes -> 0 <= v) ->
  -1 <= calculateVolumeTrend volumes /\
  ((length volumes < 10)%nat -> calculateVolumeTrend volumes = 0) /\
  (Arr.sum (Arr.slice volumes (-10) (Some (-5)%Z)) <= 0 ->
   calculateVolumeTrend volumes = 0).
Proof.
  intros Hv. unfold calculateVolumeTrend.
  destruct (length volumes <? 10)%nat eqn:E.
  - repeat split; discriminate || reflexivity.
  - apply Nat.ltb_ge in E.
    assert (0 <= Arr.sum (Arr.slice volumes (-5) None)) as Hr.
    { apply sum_nonneg, Forall_forall. intros x Hx. apply Hv.
      now apply In_slice in Hx. }
    set (r := Arr.sum (Arr.slice volumes (-5) None)) in *.
    set (p := Arr.sum (Arr.slice volumes (-10) (Some (-5)%Z))) in *.
    assert (D : forall x, x / 5 == x * (1 # 5)) by (intros x; field).
    destruct (Qlt_bool 0 (p / 5)) eqn:Ep; qbool.
    + rewrite D in Ep. split; [|split].
      * apply Qle_shift_div_l; [rewrite D; exact Ep|]. rewrite !D. lra.
      * intros H. lia.
      * intros H. exfalso. lra.
    + repeat split; discriminate || reflexivity.
Qed.

Lemma calculateVolumeTrend_lower_bound_witness :
  -1 <= calculateVolumeTrend [9; 9; 9; 9; 9; 0; 0; 0; 0; 0].
Proof.
  apply (calculateVolumeTrend_lower_bound [9; 9; 9; 9; 9; 0; 0; 0; 0; 0]).
  intros v Hv. simpl in Hv.
  repeat (destruct Hv as [<-|Hv]; [discriminate|]). contradiction.
Defined.

Lemma report_volume_indicator
    (toUpperCase : string -> string) (numberToString : Q -> string)
    (now symbol : string) (priceHistory : list PriceData) (r : TradingSignal) :
  generateTradingSignals toUpperCase numberToString now symbol priceHistory
  = Return r ->
  exists i,
    indicatorNamed "Volume Trend" r = Some i /\
    value i = calculateVolumeTrend (map volume priceHistory) /\
    signal i = (if Qlt_bool 0 (value i) then buy
                else if Qlt_bool (value i) (-0.1) then sell else neutral) /\
    interpretation i
    = (if Qlt_bool 0.1 (value i) then "Volume increasing (confirms trend)"
       else if Qlt_bool (value i) (-0.1)
       then "Volume decreasing (weakening trend)"
       else "Volume stable")%string.
Proof.
  unfold generateTradingSignals.
  destruct (length priceHistory <? 14)%nat; [discriminate|].
  cbv zeta. intros H. injection H as <-.
  unfold indicatorNamed.
  cbn [indicators app find name String.eqb Ascii.eqb Bool.eqb].
  eexists. split; [reflexivity|]. repeat split.
Qed.

(** X12. The volume indicator signals [buy] as soon as the volume trend is
    positive, but its text speaks of an increase only above 10%: for a
    trend in (0, 0.1] the report carries signal [buy] with the text
    "Volume stable".  A [sell] always comes with the text of a decrease. *)
Theorem volume_signal_and_text
    (toUpperCase : string -> string) (numberToString : Q -> string)
    (now symbol : string) (priceHistory : list PriceData) :
  (14 <= length priceHistory)%nat ->
  exists r i,
    generateTradingSignals toUpperCase numberToString now symbol priceHistory
    = Return r /\
    indicatorNamed "Volume Trend" r = Some i /\
    (0 < value i <= 0.1 ->
     signal i = buy /\ interpretation i = "Volume stable"%string) /\
    (signal i = sell <->
     interpretation i = "Volume decreasing (weakening trend)"%string).
Proof.
  intros Hlen.
  destruct (valid_series_returns toUpperCase numberToString now symbol
              priceHistory Hlen) as [r Hr].
  destruct (report_volume_indicator _ _ _ _ _ _ Hr) as (i & Hi & _ & Hs & Ht).
  exists r, i. split; [exact Hr|]. split; [exact Hi|].
  rewrite Hs, Ht.
  destruct (Qlt_bool 0 (value i)) eqn:A; destruct (Qlt_bool 0.1 (value i)) eqn:B;
    destruct (Qlt_bool (value i) (-0.1)) eqn:C; qbool;
    (split; [intros [H1 H2]; try (split; reflexivity); exfalso; lra
            | split; intros H; try discriminate H; try reflexivity;
              exfalso; lra]).
Qed.

Lemma volume_signal_and_text_witness :
  exists r i,
    Sample.run "2026-01-01T00:00:00.000Z" "btc" Cases.slightlyBusier
    = Return r /\
    indicatorNamed "Volume Trend" r = Some i /\
    signal i = buy /\ interpretation i = "Volume stable"%string.
Proof.
  destruct (volume_signal_and_text Runtime.toUpperCase Runtime.numberToString
              "2026-01-01T00:00:00.000Z" "btc" Cases.slightlyBusier)
    as (r & i & Hr & Hi & Hm & _).
  - simpl. lia.
  - exists r, i. split; [exact Hr|]. split; [exact Hi|].
    apply Hm.
    destruct (report_volume_indicator _ _ _ _ _ _ Hr) as (i' & Hi' & Hv & _).
    rewrite Hi in Hi'. injection Hi' as <-. rewrite Hv.
    vm_compute. split; [reflexivity | discriminate].
Defined.

(** ** Symbols, the fetch and the signals route *)

Lemma upperChar_idem (c : ascii) :
  Runtime.upperChar (Runtime.upperChar c) = Runtime.upperChar c.
Proof. destruct c as [[] [] [] [] [] [] [] []]; reflexivity. Qed.

Lemma lowerChar_upperChar (c : ascii) :
  Text.lowerChar (Runtime.upperChar c) = Text.lowerChar c.
Proof. destruct c as [[] [] [] [] [] [] [] []]; reflexivity. Qed.

Lemma toUpperCase_idem (s : string) :
  Text.toUpperCase (Text.toUpperCase s) = Text.toUpperCase s.
Proof.
  unfold Text.toUpperCase.
  induction s as [|c s IH]; cbn [Runtime.toUpperCase]; [reflexivity|].
  now rewrite upperChar_idem, IH.
Qed.

Lemma toLowerCase_toUpperCase (s : string) :
  Text.toLowerCase (Text.toUpperCase s) = Text.toLowerCase s.
Proof.
  unfold Text.toUpperCase.
  induction s as [|c s IH]; cbn [Runtime.toUpperCase Text.toLowerCase];
    [reflexivity|].
  now rewrite lowerChar_upperChar, IH.
Qed.

Lemma length_toUpperCase (s : string) :
  String.length (Text.toUpperCase s) = String.length s.
Proof.
  unfold Text.toUpperCase.
  induction s as [|c s IH]; cbn [Runtime.toUpperCase String.length];
    [reflexivity | now rewrite IH].
Qed.

Lemma same_upper_same_lower (s1 s2 : string) :
  Text.toUpperCase s1 = Text.toUpperCase s2 ->
  Text.toLowerCase s1 = Text.toLowerCase s2.
Proof.
  intros H. rewrite <- (toLowerCase_toUpperCase s1), H.
  apply toLowerCase_toUpperCase.
Qed.

Ltac decide_key k :=
  repeat match goal with
  | |- context [String.eqb k ?s] =>
      let E := fresh "E" in
      destruct (String.eqb k s) eqn:E;
      [apply String.eqb_eq in E; subst k; reflexivity|]
  end.

(** The table of the price service is that of the signal service with
    three more keys. *)
Lemma price_lookup_cases (k : string) :
  Text.lookup k COINGECKO_IDS
  = match Text.lookup k coinGeckoMapping with
    | Some v => Some v
    | None => if String.eqb k "BASE" then Some "base"%string
              else if String.eqb k "WIF" then Some "dogwifhat"%string
              else if String.eqb k "BONK" then Some "bonk"%string
              else None
    end.
Proof.
  unfold COINGECKO_IDS, coinGeckoMapping. cbn [Text.lookup].
  decide_key k. reflexivity.
Qed.

(** X14. The price service and the signal service resolve an ASCII symbol
    to the same CoinGecko id, whatever its case, with one exception: a
    symbol that upper-cases to WIF is "dogwifhat" for the price service
    and "wif" for the signal service. *)
Theorem coin_ids_agree_except_wif (symbol : string) :
  Text.isAscii symbol = true ->
  (Text.toUpperCase symbol <> "WIF"%string ->
   priceCoinId symbol = symbolToCoinGeckoId symbol) /\
  (Text.toUpperCase symbol = "WIF"%string ->
   priceCoinId symbol = "dogwifhat"%string /\
   symbolToCoinGeckoId symbol = "wif"%string).
Proof.
  intros _. unfold priceCoinId, symbolToCoinGeckoId.
  rewrite price_lookup_cases.
  pose proof (toLowerCase_toUpperCase symbol) as Hl.
  set (k := Text.toUpperCase symbol) in *.
  split.
  - intros Hk.
    destruct (Text.lookup k coinGeckoMapping) as [v|] eqn:E; [reflexivity|].
    destruct (String.eqb k "BASE") eqn:E1.
    { apply String.eqb_eq in E1. rewrite E1 in Hl. now rewrite <- Hl. }
    destruct (String.eqb k "WIF") eqn:E2.
    { apply String.eqb_eq in E2. contradiction. }
    destruct (String.eqb k "BONK") eqn:E3.
    { apply String.eqb_eq in E3. rewrite E3 in Hl. now rewrite <- Hl. }
    reflexivity.
  - intros Hk. rewrite Hk in *. split; [reflexivity|].
    now rewrite <- Hl.
Qed.

Lemma coin_ids_agree_except_wif_witness :
  priceCoinId "btc" = symbolToCoinGeckoId "btc" /\
  priceCoinId "Wif" = "dogwifhat"%string /\
  symbolToCoinGeckoId "Wif" = "wif"%string.
Proof.
  split.
  - apply (coin_ids_agree_except_wif "btc"); [reflexivity | discriminate].
  - apply (coin_ids_agree_except_wif "Wif"); reflexivity.
Defined.

Lemma symbolToCoinGeckoId_upper (s1 s2 : string) :
  Text.toUpperCase s1 = Text.toUpperCase s2 ->
  symbolToCoinGeckoId s1 = symbolToCoinGeckoId s2.
Proof.
  intros H. unfold symbolToCoinGeckoId.
  now rewrite H, (same_upper_same_lower s1 s2 H).
Qed.

Lemma engine_symbol_upper
    (toUpperCase : string -> string) (numberToString : Q -> string)
    (now s1 s2 : string) (priceHistory : list PriceData) :
  toUpperCase s1 = toUpperCase s2 ->
  generateTradingSignals toUpperCase numberToString now s1 priceHistory
  = generateTradingSignals toUpperCase numberToString now s2 priceHistory.
Proof.
  intros H. unfold generateTradingSignals, generateSummary.
  now rewrite H.
Qed.

Lemma upper_empty (s : string) :
  String.eqb (Text.toUpperCase s) "" = String.eqb s "".
Proof. destruct s; reflexivity. Qed.

(** X15. The signals endpoint does not depend on the case of the symbol:
    two ASCII symbols that differ only in case get the same response (same
    fetch, same clock readings), down to the report's symbol and summary. *)
Theorem signalsRoute_case_insensitive
    (axiosGet : string -> result MarketChart) (numberToString : Q -> string)
    (now sent : string) (s1 s2 : string) :
  Text.isAscii s1 = true -> Text.isAscii s2 = true ->
  Text.toUpperCase s1 = Text.toUpperCase s2 ->
  signalsRoute axiosGet numberToString now sent s1
  = signalsRoute axiosGet numberToString now sent s2.
Proof.
  intros _ _ H. unfold signalsRoute, tradingSignalsFor, fetchPriceHistory.
  rewrite <- (upper_empty s1), <- (upper_empty s2).
  rewrite <- (length_toUpperCase s1), <- (length_toUpperCase s2), H.
  rewrite (symbolToCoinGeckoId_upper s1 s2 H).
  destruct (_ || _); [reflexivity|].
  destruct (axiosGet (symbolToCoinGeckoId s2)); [|reflexivity].
  cbv zeta. now rewrite (engine_symbol_upper _ _ _ s1 s2 _ H).
Qed.

Lemma signalsRoute_case_insensitive_witness :
  signalsRoute Provider.get Runtime.numberToString
               "2026-01-01T00:00:00.000Z" "2026-01-01T00:00:00.002Z" "btc"
  = signalsRoute Provider.get Runtime.numberToString
                 "2026-01-01T00:00:00.000Z" "2026-01-01T00:00:00.002Z" "BtC".
Proof.
  apply signalsRoute_case_insensitive; reflexivity.
Defined.

Lemma map_map_from {A B C} (g : B -> C) (f : A -> nat -> B) (i : nat)
    (l : list A) :
  map g (Arr.map_from f i l) = Arr.map_from (fun x j => g (f x j)) i l.
Proof.
  revert i. induction l as [|x l IH]; intros i; cbn [Arr.map_from map];
    [reflexivity | now rewrite IH].
Qed.

Lemma map_from_no_index {A B} (f : A -> B) (i : nat) (l : list A) :
  Arr.map_from (fun x _ => f x) i l = map f l.
Proof.
  revert i. induction l as [|x l IH]; intros i; cbn [Arr.map_from map];
    [reflexivity | now rewrite IH].
Qed.

Lemma volumeAt_value (volumes : list (Z * Q)) (i : nat) :
  volumeAt volumes i == nth i (map snd volumes) 0.
Proof.
  unfold volumeAt. destruct (nth_error volumes i) as [v|] eqn:E.
  - rewrite (nth_error_nth _ _ 0 (map_nth_error snd _ _ E)).
    destruct (Qeq_bool (snd v) 0) eqn:Z0; qbool; [now rewrite Z0 | reflexivity].
  - apply nth_error_None in E.
    rewrite nth_overflow by (now rewrite length_map). reflexivity.
Qed.

(** X16. When the provider answers, [fetchPriceHistory] returns one point
    per price entry, with the timestamps and prices of the answer in
    order; the volume of point [i] is the [i]-th volume of the answer, and
    0 when the answer has no such entry. *)
Theorem fetchPriceHistory_shape
    (axiosGet : string -> result MarketChart) (symbol : string)
    (chart : MarketChart) :
  axiosGet (symbolToCoinGeckoId symbol) = Return chart ->
  exists priceHistory,
    fetchPriceHistory axiosGet symbol = Return priceHistory /\
    map timestamp priceHistory = map fst (chart_prices chart) /\
    map price priceHistory = map snd (chart_prices chart) /\
    forall i, (i < length priceHistory)%nat ->
      nth i (map volume priceHistory) 0
      == nth i (map snd (chart_volumes chart)) 0.
Proof.
  intros H. unfold fetchPriceHistory. rewrite H. cbv zeta.
  eexists. split; [reflexivity|].
  rewrite !map_map_from. cbn [timestamp price volume].
  rewrite !map_from_no_index.
  split; [reflexivity|]. split; [reflexivity|].
  intros i Hi. rewrite length_map_from in Hi.
  rewrite (nth_map_from _ 0 i _ (0%Z, 0) 0) by exact Hi.
  apply volumeAt_value.
Qed.

Lemma fetchPriceHistory_shape_witness :
  exists priceHistory,
    fetchPriceHistory Provider.get "BTC" = Return priceHistory /\
    map price priceHistory
    = [100; 102; 101; 103; 105; 104; 106; 108; 107; 109; 111; 110; 112; 114]
    /\ nth 12 (map volume priceHistory) 0 == 1000
    /\ nth 13 (map volume priceHistory) 0 == 0.
Proof.
  destruct (fetchPriceHistory_shape Provider.get "BTC" Provider.scenarioChart)
    as (ph & Hf & _ & Hp & Hv).
  - reflexivity.
  - assert (L : length ph = 14%nat)
      by (rewrite <- (length_map price), Hp; reflexivity).
    exists ph. split; [exact Hf|]. split; [exact Hp|].
    split; [rewrite Hv by lia | rewrite Hv by lia]; reflexivity.
Defined.

(** Settle one case of a route: the response is explicit. *)
Ltac route_case :=
  cbn [status error success data];
  repeat (split || intro);
  repeat match goal with
  | H : _ /\ _ |- _ => destruct H
  | H : Return _ = Return _ |- _ => injection H as H; subst
  | H : Throw _ = Throw _ |- _ => injection H as H; subst
  end;
  try reflexivity; try discriminate; try contradiction; try lia;
  try congruence; try tauto; try (eexists; reflexivity).

(** X17. The status of the signals endpoint, for an ASCII symbol: 400
    ("Invalid symbol") exactly when the symbol is empty or longer than 10
    characters; otherwise 500 when the provider fails (its message
    prefixed) or answers with fewer than 14 prices ("Insufficient price
    history ..."), and 200 with a report when it answers with at least
    14. *)
Theorem signalsRoute_status
    (axiosGet : string -> result MarketChart) (numberToString : Q -> string)
    (now sent : string) (symbol : string) :
  Text.isAscii symbol = true ->
  let resp := signalsRoute axiosGet numberToString now sent symbol in
  let valid := symbol <> ""%string /\ (String.length symbol <= 10)%nat in
  (status resp = 400%Z <-> ~ valid) /\
  (~ valid -> error resp = Some "Invalid symbol"%string) /\
  (forall e, valid -> axiosGet (symbolToCoinGeckoId symbol) = Throw e ->
     status resp = 500%Z /\
     error resp
     = Some ("Failed to fetch price history: " ++ message e)%string) /\
  (forall chart, valid ->
     axiosGet (symbolToCoinGeckoId symbol) = Return chart ->
     (length (chart_prices chart) < 14)%nat ->
     status resp = 500%Z /\ error resp = Some (message InsufficientHistory)) /\
  (forall chart, valid ->
     axiosGet (symbolToCoinGeckoId symbol) = Return chart ->
     (14 <= length (chart_prices chart))%nat ->
     status resp = 200%Z /\ success resp = true /\ error resp = None /\
     exists r, data resp = Some r).
Proof.
  intros _ resp valid. subst resp valid.
  unfold signalsRoute, tradingSignalsFor, fetchPriceHistory.
  destruct (String.eqb symbol "") eqn:E0.
  { apply String.eqb_eq in E0. cbn [orb]. route_case. }
  apply String.eqb_neq in E0.
  destruct (10 <? String.length symbol)%nat eqn:E1.
  { apply Nat.ltb_lt in E1. cbn [orb]. route_case. }
  apply Nat.ltb_ge in E1. cbn [orb].
  destruct (axiosGet (symbolToCoinGeckoId symbol)) as [chart|e] eqn:Eg.
  - cbv zeta. unfold generateTradingSignals. rewrite length_map_from.
    destruct (length (chart_prices chart) <? 14)%nat eqn:E14.
    + apply Nat.ltb_lt in E14. route_case.
    + apply Nat.ltb_ge in E14. cbv zeta. route_case.
  - route_case.
Qed.

Lemma signalsRoute_status_witness :
  status (signalsRoute Provider.get Runtime.numberToString
            "2026-01-01T00:00:00.000Z" "2026-01-01T00:00:00.002Z" "newcoin")
  = 500%Z /\
  error (signalsRoute Provider.get Runtime.numberToString
           "2026-01-01T00:00:00.000Z" "2026-01-01T00:00:00.002Z" "newcoin")
  = Some "Insufficient price history for technical analysis"%string.
Proof.
  destruct (signalsRoute_status Provider.get Runtime.numberToString
              "2026-01-01T00:00:00.000Z" "2026-01-01T00:00:00.002Z" "newcoin")
    as (_ & _ & _ & Hshort & _); [reflexivity|].
  apply (Hshort Provider.newCoinChart).
  - split; [discriminate | simpl; lia].
  - reflexivity.
  - simpl. lia.
Defined.

(** ** The price service *)

Lemma orZero_value (x : option Q) :
  orZero x == match x with Some v => v | None => 0 end.
Proof.
  unfold orZero. destruct x as [v|]; [|reflexivity].
  destruct (Qeq_bool v 0) eqn:E; qbool; [now rewrite E | reflexivity].
Qed.

Lemma most_liquid_fold (cs : list DexPair) (c : DexPair) :
  let pick := fun a b : DexPair =>
    if Qlt_bool (orZero (pair_liquidityUsd b)) (orZero (pair_liquidityUsd a))
    then a else b in
  In (fold_left pick cs c) (c :: cs) /\
  forall p, In p (c :: cs) ->
    orZero (pair_liquidityUsd p)
    <= orZero (pair_liquidityUsd (fold_left pick cs c)).
Proof.
  intros pick. revert c. induction cs as [|b cs IH]; intros c.
  - cbn [fold_left]. split; [now left|].
    intros p [<-|[]]. apply Qle_refl.
  - cbn [fold_left]. destruct (IH (pick c b)) as [Hin Hmax]. split.
    + destruct Hin as [Hin|Hin]; [|right; now right].
      rewrite <- Hin. unfold pick.
      destruct (Qlt_bool _ _); [now left | right; now left].
    + assert (Hc : orZero (pair_liquidityUsd c)
                   <= orZero (pair_liquidityUsd (pick c b)) /\
                   orZero (pair_liquidityUsd b)
                   <= orZero (pair_liquidityUsd (pick c b))).
      { unfold pick.
        destruct (Qlt_bool (orZero (pair_liquidityUsd b))
                           (orZero (pair_liquidityUsd c))) eqn:E; qbool;
          split; lra. }
      pose proof (Hmax (pick c b) (or_introl eq_refl)) as Hp.
      intros p [<-|[<-|Hp']].
      * lra.
      * lra.
      * apply Hmax. now right.
Qed.

(** X18. The pair a DexScreener price is read from is always a pair of the
    answer.  When the answer has pairs on the requested chain it is one of
    them, and none of them is more liquid; when it has none, it is the
    first pair of the answer, on whatever chain that is. *)
Theorem selectPair_spec (dexChain : string) (first : DexPair)
    (others : list DexPair) :
  let pairs := first :: others in
  let chosen := selectPair dexChain first others in
  In chosen pairs /\
  ((exists p, In p pairs /\ pair_chainId p = dexChain) ->
   pair_chainId chosen = dexChain /\
   forall p, In p pairs -> pair_chainId p = dexChain ->
     orZero (pair_liquidityUsd p) <= orZero (pair_liquidityUsd chosen)) /\
  ((forall p, In p pairs -> pair_chainId p <> dexChain) -> chosen = first).
Proof.
  intros pairs chosen. subst chosen. unfold selectPair. fold pairs.
  set (onChain := fun p => String.eqb (pair_chainId p) dexChain).
  assert (Hf : forall p, In p (filter onChain pairs)
                         <-> In p pairs /\ pair_chainId p = dexChain).
  { intros p. rewrite filter_In. unfold onChain.
    now rewrite String.eqb_eq. }
  destruct (filter onChain pairs) as [|c cs] eqn:E.
  - split; [now left|]. split.
    + intros (p & Hp & Hc). exfalso. apply (proj2 (Hf p)). now split.
    + reflexivity.
  - unfold Arr.reduce.
    destruct (most_liquid_fold cs c) as [Hin Hmax]. cbv zeta in Hin, Hmax.
    apply Hf in Hin as [Hin Hchain].
    split; [exact Hin|]. split.
    + intros _. split; [exact Hchain|].
      intros p Hp Hc. apply Hmax. apply Hf. now split.
    + intros Hnone. exfalso. apply (Hnone c); apply (Hf c); now left.
Qed.

(** X19. A price that comes from DexScreener has a 24h change equal to
    price * percentage / 100, carries 0 for the 24h high and low and the
    all-time high, and source "dexscreener"; an answer without pairs, like
    a failed request, ends in an error whose message starts with "Failed
    to fetch price from DexScreener: ". *)
Theorem dexScreener_price_shape
    (dexGet : string -> result (option (list DexPair)))
    (now contractAddress chain : string) :
  match getTokenPriceFromDexScreener dexGet now contractAddress chain with
  | Return tp =>
      tp_priceChange24h tp
      == tp_price tp * tp_priceChangePercentage24h tp / 100 /\
      tp_high24h tp = 0 /\ tp_low24h tp = 0 /\ tp_ath tp = 0 /\
      tp_source tp = "dexscreener"%string /\
      exists first others,
        dexGet contractAddress = Return (Some (first :: others))
  | Throw e =>
      exists m,
        message e = ("Failed to fetch price from DexScreener: " ++ m)%string /\
        (dexGet contractAddress = Return None \/
         dexGet contractAddress = Return (Some []) ->
         m = ("No trading pairs found for contract " ++ contractAddress)%string)
  end.
Proof.
  unfold getTokenPriceFromDexScreener. cbv zeta.
  destruct (dexGet contractAddress) as [[[|first others]|]|e] eqn:E.
  - eexists. split; [reflexivity|]. reflexivity.
  - cbn [tp_priceChange24h tp_price tp_priceChangePercentage24h tp_high24h
         tp_low24h tp_ath tp_source].
    split; [|repeat split; eexists _, _; reflexivity].
    rewrite orZero_value.
    destruct (pair_priceUsd (selectPair (dexChainOf chain) first others))
      as [p|] eqn:Ep; cbn [option_map orZero].
    + destruct (Qeq_bool p 0) eqn:Z0; qbool; [rewrite Z0|]; reflexivity.
    + unfold Qdiv. ring.
  - eexists. split; [reflexivity|]. reflexivity.
  - eexists. split; [reflexivity|]. intros [H|H]; discriminate H.
Qed.

(** X20. The price endpoint answers 400 exactly when neither a symbol nor a
    contract address is given.  A contract address with a chain goes to
    DexScreener whatever the symbol; without a chain the address is
    ignored: the symbol goes to CoinGecko, and with no symbol either the
    request passes the handler's check but fails in [getTokenPrice], a 500
    with "Either symbol or contractAddress+chain must be provided". *)
Theorem priceRoute_dispatch
    (dexGet : string -> result (option (list DexPair)))
    (gecko : string -> result TokenPrice)
    (now sent : string) (query : TokenPriceRequest) :
  let resp := priceRoute dexGet gecko now sent query in
  let hasSymbol := truthy (req_symbol query) = true in
  let hasAddress := truthy (req_contractAddress query) = true in
  let hasChain := truthy (req_chain query) = true in
  (status resp = 400%Z <-> ~ hasSymbol /\ ~ hasAddress) /\
  (hasAddress -> hasChain ->
   getTokenPrice dexGet gecko now query
   = getTokenPriceFromDexScreener dexGet now
       (given (req_contractAddress query)) (given (req_chain query))) /\
  (~ (hasAddress /\ hasChain) -> hasSymbol ->
   getTokenPrice dexGet gecko now query = gecko (given (req_symbol query))) /\
  (hasAddress -> ~ hasChain -> ~ hasSymbol ->
   status resp = 500%Z /\
   error resp
   = Some "Either symbol or contractAddress+chain must be provided"%string).
Proof.
  intros resp hasSymbol hasAddress hasChain.
  subst resp hasSymbol hasAddress hasChain.
  unfold priceRoute, getTokenPrice.
  destruct (truthy (req_symbol query)), (truthy (req_contractAddress query)),
    (truthy (req_chain query)); cbn [negb andb];
    try destruct (getTokenPriceFromDexScreener _ _ _ _);
    try destruct (gecko _);
    route_case.
Qed.

(** ** The portfolio service *)

Lemma insertBy_perm {A} (cmp : A -> A -> Q) (x : A) (l : list A) :
  Permutation (Seq.insertBy cmp x l) (x :: l).
Proof.
  induction l as [|y l IH]; cbn [Seq.insertBy].
  - apply Permutation_refl.
  - destruct (Qlt_bool (cmp x y) 0).
    + apply Permutation_refl.
    + eapply perm_trans; [apply perm_skip, IH | apply perm_swap].
Qed.

Lemma sortBy_acc_perm {A} (cmp : A -> A -> Q) (a acc : list A) :
  Permutation (fold_left (fun s x => Seq.insertBy cmp x s) a acc) (acc ++ a).
Proof.
  revert acc. induction a as [|x a IH]; intros acc; cbn [fold_left].
  - now rewrite app_nil_r.
  - eapply perm_trans; [apply IH|].
    eapply perm_trans; [apply Permutation_app_tail, insertBy_perm|].
    cbn [app]. apply Permutation_middle.
Qed.

Lemma sortBy_perm {A} (cmp : A -> A -> Q) (a : list A) :
  Permutation (Seq.sortBy cmp a) a.
Proof. apply (sortBy_acc_perm cmp a []). Qed.

Section ByValue.

(** The order of the holdings of an analysis: larger value first. *)
Let cmp := fun a b : TokenHolding => h_valueUsd b - h_valueUsd a.
Let before := fun a b : TokenHolding => h_valueUsd b <= h_valueUsd a.

Lemma insertBy_value_hdrel (x y : TokenHolding) (l : list TokenHolding) :
  before y x -> HdRel before y l -> HdRel before y (Seq.insertBy cmp x l).
Proof.
  intros Hyx H. destruct l as [|z l]; cbn [Seq.insertBy].
  - now constructor.
  - destruct (Qlt_bool (cmp x z) 0); constructor; [exact Hyx|].
    now inversion H.
Qed.

Lemma insertBy_value_sorted (x : TokenHolding) (l : list TokenHolding) :
  Sorted before l -> Sorted before (Seq.insertBy cmp x l).
Proof.
  induction 1 as [|y l Hs IH Hd]; cbn [Seq.insertBy].
  - repeat constructor.
  - destruct (Qlt_bool (cmp x y) 0) eqn:E; qbool; unfold cmp in E.
    + constructor; [now constructor|]. constructor. unfold before. lra.
    + constructor; [exact IH|].
      apply insertBy_value_hdrel; [unfold before; lra | exact Hd].
Qed.

Lemma sortBy_value_sorted (a : list TokenHolding) :
  Sorted before (Seq.sortBy cmp a).
Proof.
  unfold Seq.sortBy. generalize (@nil TokenHolding) (Sorted_nil before).
  induction a as [|x a IH]; intros acc Hacc; cbn [fold_left].
  - exact Hacc.
  - apply IH, insertBy_value_sorted, Hacc.
Qed.

End ByValue.

Lemma fold_add_total {A} (f : A -> Q) (l : list A) (a : Q) :
  fold_left (fun sum x => sum + f x) l a == a + Spec.total (map f l).
Proof.
  revert a. induction l as [|x l IH]; intros a; cbn [fold_left map Spec.total].
  - lra.
  - rewrite IH. lra.
Qed.

Lemma valueOf_total (l : list TokenHolding) :
  valueOf l == Spec.total (map h_valueUsd l).
Proof.
  unfold valueOf, Arr.reduce. rewrite fold_add_total. lra.
Qed.

Lemma total_perm (l l' : list Q) :
  Permutation l l' -> Spec.total l == Spec.total l'.
Proof.
  induction 1; cbn [Spec.total]; lra.
Qed.

Lemma Math_min_max_range (x : Q) : 0 <= Math_min 100 (Math_max 0 x) <= 100.
Proof.
  unfold Math_min, Math_max.
  destruct (Qlt_bool 0 x) eqn:A;
    [destruct (Qlt_bool x 100) eqn:B | destruct (Qlt_bool 0 100) eqn:B];
    qbool; split; try lra; discriminate.
Qed.

Lemma Math_min_max_comp (x y : Q) :
  x == y -> Math_min 100 (Math_max 0 x) == Math_min 100 (Math_max 0 y).
Proof.
  intros E. unfold Math_min, Math_max.
  destruct (Qlt_bool 0 x) eqn:A, (Qlt_bool 0 y) eqn:B;
    [destruct (Qlt_bool x 100) eqn:C, (Qlt_bool y 100) eqn:D | | |];
    qbool; try lra; reflexivity.
Qed.

Lemma total_nonneg (l : list Q) :
  (forall x, In x l -> 0 <= x) -> 0 <= Spec.total l.
Proof.
  induction l as [|x l IH]; intros H; cbn [Spec.total]; [discriminate|].
  assert (0 <= x) by (apply H; now left).
  assert (0 <= Spec.total l) by (apply IH; intros y Hy; apply H; now right).
  lra.
Qed.

Lemma total_app (l1 l2 : list Q) :
  Spec.total (l1 ++ l2) == Spec.total l1 + Spec.total l2.
Proof.
  induction l1 as [|x l1 IH]; cbn [app Spec.total]; [ring|].
  rewrite IH. ring.
Qed.

Lemma total_zero_in {A} (f : A -> Q) (l : list A) :
  (forall x, In x l -> f x == 0) -> Spec.total (map f l) == 0.
Proof.
  intros H. induction l as [|x l IH]; cbn [map Spec.total]; [reflexivity|].
  rewrite IH by (intros; apply H; now right).
  rewrite (H x) by now left. reflexivity.
Qed.

(** Among non-negative values no one exceeds the sum. *)
Lemma total_ge_member {A} (f : A -> Q) (l : list A) (x : A) :
  (forall y, In y l -> 0 <= f y) -> In x l -> f x <= Spec.total (map f l).
Proof.
  intros H Hx. induction l as [|y l IH]; [contradiction|].
  cbn [map Spec.total].
  assert (0 <= f y) by (apply H; now left).
  assert (0 <= Spec.total (map f l)).
  { apply total_nonneg. intros z Hz. apply in_map_iff in Hz as (u & <- & Hu).
    apply H. now right. }
  destruct Hx as [<-|Hx]; [lra|].
  assert (f x <= Spec.total (map f l))
    by (apply IH; [intros; apply H; now right | exact Hx]).
  lra.
Qed.

Lemma share_range (part total : Q) :
  0 <= part <= total ->
  0 <= (if Qlt_bool 0 total then part / total * 100 else 0) <= 100.
Proof.
  intros [H0 H1]. destruct (Qlt_bool 0 total) eqn:E; qbool;
    [|split; discriminate].
  assert (0 <= part / total) by (apply Qle_shift_div_l; lra).
  assert (part / total <= 1) by (apply Qle_shift_div_r; lra).
  split; lra.
Qed.

Lemma filterM_pure {A} (f : A -> bool) (a : list A) :
  Seq.filterM (fun x => Return (f x)) a = Return (filter f a).
Proof.
  induction a as [|x a IH]; cbn [Seq.filterM filter]; [reflexivity|].
  rewrite IH. now destruct (f x).
Qed.


(** What [analyzePortfolio] returns, when it returns. *)
Lemma analyzePortfolio_returned (now walletAddress chain : string)
    (holdings : list TokenHolding) (a : PortfolioAnalysis) :
  analyzePortfolio now walletAddress chain holdings = Return a ->
  let total := valueOf holdings in
  let share := fun h =>
    if Qlt_bool 0 total then (h_valueUsd h / total) * 100 else 0 in
  let sorted :=
    Seq.sortBy (fun x y => h_valueUsd y - h_valueUsd x)
               (map (fun h => withPercentage h (share h)) holdings) in
  pa_walletAddress a = walletAddress /\ pa_chain a = chain /\
  pa_analysisTimestamp a = now /\
  pa_totalValueUsd a = total /\
  pa_holdings a = sorted /\
  pa_tokenCount a = length sorted /\
  pa_topHolding a = Arr.get sorted 0 /\
  pa_diversificationScore a
  = Math_min 100
      (Math_max 0
         (100 - Arr.reduce (fun sum h => sum + Math_pow2 (h_percentage h)) 0
                           sorted / 100)).
Proof.
  unfold analyzePortfolio.
  destruct (Seq.filterM _ _) as [stablecoins|e]; [|discriminate].
  intros E. injection E as <-. cbv zeta.
  cbn [pa_walletAddress pa_chain pa_analysisTimestamp pa_totalValueUsd
       pa_holdings pa_tokenCount pa_topHolding pa_diversificationScore].
  repeat split.
Qed.

(** [analyzePortfolio] returns unless the chain is an inherited name and
    there is a holding for the stablecoin filter to look at. *)
Lemma analyzePortfolio_returns (now walletAddress chain : string)
    (holdings : list TokenHolding) :
  holdings = [] \/ inheritedKey (Text.toLowerCase chain) = false ->
  exists a, analyzePortfolio now walletAddress chain holdings = Return a.
Proof.
  intros [-> | H]; unfold analyzePortfolio.
  - cbn [map]. unfold Seq.sortBy at 1. cbn [fold_left Seq.filterM].
    eexists. reflexivity.
  - unfold Seq.property at 1. rewrite H.
    destruct (Seq.lookup (Text.toLowerCase chain) STABLECOINS);
      cbv beta iota; rewrite filterM_pure; eexists; reflexivity.
Qed.


Section Analysis.

Variables (now walletAddress chain : string) (holdings : list TokenHolding).
Variable a : PortfolioAnalysis.
Hypothesis Ha : analyzePortfolio now walletAddress chain holdings = Return a.

Let total := valueOf holdings.
Let share := fun h : TokenHolding =>
  if Qlt_bool 0 total then (h_valueUsd h / total) * 100 else 0.

(** The holdings of the analysis: those of the wallet with their
    percentage, the more valuable first. *)
Lemma analysis_holdings :
  Permutation (pa_holdings a)
              (map (fun h => withPercentage h (share h)) holdings) /\
  Sorted (fun x y => h_valueUsd y <= h_valueUsd x) (pa_holdings a).
Proof.
  destruct (analyzePortfolio_returned _ _ _ _ _ Ha)
    as (_ & _ & _ & _ & -> & _).
  split; [apply sortBy_perm | apply sortBy_value_sorted].
Qed.

Lemma analysis_values :
  Permutation (map h_valueUsd (pa_holdings a)) (map h_valueUsd holdings).
Proof.
  destruct analysis_holdings as [Hp _].
  eapply perm_trans; [apply Permutation_map, Hp|].
  rewrite map_map. cbn [withPercentage h_valueUsd]. apply Permutation_refl.
Qed.

Lemma analysis_percentages :
  Permutation (map h_percentage (pa_holdings a)) (map share holdings).
Proof.
  destruct analysis_holdings as [Hp _].
  eapply perm_trans; [apply Permutation_map, Hp|].
  rewrite map_map. cbn [withPercentage h_percentage]. apply Permutation_refl.
Qed.

Lemma analysis_member (h : TokenHolding) :
  In h (pa_holdings a) ->
  exists h0, In h0 holdings /\ h = withPercentage h0 (share h0).
Proof.
  destruct analysis_holdings as [Hp _].
  intros Hin. apply (Permutation_in _ Hp) in Hin.
  apply in_map_iff in Hin as (h0 & <- & H0). now exists h0.
Qed.

(** The concentration index, over the wallet's holdings in the order they
    came in. *)
Lemma analysis_score :
  pa_diversificationScore a
  == Math_min 100
       (Math_max 0
          (100 - Spec.total (map (fun h => share h * share h) holdings) / 100)).
Proof.
  pose proof analysis_percentages as Hp.
  destruct (analyzePortfolio_returned _ _ _ _ _ Ha)
    as (_ & _ & _ & _ & Eh & _ & _ & ->).
  cbv zeta in Eh. rewrite <- Eh.
  apply Math_min_max_comp.
  unfold Arr.reduce. rewrite fold_add_total.
  rewrite <- (map_map h_percentage Math_pow2).
  rewrite (total_perm _ _ (Permutation_map Math_pow2 Hp)).
  rewrite map_map. unfold Math_pow2.
  rewrite Qplus_0_l. reflexivity.
Qed.

End Analysis.

(** X21. In a portfolio analysis the total value is the sum of the
    holdings' values, and every holding's percentage is its value over
    that total, times 100, or 0 when the total is not positive; for
    holdings of non-negative value every percentage lies between 0 and
    100. *)
Theorem portfolio_percentages (now walletAddress chain : string)
    (holdings : list TokenHolding) :
  holdings = [] \/ inheritedKey (Text.toLowerCase chain) = false ->
  exists a,
    analyzePortfolio now walletAddress chain holdings = Return a /\
    pa_totalValueUsd a = valueOf holdings /\
    (0 < pa_totalValueUsd a ->
     forall h, In h (pa_holdings a) ->
       h_percentage h == h_valueUsd h / pa_totalValueUsd a * 100) /\
    (pa_totalValueUsd a <= 0 ->
     forall h, In h (pa_holdings a) -> h_percentage h = 0) /\
    ((forall h, In h holdings -> 0 <= h_valueUsd h) ->
     forall h, In h (pa_holdings a) -> 0 <= h_percentage h <= 100).
Proof.
  intros Hret.
  destruct (analyzePortfolio_returns now walletAddress chain holdings Hret)
    as [a Ha].
  exists a. split; [exact Ha|].
  destruct (analyzePortfolio_returned _ _ _ _ _ Ha)
    as (_ & _ & _ & Et & _).
  cbv zeta in Et. rewrite Et. split; [reflexivity|].
  split; [|split].
  - intros Hpos h Hh.
    apply (analysis_member _ _ _ _ _ Ha) in Hh as (h0 & _ & ->).
    cbn [withPercentage h_percentage h_valueUsd].
    now rewrite (proj2 (Qlt_bool_iff 0 (valueOf holdings)) Hpos).
  - intros Hle h Hh.
    apply (analysis_member _ _ _ _ _ Ha) in Hh as (h0 & _ & ->).
    cbn [withPercentage h_percentage].
    now rewrite (proj2 (Qlt_bool_false_iff 0 (valueOf holdings)) Hle).
  - intros Hnn h Hh.
    apply (analysis_member _ _ _ _ _ Ha) in Hh as (h0 & H0 & ->).
    cbn [withPercentage h_percentage].
    apply share_range. split; [now apply Hnn|].
    rewrite valueOf_total. now apply (total_ge_member h_valueUsd).
Qed.

Lemma portfolio_percentages_witness :
  (Wallet.holdings = [] \/ inheritedKey (Text.toLowerCase "base") = false) /\
  exists a,
    analyzePortfolio "2026-01-01T00:00:00.000Z" Wallet.address "base"
                     Wallet.holdings = Return a /\
    pa_totalValueUsd a = valueOf Wallet.holdings.
Proof.
  assert (Wallet.holdings = [] \/ inheritedKey (Text.toLowerCase "base") = false)
    as H by (right; reflexivity).
  split; [exact H|].
  destruct (portfolio_percentages
              "2026-01-01T00:00:00.000Z" Wallet.address "base"
              Wallet.holdings H) as (a & Ha & Et & _).
  exists a. now split.
Defined.

(** X22. The holdings of an analysis are the wallet's holdings, each with
    its percentage filled in, ordered by value with the largest first;
    [topHolding] is the first of them, so no holding is worth more, and it
    is [null] exactly for an empty wallet; [tokenCount] is their number.
    (The analysis exists unless the chain is an inherited name and the
    wallet has a holding.) *)
Theorem portfolio_holdings_ordered (now walletAddress chain : string)
    (holdings : list TokenHolding) :
  holdings = [] \/ inheritedKey (Text.toLowerCase chain) = false ->
  exists a,
    analyzePortfolio now walletAddress chain holdings = Return a /\
    Permutation (map (fun h => withPercentage h 0) (pa_holdings a))
                (map (fun h => withPercentage h 0) holdings) /\
    Sorted (fun x y => h_valueUsd y <= h_valueUsd x) (pa_holdings a) /\
    pa_tokenCount a = length holdings /\
    (pa_topHolding a = None <-> holdings = []) /\
    (forall t, pa_topHolding a = Some t ->
       In t (pa_holdings a) /\
       forall h, In h (pa_holdings a) -> h_valueUsd h <= h_valueUsd t).
Proof.
  intros Hret.
  destruct (analyzePortfolio_returns now walletAddress chain holdings Hret)
    as [a Ha].
  exists a. split; [exact Ha|].
  destruct (analysis_holdings _ _ _ _ _ Ha) as [Hp Hs].
  destruct (analyzePortfolio_returned _ _ _ _ _ Ha)
    as (_ & _ & _ & _ & Eh & Ec & Etop & _).
  cbv zeta in Eh, Ec, Etop. rewrite <- Eh in Ec, Etop. clear Eh.
  assert (Hlen : length (pa_holdings a) = length holdings)
    by (rewrite (Permutation_length Hp); apply length_map).
  split; [|split; [exact Hs|split; [congruence|split]]].
  - eapply perm_trans; [apply Permutation_map, Hp|].
    rewrite map_map. apply Permutation_refl.
  - rewrite Etop. unfold Arr.get. cbn [Z.ltb Z.compare Z.to_nat nth_error].
    destruct (pa_holdings a) as [|t rest]; destruct holdings as [|h0 hs];
      cbn [length] in Hlen; try discriminate Hlen;
      split; intros H; try reflexivity; discriminate H.
  - intros t Ht. rewrite Etop in Ht.
    unfold Arr.get in Ht. cbn [Z.ltb Z.compare Z.to_nat nth_error] in Ht.
    destruct (pa_holdings a) as [|t' rest]; [discriminate Ht|].
    injection Ht as ->. split; [now left|].
    apply Sorted_StronglySorted in Hs;
      [|intros x y z Hxy Hyz; eapply Qle_trans; eauto].
    inversion Hs as [|? ? _ Hall]; subst.
    intros h [<-|Hh]; [apply Qle_refl|].
    rewrite Forall_forall in Hall. now apply Hall.
Qed.

Lemma portfolio_holdings_ordered_witness :
  (Wallet.holdings = [] \/ inheritedKey (Text.toLowerCase "Base") = false) /\
  exists a,
    analyzePortfolio "2026-01-01T00:00:00.000Z" Wallet.address "Base"
                     Wallet.holdings = Return a /\
    pa_tokenCount a = 3%nat.
Proof.
  assert (Wallet.holdings = [] \/ inheritedKey (Text.toLowerCase "Base") = false)
    as H by (right; reflexivity).
  split; [exact H|].
  destruct (portfolio_holdings_ordered
              "2026-01-01T00:00:00.000Z" Wallet.address "Base"
              Wallet.holdings H) as (a & Ha & _ & _ & Ec & _).
  exists a. now split.
Defined.

(** X23. The diversification score always lies between 0 and 100, and a
    wallet whose total value is not positive, an empty one in particular,
    scores 100.  (The analysis exists unless the chain is an inherited
    name and the wallet has a holding.) *)
Theorem diversification_score_range (now walletAddress chain : string)
    (holdings : list TokenHolding) :
  holdings = [] \/ inheritedKey (Text.toLowerCase chain) = false ->
  exists a,
    analyzePortfolio now walletAddress chain holdings = Return a /\
    0 <= pa_diversificationScore a <= 100 /\
    (pa_totalValueUsd a <= 0 -> pa_diversificationScore a == 100) /\
    (holdings = [] ->
     pa_totalValueUsd a = 0 /\ pa_diversificationScore a = 100).
Proof.
  intros Hret.
  destruct (analyzePortfolio_returns now walletAddress chain holdings Hret)
    as [a Ha].
  exists a. split; [exact Ha|].
  pose proof (analysis_score _ _ _ _ _ Ha) as Es.
  destruct (analyzePortfolio_returned _ _ _ _ _ Ha)
    as (_ & _ & _ & Et & _ & _ & _ & Ed).
  cbv zeta in Et, Ed. split; [rewrite Ed; apply Math_min_max_range|]. split.
  - rewrite Et. intros Hle. rewrite Es.
    eapply Qeq_trans; [apply Math_min_max_comp with (y := 100)|reflexivity].
    rewrite total_zero_in; [reflexivity|].
    intros h _.
    rewrite (proj2 (Qlt_bool_false_iff 0 (valueOf holdings)) Hle). ring.
  - intros ->. rewrite Et, Ed. split; reflexivity.
Qed.

Lemma diversification_score_range_witness :
  (@nil TokenHolding = [] \/
   inheritedKey (Text.toLowerCase "constructor") = false) /\
  exists a,
    analyzePortfolio "2026-01-01T00:00:00.000Z" Wallet.address "constructor"
                     [] = Return a /\
    pa_diversificationScore a = 100.
Proof.
  assert (@nil TokenHolding = [] \/
          inheritedKey (Text.toLowerCase "constructor") = false)
    as H by (left; reflexivity).
  split; [exact H|].
  destruct (diversification_score_range
              "2026-01-01T00:00:00.000Z" Wallet.address "constructor" [] H)
    as (a & Ha & _ & _ & He).
  exists a. split; [exact Ha | now apply He].
Defined.

(** X24. A wallet whose whole value sits in one holding scores 0, however
    many holdings without value come with it. *)
Theorem concentrated_wallet_scores_zero (now walletAddress chain : string)
    (before after : list TokenHolding) (h : TokenHolding) :
  inheritedKey (Text.toLowerCase chain) = false ->
  0 < h_valueUsd h ->
  (forall x, In x (before ++ after) -> h_valueUsd x == 0) ->
  exists a,
    analyzePortfolio now walletAddress chain (before ++ h :: after)
    = Return a /\
    pa_totalValueUsd a == h_valueUsd h /\
    pa_diversificationScore a == 0.
Proof.
  intros Hchain Hpos Hzero.
  destruct (analyzePortfolio_returns now walletAddress chain
              (before ++ h :: after) (or_intror Hchain)) as [a Ha].
  exists a. split; [exact Ha|].
  pose proof (analysis_score _ _ _ _ _ Ha) as Es.
  destruct (analyzePortfolio_returned _ _ _ _ _ Ha)
    as (_ & _ & _ & Et & _).
  cbv zeta in Et.
  assert (valueOf (before ++ h :: after) == h_valueUsd h) as Ev.
  { rewrite valueOf_total, map_app, total_app. cbn [map Spec.total].
    rewrite !total_zero_in; [ring| |];
      intros x Hx; apply Hzero, in_or_app; [now right | now left]. }
  split; [now rewrite Et|].
  rewrite Es.
  assert (0 < valueOf (before ++ h :: after)) as Hv by (now rewrite Ev).
  rewrite (proj2 (Qlt_bool_iff 0 _) Hv).
  eapply Qeq_trans; [apply Math_min_max_comp with (y := 0)|reflexivity].
  rewrite map_app, total_app. cbn [map Spec.total].
  rewrite !total_zero_in.
  - rewrite Ev. field. lra.
  - intros x Hx. rewrite (Hzero x) by (apply in_or_app; now right).
    field. lra.
  - intros x Hx. rewrite (Hzero x) by (apply in_or_app; now left).
    field. lra.
Qed.

Lemma concentrated_wallet_scores_zero_witness :
  inheritedKey (Text.toLowerCase "base") = false /\
  exists a,
    analyzePortfolio "2026-01-01T00:00:00.000Z" Wallet.address "base"
      ([Wallet.dust] ++ holdingOf Wallet.eth :: [Wallet.dust]) = Return a /\
    pa_diversificationScore a == 0.
Proof.
  split; [reflexivity|].
  destruct (concentrated_wallet_scores_zero
              "2026-01-01T00:00:00.000Z" Wallet.address "base"
              [Wallet.dust] [Wallet.dust] (holdingOf Wallet.eth))
    as (a & Ha & _ & Es).
  - reflexivity.
  - reflexivity.
  - intros x [<-|[<-|[]]]; reflexivity.
  - exists a. now split.
Defined.

Lemma isWalletAddress_nonempty (address : string) :
  isWalletAddress address = true -> String.eqb address "" = false.
Proof.
  destruct address; [discriminate|reflexivity].
Qed.


(** X27. When the balance request fails, or its answer has no assets, the
    portfolio endpoint still answers 200, with the analysis of an empty
    wallet: no holdings, no top holding, a total value of 0, shares of 0
    and a diversification score of 100. *)
Theorem portfolioRoute_without_balances
    (ankrGet : ChainId -> string -> result (option (list AnkrAsset)))
    (now sent address : string) (chain : option string)
    (Haddress : isWalletAddress address = true)
    (Hdown : forall chainId wallet assets,
               ankrGet chainId wallet <> Return (Some assets)) :
  let r := portfolioRoute ankrGet now sent address chain in
  status r = 200%Z /\ success r = true /\
  exists a, data r = Some a /\
    pa_holdings a = [] /\ pa_tokenCount a = 0%nat /\
    pa_topHolding a = None /\ pa_totalValueUsd a = 0 /\
    pa_diversificationScore a = 100 /\
    pa_stablecoinPercentage a = 0 /\ pa_nativeTokenPercentage a = 0.
Proof.
  intros r. unfold r, portfolioRoute.
  rewrite Haddress, (isWalletAddress_nonempty _ Haddress). cbn [negb orb].
  assert (forall c, getWalletTokens ankrGet address c = []) as ->.
  { intros c. unfold getWalletTokens.
    destruct (ankrGet _ address) as [[assets|]|e] eqn:E;
      [exfalso; eapply Hdown; exact E | reflexivity | reflexivity]. }
  repeat split. eexists. repeat split.
Qed.

Lemma portfolioRoute_without_balances_witness :
  isWalletAddress Wallet.address = true /\
  status (portfolioRoute (fun _ _ => Throw {| message := "timeout" |})
            "2026-01-01T00:00:00.000Z" "2026-01-01T00:00:01.000Z"
            Wallet.address None) = 200%Z.
Proof.
  split; [reflexivity|].
  apply (portfolioRoute_without_balances
           (fun _ _ => Throw {| message := "timeout" |})
           "2026-01-01T00:00:00.000Z" "2026-01-01T00:00:01.000Z"
           Wallet.address None); [reflexivity|].
  intros chainId wallet assets. discriminate.
Defined.

(** X28. Every holding read from a balance answer has a non-empty symbol,
    name, contract address and balance, a percentage of 0, and a number of
    decimals that is not 0: an asset reported with 0 decimals, or none, is
    read with 18. *)
Theorem wallet_tokens_filled
    (ankrGet : ChainId -> string -> result (option (list AnkrAsset)))
    (walletAddress chain : string) (h : TokenHolding) :
  In h (getWalletTokens ankrGet walletAddress chain) ->
  h_symbol h <> ""%string /\ h_name h <> ""%string /\
  h_contractAddress h <> ""%string /\ h_balance h <> ""%string /\
  h_decimals h <> 0%Z /\ h_percentage h = 0 /\
  exists asset,
    h = holdingOf asset /\
    (tokenDecimals asset = Some 0%Z \/ tokenDecimals asset = None ->
     h_decimals h = 18%Z) /\
    (forall d, tokenDecimals asset = Some d -> d <> 0%Z -> h_decimals h = d).
Proof.
  unfold getWalletTokens.
  destruct (ankrGet _ walletAddress) as [[assets|]|e] eqn:E;
    [|contradiction|contradiction].
  intros Hin. apply in_map_iff in Hin as (asset & <- & _).
  assert (forall x d, d <> ""%string -> Text.orElse x d <> ""%string) as Hor.
  { intros [s|] d Hd; cbn [Text.orElse]; [|exact Hd].
    destruct (String.eqb_spec s ""); assumption. }
  cbn [holdingOf h_symbol h_name h_contractAddress h_balance h_decimals
       h_percentage h_balanceFormatted].
  repeat split; try (apply Hor; try apply Hor; discriminate).
  - unfold decimalsOf. destruct (tokenDecimals asset) as [d|]; [|discriminate].
    destruct (Z.eqb_spec d 0); [discriminate|assumption].
  - exists asset. repeat split.
    + unfold decimalsOf. now intros [-> | ->].
    + unfold decimalsOf. intros d -> Hd.
      now rewrite (proj2 (Z.eqb_neq d 0) Hd).
Qed.

Lemma wallet_tokens_filled_witness :
  In (holdingOf Wallet.points)
     (getWalletTokens Wallet.ankr Wallet.address "Base") /\
  h_decimals (holdingOf Wallet.points) <> 0%Z.
Proof.
  assert (In (holdingOf Wallet.points)
             (getWalletTokens Wallet.ankr Wallet.address "Base")) as Hin
    by (right; right; left; reflexivity).
  split; [exact Hin|].
  apply (wallet_tokens_filled Wallet.ankr Wallet.address "Base" _ Hin).
Defined.

(** ** The payment middleware *)

Lemma test_lits (pre : string) (pieces : list Paywall.Piece) (s : string) :
  Paywall.test (map Paywall.Lit (list_ascii_of_string pre) ++ pieces) s = true <->
  exists s', s = (pre ++ s')%string /\ Paywall.test pieces s' = true.
Proof.
  revert s. induction pre as [|c pre IH]; intros s.
  - cbn [list_ascii_of_string map app append]. split.
    + intros H. now exists s.
    + now intros (s' & -> & H).
  - cbn [list_ascii_of_string map app append Paywall.test].
    destruct s as [|d s].
    + split; [discriminate|]. intros (s' & E & _). discriminate E.
    + split.
      * intros H. apply andb_prop in H as [Hc Hs].
        apply Ascii.eqb_eq in Hc as <-.
        apply IH in Hs as (s' & -> & Hs). now exists s'.
      * intros (s' & E & Hs). injection E as <- ->.
        rewrite Ascii.eqb_refl. apply IH. now exists s'.
Qed.

Lemma test_end (s : string) : Paywall.test [] s = true <-> s = ""%string.
Proof.
  destruct s; cbn [Paywall.test]; split; congruence.
Qed.

Lemma test_segment (s : string) :
  Paywall.test [Paywall.Segment] s = Paywall.isSegment s.
Proof.
  induction s as [|d s IH]; [reflexivity|].
  change (Paywall.test [Paywall.Segment] (String d s))
    with (negb (Ascii.eqb d "/")
          && (Paywall.test [] s || Paywall.test [Paywall.Segment] s)).
  rewrite IH. unfold Paywall.isSegment. cbn [String.eqb negb andb Paywall.noSlash].
  destruct s as [|e s]; [reflexivity|].
  cbn [Paywall.test String.eqb negb andb orb]. reflexivity.
Qed.

Lemma test_literal_path (path s : string) :
  Paywall.test (map Paywall.Lit (list_ascii_of_string path)) s = true <-> s = path.
Proof.
  rewrite <- (app_nil_r (map _ _)), test_lits. split.
  - intros (s' & -> & H). apply test_end in H as ->.
    clear. induction path as [|c p IH]; cbn [append]; congruence.
  - intros ->. exists ""%string. split; [|reflexivity].
    clear. induction path as [|c p IH]; cbn [append]; congruence.
Qed.

Lemma test_parameter_path (pre s : string) :
  Paywall.test (map Paywall.Lit (list_ascii_of_string pre) ++ [Paywall.Segment]) s
  = true <->
  exists name, Paywall.isSegment name = true /\ s = (pre ++ name)%string.
Proof.
  rewrite test_lits. split.
  - intros (s' & -> & H). rewrite test_segment in H. now exists s'.
  - intros (name & H & ->). exists name. now rewrite test_segment.
Qed.

Lemma append_inj_l (pre a b : string) :
  (pre ++ a)%string = (pre ++ b)%string -> a = b.
Proof.
  induction pre as [|c pre IH]; cbn [append]; [trivial|].
  intros E. injection E as E. now apply IH.
Qed.

Section PaidRoutes.

Variable Cfg : Type.
Variables price portfolio signals : Cfg.

Let table : list (string * Cfg) :=
  [("GET /api/price", price); ("GET /api/portfolio/:address", portfolio);
   ("GET /api/signals/:symbol", signals)]%string.

(** The three ways a path below [/api] is a paid one. *)
Let priced (path : string) (cfg : Cfg) : Prop :=
  (path = "/price"%string /\ cfg = price) \/
  (exists name, Paywall.isSegment name = true /\
     path = ("/portfolio/" ++ name)%string /\ cfg = portfolio) \/
  (exists name, Paywall.isSegment name = true /\
     path = ("/signals/" ++ name)%string /\ cfg = signals).

Lemma matchRoute_table (method path : string) :
  (exists cfg, Paywall.matchRoute table method ("/api" ++ path) = Return cfg) /\
  forall cfg,
    Paywall.matchRoute table method ("/api" ++ path) = Return (Some cfg) <->
    method = "GET"%string /\ priced path cfg.
Proof.
  unfold table. cbn [Paywall.matchRoute].
  change (Paywall.split "GET /api/price") with ["GET"; "/api/price"]%string.
  change (Paywall.split "GET /api/portfolio/:address")
    with ["GET"; "/api/portfolio/:address"]%string.
  change (Paywall.split "GET /api/signals/:symbol")
    with ["GET"; "/api/signals/:symbol"]%string.
  cbn [nth nth_error].
  change (Paywall.compile false "/api/price")
    with (map Paywall.Lit (list_ascii_of_string "/api/price")).
  change (Paywall.compile false "/api/portfolio/:address")
    with (map Paywall.Lit (list_ascii_of_string "/api/portfolio/")
          ++ [Paywall.Segment]).
  change (Paywall.compile false "/api/signals/:symbol")
    with (map Paywall.Lit (list_ascii_of_string "/api/signals/")
          ++ [Paywall.Segment]).
  destruct (String.eqb_spec "GET" method) as [<-|Hm].
  2:{ split; [now eexists|]. intros cfg. split; [discriminate|].
      intros [E _]. congruence. }
  pose proof (test_literal_path "/api/price" ("/api" ++ path)) as T1.
  pose proof (test_parameter_path "/api/portfolio/" ("/api" ++ path)) as T2.
  pose proof (test_parameter_path "/api/signals/" ("/api" ++ path)) as T3.
  destruct (Paywall.test (map Paywall.Lit (list_ascii_of_string "/api/price"))
              ("/api" ++ path)) eqn:E1.
  { split; [now eexists|]. intros cfg.
    assert (path = "/price"%string) as ->
      by (apply (append_inj_l "/api"), T1; reflexivity).
    split.
    - intros E. injection E as <-. split; [reflexivity|]. left. now split.
    - intros [_ [[_ ->]|[(n & _ & E & _)|(n & _ & E & _)]]];
        [reflexivity|discriminate E|discriminate E]. }
  assert (path <> "/price"%string) as N1.
  { intros ->. assert (false = true) by (now apply T1). discriminate. }
  destruct (Paywall.test (map Paywall.Lit (list_ascii_of_string "/api/portfolio/")
                       ++ [Paywall.Segment]) ("/api" ++ path)) eqn:E2.
  { split; [now eexists|]. intros cfg.
    destruct (proj1 T2 eq_refl) as (name & Hn & En).
    apply (append_inj_l "/api" path ("/portfolio/" ++ name)) in En.
    subst path. split.
    - intros E. injection E as <-. split; [reflexivity|].
      right; left. now exists name.
    - intros [_ [[E _]|[(n & _ & _ & ->)|(n & _ & E & _)]]];
        [discriminate E|reflexivity|discriminate E]. }
  assert (forall name, Paywall.isSegment name = true ->
            path <> ("/portfolio/" ++ name)%string) as N2.
  { intros name Hn ->.
    assert (false = true) by (apply T2; now exists name). discriminate. }
  destruct (Paywall.test (map Paywall.Lit (list_ascii_of_string "/api/signals/")
                       ++ [Paywall.Segment]) ("/api" ++ path)) eqn:E3.
  { split; [now eexists|]. intros cfg.
    destruct (proj1 T3 eq_refl) as (name & Hn & En).
    apply (append_inj_l "/api" path ("/signals/" ++ name)) in En.
    subst path. split.
    - intros E. injection E as <-. split; [reflexivity|].
      right; right. now exists name.
    - intros [_ [[E _]|[(n & _ & E & _)|(n & _ & _ & ->)]]];
        [discriminate E|discriminate E|reflexivity]. }
  split; [now eexists|]. intros cfg. split; [discriminate|].
  intros [_ [[E _]|[(n & Hn & E & _)|(n & Hn & E & _)]]].
  - now destruct (N1 E).
  - now destruct (N2 n Hn E).
  - assert (false = true) by (apply T3; exists n; now subst). discriminate.
Qed.

(** X29. With the table of paid routes, the middleware answers 402 exactly to a
    [GET] that carries no payment header (none, or empty ones) and whose
    path below [/api] is [/price], [/portfolio/<segment>] or
    [/signals/<segment>], a segment being non-empty and free of [/]; the
    402 carries the configuration of that route.  Every other request is
    passed on: other methods, longer paths, a trailing [/]. *)
Theorem paywall_charges_paid_routes (req : Paywall.Request) :
  (forall cfg,
     Paywall.x402PaymentMiddleware table req = Paywall.PaymentRequired cfg <->
     Paywall.req_method req = "GET"%string /\
     truthy (Paywall.paymentSignature req) = false /\
     truthy (Paywall.xPayment req) = false /\
     priced (Paywall.req_path req) cfg) /\
  ((forall cfg,
      Paywall.x402PaymentMiddleware table req <> Paywall.PaymentRequired cfg) ->
   Paywall.x402PaymentMiddleware table req = Paywall.Next).
Proof.
  unfold Paywall.x402PaymentMiddleware.
  destruct (matchRoute_table (Paywall.req_method req) (Paywall.req_path req))
    as [[found E] M].
  rewrite E in *. split.
  - intros cfg. destruct found as [c|].
    + destruct (truthy (Paywall.paymentSignature req)) eqn:S1;
        [|destruct (truthy (Paywall.xPayment req)) eqn:S2]; cbn [orb].
      * split; [discriminate|]. intros (_ & F & _). discriminate F.
      * split; [discriminate|]. intros (_ & _ & F & _). discriminate F.
      * split.
        -- intros H. injection H as <-.
           destruct (proj1 (M c) eq_refl) as [Hm Hp]. now repeat split.
        -- intros (Hm & _ & _ & Hp).
           assert (Return (Some c) = Return (Some cfg)) as H
             by (apply M; now split).
           now injection H as ->.
    + split; [discriminate|]. intros (Hm & _ & _ & Hp).
      assert (@Return (option Cfg) None = Return (Some cfg)) as H
        by (apply M; now split).
      discriminate H.
  - intros H. destruct found as [c|]; [|reflexivity].
    destruct (truthy (Paywall.paymentSignature req) || truthy (Paywall.xPayment req));
      [reflexivity|]. now destruct (H c).
Qed.

(** X30. The middleware never looks at what a payment header says: on the table
    of paid routes, a request with a non-empty [Payment-Signature] or
    [X-Payment] header is passed on, whatever the header holds. *)
Theorem paywall_accepts_any_signature (req : Paywall.Request) :
  truthy (Paywall.paymentSignature req) = true \/
  truthy (Paywall.xPayment req) = true ->
  Paywall.x402PaymentMiddleware table req = Paywall.Next.
Proof.
  intros H. unfold Paywall.x402PaymentMiddleware.
  destruct (matchRoute_table (Paywall.req_method req) (Paywall.req_path req))
    as [[found E] _].
  rewrite E. destruct found as [c|]; [|reflexivity].
  destruct H as [-> | ->]; [reflexivity|].
  now rewrite orb_true_r.
Qed.

End PaidRoutes.

Lemma paywall_accepts_any_signature_witness :
  Paywall.x402PaymentMiddleware Paywall.pricing
    {| Paywall.req_method := "GET";
       Paywall.req_path := "/signals/BTC";
       Paywall.paymentSignature := None;
       Paywall.xPayment := Some "anything"%string |}
  = Paywall.Next.
Proof.
  apply (paywall_accepts_any_signature string "$0.001" "$0.005" "$0.01")%string.
  right. reflexivity.
Defined.
